(** * The persistence core of rpgmaker-mz-mcp

    A shallow embedding of [src/core/file-handler.ts], [src/core/version-sync.ts],
    [src/core/database-manager.ts] and [src/core/project-manager.ts], and the
    properties of the specification that concern them.

    Modelling conventions.
    - JavaScript numbers are modelled by [Z]: the documents of a project hold
      integers (ids, the version counter).  A number of the model is an
      integer that a double represents; [+] is the sum of doubles, exact up
      to [2^53] and rounded beyond ([Number.add]).  Fractions and exponents
      are outside the model.
    - JavaScript strings are modelled by [string], read as the well-formed
      UTF-8 text that [fs.readFile(_, 'utf-8')] and
      [fs.writeFile(_, _, 'utf-8')] exchange with the disk.
    - A JavaScript object is its list of own properties in insertion order
      (the engine's special ordering of array-index names is not modelled; it
      changes the order of members in the written text, never a lookup).
    - The file system maps a path to a regular file or a directory.  An
      operation fails when its source is missing or when a directory stands
      where a file is needed; parent directories and permissions are not
      tracked.
    - [logger] writes to stderr, which is not modelled.  The template
      literal of a log line is evaluated all the same, and it throws when a
      value does not convert to a string ([Logger.info]); the lines that
      hold only strings and numbers cannot throw and are left out.

    Beside the persistence core, the file embeds the rest of
    [FileHandler] that reads or lists ([readJson], [listFiles],
    [listDirs]), the rest of [ProjectManager] ([getInfo], [countEntities],
    [listResources], [load]), the default records of
    [templates/defaults.ts], the helpers of the tools that are functions of
    their own ([getManager], [mapFilename], [readMap], [writeMap],
    [readMapInfos], [writeMapInfos]) and [convertCommand] with its table
    [COMMAND_CODES].  Further conventions for these.
    - A directory lists the paths that are its path, a separator and a
      name without separator; [fs.readdir] returns them in no particular
      order.
    - [Array.prototype.sort] without a comparator orders strings by their
      UTF-16 code units, which [Utf16.units] computes from the UTF-8 text
      of the model.
    - A Zod schema is the function that [safeParse] computes.
    - [undefined] is [None]; the truth of a value in [||] and the
      nullishness in [??] are those of JavaScript on the values of JSON.
    - The handlers that the tools register answer with the message of
      whatever error they catch, which for the errors of the engine and of
      the file system is text of the platform; they are left out, as are
      [ensureDir], [deleteFile] and [copyFile], which only forward to [fs],
      and [defaultSystem], which draws a random number. *)

From Stdlib Require Import Ascii String ZArith Decimal DecimalN Lia.
From stdpp Require Import gmap strings list sorting.

Local Open Scope char_scope.
Local Open Scope list_scope.

(** ** JSON values *)

Module Json.

Unset Elimination Schemes.
Inductive json : Type :=
  | JNull
  | JBool (b : bool)
  | JNum (n : Z)
  | JStr (s : string)
  | JArr (items : list json)
  | JObj (members : list (string * json)).
Set Elimination Schemes.

(** The own properties of an object, in insertion order. *)
Abbreviation obj := (list (string * json)).

Section induction.
Variable P : json → Prop.
Hypothesis Hnull : P JNull.
Hypothesis Hbool : ∀ b, P (JBool b).
Hypothesis Hnum : ∀ n, P (JNum n).
Hypothesis Hstr : ∀ s, P (JStr s).
Hypothesis Harr : ∀ items, Forall P items → P (JArr items).
Hypothesis Hobj : ∀ members, Forall (λ kv, P kv.2) members → P (JObj members).

Fixpoint json_ind (v : json) : P v :=
  match v with
  | JNull => Hnull
  | JBool b => Hbool b
  | JNum n => Hnum n
  | JStr s => Hstr s
  | JArr items =>
      Harr items
        ((fix all (l : list json) : Forall P l :=
            match l with
            | [] => Forall_nil_2 P
            | x :: l' => Forall_cons_2 P x l' (json_ind x) (all l')
            end) items)
  | JObj members =>
      Hobj members
        ((fix all (l : obj) : Forall (λ kv, P kv.2) l :=
            match l with
            | [] => Forall_nil_2 _
            | kv :: l' => Forall_cons_2 (λ kv, P kv.2) kv l' (json_ind kv.2) (all l')
            end) members)
  end.
End induction.

(** *** Objects *)

(** [o[k]]: the value of own property [k], [None] for [undefined]. *)
Fixpoint obj_get (k : string) (o : obj) : option json :=
  match o with
  | [] => None
  | (k', v) :: o' => if String.eqb k k' then Some v else obj_get k o'
  end.

(** [o[k] = v]: an existing property keeps its place, a new one goes last. *)
Fixpoint obj_set (k : string) (v : json) (o : obj) : obj :=
  match o with
  | [] => [(k, v)]
  | (k', v') :: o' =>
      if String.eqb k k' then (k', v) :: o' else (k', v') :: obj_set k v o'
  end.

(** [{ ...o, ...src }]: every property of [src] is assigned onto [o] in order. *)
Definition obj_assign (o src : obj) : obj :=
  foldl (λ acc kv, obj_set kv.1 kv.2 acc) o src.

Definition keys (o : obj) : list string := o.*1.

(** A value of the model stands for a JavaScript value when the property
    names of each of its objects are pairwise distinct. *)
Fixpoint wf_json (v : json) : bool :=
  match v with
  | JArr items => forallb wf_json items
  | JObj members =>
      bool_decide (NoDup (map fst members)) && forallb (λ kv, wf_json (snd kv)) members
  | _ => true
  end.

End Json.
Export Json.

(** ** JSON text: [JSON.stringify(_, null, 2)] and [JSON.parse] *)

Module JsonText.

Definition chars (s : string) : list ascii := list_ascii_of_string s.

Definition dquote : ascii := "034".
Definition backslash : ascii := "092".
Definition LF : ascii := "010".

(** *** Numbers *)

Fixpoint print_uint (d : uint) : list ascii :=
  match d with
  | Nil => []
  | D0 d => "0" :: print_uint d
  | D1 d => "1" :: print_uint d
  | D2 d => "2" :: print_uint d
  | D3 d => "3" :: print_uint d
  | D4 d => "4" :: print_uint d
  | D5 d => "5" :: print_uint d
  | D6 d => "6" :: print_uint d
  | D7 d => "7" :: print_uint d
  | D8 d => "8" :: print_uint d
  | D9 d => "9" :: print_uint d
  end.

Definition print_N (n : N) : list ascii := print_uint (N.to_uint n).

(** An integer prints in decimal, as [Number::toString] does below 1e21. *)
Definition print_Z (z : Z) : list ascii :=
  match z with
  | Zneg p => "-" :: print_N (Npos p)
  | _ => print_N (Z.to_N z)
  end.

Definition digit_cons (c : ascii) : option (uint → uint) :=
  if Ascii.eqb c "0" then Some D0 else
  if Ascii.eqb c "1" then Some D1 else
  if Ascii.eqb c "2" then Some D2 else
  if Ascii.eqb c "3" then Some D3 else
  if Ascii.eqb c "4" then Some D4 else
  if Ascii.eqb c "5" then Some D5 else
  if Ascii.eqb c "6" then Some D6 else
  if Ascii.eqb c "7" then Some D7 else
  if Ascii.eqb c "8" then Some D8 else
  if Ascii.eqb c "9" then Some D9 else None.

(** The longest run of digits at the head of the text. *)
Fixpoint read_uint (s : list ascii) : uint * list ascii :=
  match s with
  | [] => (Nil, [])
  | c :: r =>
      match digit_cons c with
      | Some D => let '(d, r') := read_uint r in (D d, r')
      | None => (Nil, s)
      end
  end.

(** A fraction or an exponent would follow the integer part here. *)
Definition continues_number (s : list ascii) : bool :=
  match s with
  | c :: _ => Ascii.eqb c "." || Ascii.eqb c "e" || Ascii.eqb c "E"
  | [] => false
  end.

(** The integer part of the JSON grammar is [0] or a digit run without a
    leading zero, which is to say a normalised decimal. *)
Definition parse_N (s : list ascii) : option (N * list ascii) :=
  let '(d, r) := read_uint s in
  if uint_beq (unorm d) d && negb (continues_number r)
  then Some (N.of_uint d, r) else None.

Definition parse_number (s : list ascii) : option (json * list ascii) :=
  match s with
  | c :: r =>
      if Ascii.eqb c "-"
      then '(n, r') ← parse_N r; Some (JNum (- Z.of_N n), r')
      else '(n, r') ← parse_N s; Some (JNum (Z.of_N n), r')
  | [] => None
  end.

(** *** Strings *)

Definition hex_digit (n : N) : ascii :=
  ascii_of_N (if (n <? 10)%N then 48 + n else 87 + n).

Definition hex_value (c : ascii) : option N :=
  let n := N_of_ascii c in
  if (48 <=? n)%N && (n <=? 57)%N then Some (n - 48)%N else
  if (97 <=? n)%N && (n <=? 102)%N then Some (n - 87)%N else
  if (65 <=? n)%N && (n <=? 70)%N then Some (n - 55)%N else None.

(** [QuoteJSONString]: one code unit of the string. *)
Definition escape_char (c : ascii) : list ascii :=
  if Ascii.eqb c dquote then [backslash; dquote] else
  if Ascii.eqb c backslash then [backslash; backslash] else
  if Ascii.eqb c "008" then [backslash; "b"] else
  if Ascii.eqb c "012" then [backslash; "f"] else
  if Ascii.eqb c "010" then [backslash; "n"] else
  if Ascii.eqb c "013" then [backslash; "r"] else
  if Ascii.eqb c "009" then [backslash; "t"] else
  let n := N_of_ascii c in
  if (n <? 32)%N
  then [backslash; "u"; "0"; "0"; hex_digit (n / 16); hex_digit (n mod 16)]
  else [c].

Definition quote (s : string) : list ascii :=
  dquote :: flat_map escape_char (list_ascii_of_string s) ++ [dquote].

(** The UTF-8 bytes of a code unit of the basic plane; a surrogate has none
    of its own and is outside the model. *)
Definition utf8_of_code (n : N) : option (list ascii) :=
  if (n <? 128)%N then Some [ascii_of_N n] else
  if (n <? 2048)%N then
    Some [ascii_of_N (192 + n / 64); ascii_of_N (128 + n mod 64)] else
  if (55296 <=? n)%N && (n <? 57344)%N then None else
  Some [ascii_of_N (224 + n / 4096); ascii_of_N (128 + (n / 64) mod 64);
        ascii_of_N (128 + n mod 64)].

Definition unescape (c : ascii) : option ascii :=
  if Ascii.eqb c dquote then Some dquote else
  if Ascii.eqb c backslash then Some backslash else
  if Ascii.eqb c "/" then Some "/" else
  if Ascii.eqb c "b" then Some "008" else
  if Ascii.eqb c "f" then Some "012" else
  if Ascii.eqb c "n" then Some "010" else
  if Ascii.eqb c "r" then Some "013" else
  if Ascii.eqb c "t" then Some "009" else None.

Definition hex4 (a b c d : ascii) : option N :=
  a ← hex_value a; b ← hex_value b; c ← hex_value c; d ← hex_value d;
  Some (((a * 16 + b) * 16 + c) * 16 + d)%N.

(** The characters of a string literal after its opening quote, up to the
    closing one. *)
Fixpoint parse_string (s : list ascii) : option (list ascii * list ascii) :=
  match s with
  | [] => None
  | c :: r =>
      if Ascii.eqb c dquote then Some ([], r) else
      if Ascii.eqb c backslash then
        match r with
        | e :: r1 =>
            if Ascii.eqb e "u" then
              match r1 with
              | h1 :: h2 :: h3 :: h4 :: r2 =>
                  n ← hex4 h1 h2 h3 h4;
                  bs ← utf8_of_code n;
                  '(str, r3) ← parse_string r2;
                  Some (bs ++ str, r3)
              | _ => None
              end
            else
              x ← unescape e;
              '(str, r2) ← parse_string r1;
              Some (x :: str, r2)
        | [] => None
        end
      else if (N_of_ascii c <? 32)%N then None
      else '(str, r1) ← parse_string r; Some (c :: str, r1)
  end.

(** *** Values *)

Definition is_ws (c : ascii) : bool :=
  Ascii.eqb c " " || Ascii.eqb c "009" || Ascii.eqb c "010" || Ascii.eqb c "013".

Fixpoint skip_ws (s : list ascii) : list ascii :=
  match s with
  | c :: r => if is_ws c then skip_ws r else s
  | [] => []
  end.

(** A line break followed by the indentation of the given depth. *)
Definition indent (n : nat) : list ascii := LF :: replicate n " ".

(** The items of a non-empty array or object, one per line. *)
Definition print_items {A} (pr : A → list ascii) (ind : nat) : list A → list ascii :=
  fix go xs :=
    match xs with
    | [] => []
    | x :: ys =>
        pr x ++ match ys with [] => [] | _ :: _ => "," :: indent ind ++ go ys end
    end.

(** [JSON.stringify(v, null, 2)], at nesting depth [ind / 2]. *)
Fixpoint print_json (ind : nat) (v : json) : list ascii :=
  match v with
  | JNull => chars "null"
  | JBool true => chars "true"
  | JBool false => chars "false"
  | JNum n => print_Z n
  | JStr s => quote s
  | JArr [] => chars "[]"
  | JArr items =>
      "[" :: indent (ind + 2)
        ++ print_items (print_json (ind + 2)) (ind + 2) items
        ++ indent ind ++ ["]"]
  | JObj [] => chars "{}"
  | JObj members =>
      "{" :: indent (ind + 2)
        ++ print_items (λ kv, quote (fst kv) ++ ":" :: " " :: print_json (ind + 2) (snd kv))
             (ind + 2) members
        ++ indent ind ++ ["}"]
  end.

Definition JSON_stringify (v : json) : string :=
  string_of_list_ascii (print_json 0 v).

(** The text after an expected keyword tail. *)
Fixpoint strip (pre s : list ascii) : option (list ascii) :=
  match pre, s with
  | [], _ => Some s
  | p :: pre', c :: s' => if Ascii.eqb p c then strip pre' s' else None
  | _ :: _, [] => None
  end.

(** The elements of an array after the first check for [[]], up to the
    closing bracket; [pv] reads one value. *)
Fixpoint parse_elements (pv : list ascii → option (json * list ascii))
    (fuel : nat) (s : list ascii) : option (list json * list ascii) :=
  match fuel with
  | O => None
  | S fuel' =>
      '(v, r) ← pv s;
      match skip_ws r with
      | c :: r' =>
          if Ascii.eqb c "," then
            '(vs, r'') ← parse_elements pv fuel' r'; Some (v :: vs, r'')
          else if Ascii.eqb c "]" then Some ([v], r')
          else None
      | [] => None
      end
  end.

(** The members of an object, up to the closing brace. *)
Fixpoint parse_members (pv : list ascii → option (json * list ascii))
    (fuel : nat) (s : list ascii) : option (obj * list ascii) :=
  match fuel with
  | O => None
  | S fuel' =>
      r0 ← strip [dquote] (skip_ws s);
      '(k, r1) ← parse_string r0;
      r2 ← strip [":"] (skip_ws r1);
      '(v, r3) ← pv r2;
      match skip_ws r3 with
      | c :: r4 =>
          if Ascii.eqb c "," then
            '(ms, r5) ← parse_members pv fuel' r4;
            Some ((string_of_list_ascii k, v) :: ms, r5)
          else if Ascii.eqb c "}" then Some ([(string_of_list_ascii k, v)], r4)
          else None
      | [] => None
      end
  end.

(** The value that starts at the first character that is not white space;
    [pv] reads the values nested in it. *)
Definition parse_dispatch (pv : list ascii → option (json * list ascii))
    (fuel : nat) (s : list ascii) : option (json * list ascii) :=
  match skip_ws s with
  | [] => None
  | c :: r =>
      if Ascii.eqb c "n" then r' ← strip (chars "ull") r; Some (JNull, r') else
      if Ascii.eqb c "t" then r' ← strip (chars "rue") r; Some (JBool true, r') else
      if Ascii.eqb c "f" then r' ← strip (chars "alse") r; Some (JBool false, r') else
      if Ascii.eqb c dquote then
        '(str, r') ← parse_string r; Some (JStr (string_of_list_ascii str), r') else
      if Ascii.eqb c "[" then
        match strip ["]"] (skip_ws r) with
        | Some r' => Some (JArr [], r')
        | None => '(vs, r') ← parse_elements pv fuel r; Some (JArr vs, r')
        end else
      if Ascii.eqb c "{" then
        match strip ["}"] (skip_ws r) with
        | Some r' => Some (JObj [], r')
        | None =>
            '(ms, r') ← parse_members pv fuel r;
            (* a repeated name overwrites the earlier value in place *)
            Some (JObj (obj_assign [] ms), r')
        end else
      parse_number (c :: r)
  end.

(** One value and the text after it.  Each nesting level and each item
    takes one unit of fuel, so the length of the text is always enough
    (lemma [parse_value_enough]). *)
Fixpoint parse_value (fuel : nat) (s : list ascii) : option (json * list ascii) :=
  match fuel with
  | O => None
  | S fuel' => parse_dispatch (parse_value fuel') fuel' s
  end.

(** [JSON.parse]: one value, then nothing but white space. *)
Definition JSON_parse (text : string) : option json :=
  let s := list_ascii_of_string text in
  '(v, r) ← parse_value (S (length s)) s;
  match skip_ws r with [] => Some v | _ :: _ => None end.

End JsonText.
Export JsonText.

(** ** Words for the text round trip *)

Module TextVocabulary.

(** The text after a printed value: a separator, a line break, or nothing. *)
Definition delimited (s : list ascii) : bool :=
  match s with
  | [] => true
  | c :: _ => Ascii.eqb c "," || Ascii.eqb c LF
  end.

(** [pv] reads back what [pr] printed for [x], whatever white space comes
    before and whatever delimited text comes after. *)
Definition reads (pv : list ascii → option (json * list ascii))
    (pr : json → list ascii) (x : json) : Prop :=
  ∀ pre tail, forallb is_ws pre = true → delimited tail = true →
    pv (pre ++ pr x ++ tail) = Some (x, tail).

(** The number of nodes of a value: the fuel that reading it back takes. *)
Fixpoint size (v : json) : nat :=
  match v with
  | JArr items => S (foldr (λ x n, size x + n) 0 items)
  | JObj members => S (foldr (λ kv n, size (snd kv) + n) 0 members)
  | _ => 1
  end.

(** A printed value starts with a character that is neither white space
    nor a closing bracket. *)
Definition value_head (c : ascii) : bool :=
  negb (is_ws c) && negb (Ascii.eqb "]" c) && negb (Ascii.eqb "}" c).

(** [pv] takes at least one character, and the characters it takes are
    fuel enough for [parse_value]. *)
Definition fuelled (pv : list ascii → option (json * list ascii)) : Prop :=
  ∀ s v r, pv s = Some (v, r) →
    length r < length s
    ∧ ∀ m, length s - length r ≤ m → parse_value m s = Some (v, r).

(** The text that [writeJson] produces for a value. *)
Definition document_text (v : json) : string :=
  JSON_stringify v +:+ String LF EmptyString.

End TextVocabulary.
Export TextVocabulary.

Local Close Scope char_scope.

(** ** The file system and asynchronous functions *)

Module Fs.

Inductive node : Type :=
  | File (content : string)
  | Dir.

(** What an [async] function can reject with. *)
Inductive error : Type :=
  | ENOENT (path : string)      (* no such file or directory *)
  | EISDIR (path : string)      (* a directory stands where a file is needed *)
  | ENOTSUP (path : string)     (* outside the model: renaming a directory *)
  | SyntaxError                 (* [JSON.parse] on text that is not JSON *)
  | TypeError                   (* a property of [null], a method that is absent *)
  | Error (message : string).   (* [new Error(message)] *)

Inductive result (A : Type) : Type :=
  | Ok (a : A)
  | Throw (e : error).
Arguments Ok {A} a.
Arguments Throw {A} e.

(** An [async] function: it runs on the file system, leaves it changed, and
    resolves or rejects.  What it did before rejecting stays done. *)
Definition Promise (A : Type) : Type := gmap string node → result A * gmap string node.

Definition resolve {A} (a : A) : Promise A := λ σ, (Ok a, σ).
Definition throw {A} (e : error) : Promise A := λ σ, (Throw e, σ).
Definition await {A B} (p : Promise A) (k : A → Promise B) : Promise B :=
  λ σ, match p σ with
       | (Ok a, σ') => k a σ'
       | (Throw e, σ') => (Throw e, σ')
       end.
Definition try_catch {A} (body : Promise A) (handler : error → Promise A) : Promise A :=
  λ σ, match body σ with
       | (Ok a, σ') => (Ok a, σ')
       | (Throw e, σ') => handler e σ'
       end.

#[global] Instance Promise_ret : MRet Promise := @resolve.
#[global] Instance Promise_bind : MBind Promise := λ A B k p, await p k.

(** [fs.access]: the path names something. *)
Definition access (path : string) : Promise unit :=
  λ σ, match σ !! path with
       | Some _ => (Ok (), σ)
       | None => (Throw (ENOENT path), σ)
       end.

Definition readFile (path : string) : Promise string :=
  λ σ, match σ !! path with
       | Some (File content) => (Ok content, σ)
       | Some Dir => (Throw (EISDIR path), σ)
       | None => (Throw (ENOENT path), σ)
       end.

Definition writeFile (path content : string) : Promise unit :=
  λ σ, match σ !! path with
       | Some Dir => (Throw (EISDIR path), σ)
       | _ => (Ok (), <[path := File content]> σ)
       end.

Definition copyFile (src dest : string) : Promise unit :=
  λ σ, match σ !! src with
       | Some (File content) =>
           match σ !! dest with
           | Some Dir => (Throw (EISDIR dest), σ)
           | _ => (Ok (), <[dest := File content]> σ)
           end
       | Some Dir => (Throw (EISDIR src), σ)
       | None => (Throw (ENOENT src), σ)
       end.

(** [fs.rename] of a regular file: it replaces a file at the new path.
    The code only renames the temporary file it has just written. *)
Definition rename (oldPath newPath : string) : Promise unit :=
  λ σ, match σ !! oldPath with
       | Some (File content) =>
           match σ !! newPath with
           | Some Dir => (Throw (EISDIR newPath), σ)
           | _ => (Ok (), <[newPath := File content]> (delete oldPath σ))
           end
       | Some Dir => (Throw (ENOTSUP oldPath), σ)
       | None => (Throw (ENOENT oldPath), σ)
       end.

(** [path.join], without its normalisation of the result. *)
Definition path_join (parts : list string) : string :=
  match parts with
  | [] => "."
  | p :: ps => foldl (λ acc q, acc +:+ "/" +:+ q) p ps
  end.

End Fs.
Export Fs.

(** ** JavaScript numbers *)

Module Number.

(** Up to [2^53] in absolute value every integer is a double. *)
Definition LIMIT : Z := 9007199254740992.

(** The double nearest to an integer, a tie going to the even significand.
    Beyond [LIMIT] a double has 53 significant bits: it is a multiple of the
    power of two [ulp].  (The largest double is not modelled: adding one
    to a double never passes it.) *)
Definition round (n : Z) : Z :=
  let a := Z.abs n in
  if (a <=? LIMIT)%Z then n
  else
    let ulp := (2 ^ (Z.log2 a - 52))%Z in
    let q := (a / ulp)%Z in
    let r := (a mod ulp)%Z in
    let q' :=
      if (2 * r <? ulp)%Z then q
      else if (ulp <? 2 * r)%Z then (q + 1)%Z
      else if Z.even q then q else (q + 1)%Z in
    (Z.sgn n * (q' * ulp))%Z.

(** [a + b] on two integers that are doubles: the exact sum, rounded. *)
Definition add (a b : Z) : Z := round (a + b).

End Number.

(** ** [logger] (logger.ts) *)

Module Logger.

(** A template literal converts each value it holds to a string before the
    line reaches [logger.info].  The conversion of an object calls its
    [toString]: an own property of that name, which in a document is never a
    function, hides the inherited method, and the conversion throws a
    [TypeError].  An array converts its elements in turn. *)
Fixpoint stringable (v : json) : bool :=
  match v with
  | JArr items => forallb stringable items
  | JObj members => negb (existsb (λ kv, String.eqb (fst kv) "toString") members)
  | _ => true
  end.

(** [logger.info(`... ${v1} ... ${v2}`)], with [None] for [undefined].  The
    line goes to stderr, which is not part of the model. *)
Definition info (values : list (option json)) : Promise unit :=
  if forallb (λ v, from_option stringable true v) values
  then resolve ()
  else throw TypeError.

End Logger.

(** ** [FileHandler] (file-handler.ts) *)

Module FileHandler.

(** Read a JSON file without validation. *)
Definition readJsonRaw (filePath : string) : Promise json :=
  raw ← readFile filePath;
  match JSON_parse raw with
  | Some v => resolve v
  | None => throw SyntaxError
  end.

(** Atomic write: write to .tmp file, then rename to target.
    Creates .bak backup of existing file before overwriting. *)
Definition writeJson (filePath : string) (data : json) : Promise unit :=
  let tmpPath := filePath +:+ ".tmp" in
  let bakPath := filePath +:+ ".bak" in
  (* Create backup if original exists *)
  try_catch
    (access filePath ;; copyFile filePath bakPath)
    (λ _, (* File doesn't exist yet, no backup needed *) resolve ()) ;;
  (* Atomic write: write to tmp, then rename *)
  let json := JSON_stringify data +:+ String LF EmptyString in
  writeFile tmpPath json ;;
  rename tmpPath filePath.

(** Check if a file exists. *)
Definition exists_ (filePath : string) : Promise bool :=
  try_catch (access filePath ;; resolve true) (λ _, resolve false).

End FileHandler.

(** ** [VersionSync] (version-sync.ts) *)

Module VersionSync.
Import FileHandler.

Record VersionSync : Type := { systemPath : string }.

Definition new (projectPath : string) : VersionSync :=
  {| systemPath := path_join [projectPath; "data"; "System.json"] |}.

(** [system.versionId]: reading a property of [null] throws; a value that
    is not an object has no such property. *)
Definition get_versionId (system : json) : Promise (option json) :=
  match system with
  | JNull => throw TypeError
  | JObj o => resolve (obj_get "versionId" o)
  | _ => resolve None
  end.

(** [system.versionId = next]: in strict code the assignment throws on a
    primitive value; on an array it adds a property that [JSON.stringify]
    does not write. *)
Definition set_versionId (system : json) (next : Z) : Promise json :=
  match system with
  | JObj o => resolve (JObj (obj_set "versionId" (JNum next) o))
  | JArr items => resolve (JArr items)
  | _ => throw TypeError
  end.

(** [typeof v === 'number' ? v : 0] *)
Definition number_or_zero (v : option json) : Z :=
  match v with
  | Some (JNum n) => n
  | _ => 0
  end.

(** Increment versionId in System.json. *)
Definition bump (self : VersionSync) : Promise Z :=
  system ← readJsonRaw (systemPath self);
  versionId ← get_versionId system;
  let current := number_or_zero versionId in
  let next := Number.add current 1 in
  system ← set_versionId system next;
  writeJson (systemPath self) system ;;
  resolve next.

(** Get current versionId without modifying. *)
Definition current (self : VersionSync) : Promise Z :=
  system ← readJsonRaw (systemPath self);
  versionId ← get_versionId system;
  resolve (number_or_zero versionId).

End VersionSync.
Export VersionSync(VersionSync, systemPath).

(** ** [DatabaseManager] (database-manager.ts) *)

Module DatabaseManager.
Import FileHandler.

(** The record type [T] is an object with its properties; [id] is an
    integer, as the tools check before they call. *)
Record DatabaseManager : Type := {
  filePath : string;
  versionSync : VersionSync;
  defaultFactory : Z → obj;
}.

Definition new (projectPath filename : string) (defaultFactory : Z → obj)
    (versionSync : VersionSync) : DatabaseManager :=
  {| filePath := path_join [projectPath; "data"; filename];
     versionSync := versionSync;
     defaultFactory := defaultFactory |}.

(** Read the raw database array.  The assertion [as (T | null)[]] is
    modelled as a check: a document that is not an array is rejected. *)
Definition readArray (self : DatabaseManager) : Promise (list json) :=
  doc ← readJsonRaw (filePath self);
  match doc with
  | JArr items => resolve items
  | _ => throw TypeError
  end.

(** Write the database array and bump versionId. *)
Definition writeArray (self : DatabaseManager) (data : list json) : Promise unit :=
  writeJson (filePath self) (JArr data) ;;
  VersionSync.bump (versionSync self) ;;
  resolve ().

Definition is_null (v : json) : bool :=
  match v with JNull => true | _ => false end.

(** [arr[id]], [None] for [undefined]. *)
Definition index (arr : list json) (id : Z) : option json :=
  if (id <? 0)%Z then None else arr !! Z.to_nat id.

(** [id < 1 || id >= arr.length || arr[id] === null] *)
Definition missing (arr : list json) (id : Z) : bool :=
  (id <? 1)%Z || (Z.of_nat (length arr) <=? id)%Z
  || match index arr id with Some JNull => true | _ => false end.

(** [`${n}`] for an integer below [10^21] in absolute value: its digits.
    (From there on JavaScript writes an exponent.) *)
Definition decimal (n : Z) : string := string_of_list_ascii (print_Z n).

Definition not_found (id : Z) : error :=
  Error ("Entity with ID " +:+ decimal id +:+ " not found").

(** The own enumerable properties that a spread copies. *)
Definition own_props (v : json) : obj :=
  match v with
  | JObj o => o
  | JArr items => imap (λ i x, (decimal (Z.of_nat i), x)) items
  | JStr s =>
      imap (λ i c, (decimal (Z.of_nat i), JStr (String c EmptyString)))
        (list_ascii_of_string s)
  | _ => []
  end.

(** [{ ...base, ...data, id }] *)
Definition spread (base data : obj) (id : Z) : obj :=
  obj_set "id" (JNum id) (obj_assign (obj_assign [] base) data).

(** List all non-null entities. *)
Definition list (self : DatabaseManager) : Promise (list json) :=
  arr ← readArray self;
  resolve (filter (λ e, is_null e = false) arr).

(** Get entity by ID. *)
Definition get (self : DatabaseManager) (id : Z) : Promise json :=
  arr ← readArray self;
  if missing arr id then throw (not_found id)
  else resolve (default JNull (index arr id)).

(** Create a new entity. Returns the assigned ID and entity. *)
Definition create (self : DatabaseManager) (data : obj) : Promise (Z * obj) :=
  arr ← readArray self;
  let id := Z.of_nat (length arr) in (* Next available index *)
  let entity := spread (defaultFactory self id) data id in
  let arr := arr ++ [JObj entity] in
  writeArray self arr ;;
  Logger.info [Some (JNum id); obj_get "name" entity] ;;
  resolve (id, entity).

(** Update an existing entity with partial data. *)
Definition update (self : DatabaseManager) (id : Z) (data : obj) : Promise obj :=
  arr ← readArray self;
  if missing arr id then throw (not_found id)
  else
    let existing := default JNull (index arr id) in
    let updated := spread (own_props existing) data id in (* Preserve ID *)
    let arr := <[Z.to_nat id := JObj updated]> arr in
    writeArray self arr ;;
    Logger.info [Some (JNum id); obj_get "name" updated] ;;
    resolve updated.

(** Delete an entity by setting its slot to null.
    Protects system entities (ID 1 for certain types). *)
Definition delete (self : DatabaseManager) (id : Z) (protectFirst : bool) : Promise unit :=
  if protectFirst && (id =? 1)%Z
  then throw (Error "Cannot delete system default entity (ID 1)")
  else
    arr ← readArray self;
    if missing arr id then throw (not_found id)
    else
      let name := obj_get "name" (own_props (default JNull (index arr id))) in
      let arr := <[Z.to_nat id := JNull]> arr in
      writeArray self arr ;;
      Logger.info [Some (JNum id); name].

(** [String.prototype.toLowerCase] on text of seven-bit characters: [A]..[Z]
    go to [a]..[z].  (JavaScript also lowers the letters beyond; the
    properties of [search] are stated for seven-bit text.) *)
Definition toLowerCase (s : string) : string :=
  string_of_list_ascii
    (map (λ c, let n := N_of_ascii c in
               if (65 <=? n)%N && (n <=? 90)%N then ascii_of_N (n + 32) else c)
       (list_ascii_of_string s)).

(** [String.prototype.includes] *)
Fixpoint includes (s sub : string) : bool :=
  String.prefix sub s
  || match s with
     | String _ s' => includes s' sub
     | EmptyString => false
     end.

(** Search entities by keyword across specified fields. *)
Definition search (self : DatabaseManager) (query : string)
    (fields : Datatypes.list string) : Promise (Datatypes.list json) :=
  entities ← list self;
  let lowerQuery := toLowerCase query in
  resolve
    (filter
       (λ entity,
          existsb
            (λ field,
               match obj_get field (own_props entity) with
               | Some (JStr value) => includes (toLowerCase value) lowerQuery
               | _ => false
               end)
            fields = true)
       entities).

End DatabaseManager.
Export DatabaseManager(DatabaseManager, filePath, versionSync, defaultFactory).

(** ** [ProjectManager.validate] (project-manager.ts) *)

Module ProjectManager.
Import FileHandler.

(** Required data files for a valid RPG Maker MZ project. *)
Definition REQUIRED_DATA_FILES : list string :=
  [ "Actors.json"; "Classes.json"; "CommonEvents.json"; "Enemies.json";
    "Items.json"; "MapInfos.json"; "Skills.json"; "States.json";
    "System.json"; "Tilesets.json"; "Troops.json"; "Weapons.json";
    "Armors.json"; "Animations.json" ].

(** Accepted project file names. *)
Definition PROJECT_FILES : list string := ["game.rmmzproject"; "Game.rmmzproject"].

Record ProjectManager : Type := { projectPath : string }.

Definition dataPath (self : ProjectManager) : string :=
  path_join [projectPath self; "data"].

Record Validation : Type := { valid : bool; errors : list string }.

(** The loop over [PROJECT_FILES], which stops at the first one found. *)
Fixpoint find_project_file (self : ProjectManager) (names : list string) : Promise bool :=
  match names with
  | [] => resolve false
  | name :: names' =>
      exists_ (path_join [projectPath self; name]) ≫= λ found : bool,
      if found then resolve true else find_project_file self names'
  end.

(** The loop over [REQUIRED_DATA_FILES], which pushes one error per
    missing file. *)
Fixpoint check_data_files (dataDir : string) (files errors : list string)
    : Promise (list string) :=
  match files with
  | [] => resolve errors
  | file :: files' =>
      exists_ (path_join [dataDir; file]) ≫= λ found : bool,
      check_data_files dataDir files'
        (if found then errors else errors ++ ["Missing data file: " +:+ file])
  end.

(** Validate that the directory is a valid RPG Maker MZ project. *)
Definition validate (self : ProjectManager) : Promise Validation :=
  let errors : list string := [] in
  (* Check project file (.rmmzproject), accept both casings *)
  find_project_file self PROJECT_FILES ≫= λ foundProjectFile : bool,
  let errors :=
    if foundProjectFile then errors
    else errors ++ ["Missing project file: game.rmmzproject"] in
  (* Check data directory *)
  let dataDir := dataPath self in
  exists_ dataDir ≫= λ dataFound : bool,
  if negb dataFound then
    resolve {| valid := false; errors := errors ++ ["Missing data/ directory"] |}
  else
    (* Check required data files *)
    errors ← check_data_files dataDir REQUIRED_DATA_FILES errors;
    resolve {| valid := bool_decide (length errors = 0); errors := errors |}.

End ProjectManager.

(** ** Words for the properties *)

Module Vocabulary.
Import FileHandler VersionSync ProjectManager.

(** The file system after the backup block of [writeJson]: the copy is
    made when a file is there and no directory stands at the backup path,
    and in every other case the block leaves the disk as it was. *)
Definition after_backup (filePath : string) (σ : gmap string node) : gmap string node :=
  match σ !! filePath, σ !! (filePath +:+ ".bak") with
  | Some (File content), (None | Some (File _)) =>
      <[filePath +:+ ".bak" := File content]> σ
  | _, _ => σ
  end.

(** The counter that a ledger object holds. *)
Definition counter (o : obj) : Z := number_or_zero (obj_get "versionId" o).

(** The ledger document is the JSON object [o]. *)
Definition ledger_is (self : VersionSync) (σ : gmap string node) (o : obj) : Prop :=
  readJsonRaw (systemPath self) σ = (Ok (JObj o), σ).

(** A mutating operation of the manager and what it returns. *)
Inductive op : Type :=
  | Create (data : obj)
  | Update (id : Z) (data : obj)
  | Delete (id : Z) (protectFirst : bool).

Inductive outcome : Type :=
  | Created (id : Z) (entity : obj)
  | Updated (entity : obj)
  | Deleted.

Definition run_op (self : DatabaseManager) (o : op) : Promise outcome :=
  match o with
  | Create data =>
      '(id, entity) ← DatabaseManager.create self data; resolve (Created id entity)
  | Update id data =>
      entity ← DatabaseManager.update self id data; resolve (Updated entity)
  | Delete id protectFirst =>
      DatabaseManager.delete self id protectFirst ;; resolve Deleted
  end.

(** The operations one after the other, up to the first that rejects. *)
Fixpoint run_ops (self : DatabaseManager) (ops : list op) : Promise (list outcome) :=
  match ops with
  | [] => resolve []
  | o :: ops' =>
      out ← run_op self o; outs ← run_ops self ops'; resolve (out :: outs)
  end.

(** The ids that the [Create] calls of a run returned, in call order. *)
Definition created_ids (outs : list outcome) : list Z :=
  omap (λ out, match out with Created id _ => Some id | _ => None end) outs.

(** Every property value is a JavaScript value. *)
Definition js_props (o : obj) : Prop := Forall (λ kv, wf_json kv.2 = true) o.

(** The partial records of an operation, and the defaults it is laid over,
    hold JavaScript values. *)
Definition js_op (self : DatabaseManager) (o : op) : Prop :=
  match o with
  | Create data => js_props data ∧ ∀ id, js_props (defaultFactory self id)
  | Update _ data => js_props data
  | Delete _ _ => True
  end.

(** The array document and the ledger document are different files, and
    neither is the backup or the temporary file of the other. *)
Definition separate (self : DatabaseManager) : Prop :=
  let fp := filePath self in
  let sp := systemPath (versionSync self) in
  fp ≠ sp ∧ fp ≠ sp +:+ ".tmp" ∧ fp ≠ sp +:+ ".bak"
  ∧ sp ≠ fp +:+ ".tmp" ∧ sp ≠ fp +:+ ".bak".

(** The array document holds the slots [arr]. *)
Definition array_is (self : DatabaseManager) (σ : gmap string node)
    (arr : list json) : Prop :=
  DatabaseManager.readArray self σ = (Ok arr, σ).

(** A mutating operation that resolves has read the array, decided what
    to write from it, and written that. *)
Definition writes (self : DatabaseManager) (arr : list json)
    (o : op) (out : outcome) (data' : list json) : Prop :=
  match o, out with
  | Create data, Created id entity =>
      id = Z.of_nat (length arr)
      ∧ entity = DatabaseManager.spread (defaultFactory self id) data id
      ∧ data' = arr ++ [JObj entity]
  | Update id data, Updated entity =>
      DatabaseManager.missing arr id = false
      ∧ entity
        = DatabaseManager.spread
            (DatabaseManager.own_props (default JNull (DatabaseManager.index arr id)))
            data id
      ∧ data' = <[Z.to_nat id := JObj entity]> arr
  | Delete id protectFirst, Deleted =>
      protectFirst && (id =? 1)%Z = false
      ∧ DatabaseManager.missing arr id = false
      ∧ data' = <[Z.to_nat id := JNull]> arr
  | _, _ => False
  end.

(** The file names of [ENTITY_TYPES] (schemas/database.ts), for which the
    tools build their managers. *)
Definition ENTITY_FILENAMES : list string :=
  [ "Actors.json"; "Classes.json"; "Skills.json"; "Items.json";
    "Weapons.json"; "Armors.json"; "Enemies.json"; "States.json" ].

(** The name of a record converts to a string for the log line: so it
    does when it is a string, as the record type declares, and also when it
    is missing, [null], a boolean or a number. *)
Definition loggable (entity : obj) : Prop :=
  from_option Logger.stringable true (obj_get "name" entity) = true.

(** One of the accepted project files is there. *)
Definition marker_present (self : ProjectManager) (σ : gmap string node) : bool :=
  existsb (λ name, bool_decide (is_Some (σ !! path_join [projectPath self; name])))
    PROJECT_FILES.

End Vocabulary.
Export Vocabulary.

(** ** A small project to run the operations on *)

Definition demo_sync : VersionSync := VersionSync.new "/game".

Definition demo_factory (id : Z) : obj :=
  [("id", JNum id); ("name", JStr EmptyString); ("value", JNum 0)].

Definition demo_manager : DatabaseManager :=
  DatabaseManager.new "/game" "Actors.json" demo_factory demo_sync.

(** A disk that holds the given documents, as [writeJson] leaves them. *)
Definition disk (docs : list (string * json)) : gmap string node :=
  list_to_map (map (λ d, (d.1, File (document_text d.2))) docs).

Definition demo_ledger : obj := [("versionId", JNum 0); ("gameTitle", JStr "Demo")].

(** The array seeded with the sentinel only. *)
Definition fresh_disk : gmap string node :=
  disk [(filePath demo_manager, JArr [JNull]); (systemPath demo_sync, JObj demo_ledger)].

Definition first_record : obj :=
  [("id", JNum 1); ("name", JStr "First"); ("value", JNum 10)].

(** The array seeded as [[null, {id:1, name:"First", value:10}]]. *)
Definition seeded_disk : gmap string node :=
  disk [(filePath demo_manager, JArr [JNull; JObj first_record]);
        (systemPath demo_sync, JObj demo_ledger)].

Definition demo_run : list op :=
  [Create [("name", JStr "A")]; Delete 1 false; Create [("name", JStr "B")]].

(** ** Path names and string tests *)

Module Path.

Definition sep : ascii := "/"%char.

(** [String.prototype.startsWith] *)
Definition startsWith (s searchString : string) : bool := String.prefix searchString s.

(** [String.prototype.endsWith] *)
Definition endsWith (s searchString : string) : bool :=
  bool_decide (chars searchString `suffix_of` chars s).

(** [String.prototype.padStart] with a filler of one character. *)
Definition padStart (s : string) (targetLength : nat) (filler : ascii) : string :=
  string_of_list_ascii (replicate (targetLength - String.length s) filler) +:+ s.

Fixpoint drop_seps (cs : list ascii) : list ascii :=
  match cs with
  | c :: cs' => if Ascii.eqb c sep then drop_seps cs' else cs
  | [] => []
  end.

Fixpoint take_name (cs : list ascii) : list ascii :=
  match cs with
  | c :: cs' => if Ascii.eqb c sep then [] else c :: take_name cs'
  | [] => []
  end.

(** [path.basename] (POSIX): from the end, the separators are skipped, and
    the name runs back to the separator before it. *)
Definition basename (p : string) : string :=
  string_of_list_ascii (rev (take_name (drop_seps (rev (chars p))))).

(** What is left of [s] after [prefix]. *)
Fixpoint strip_prefix (prefix s : string) : option string :=
  match prefix, s with
  | EmptyString, _ => Some s
  | String a prefix', String b s' =>
      if Ascii.eqb a b then strip_prefix prefix' s' else None
  | String _ _, EmptyString => None
  end.

(** A file name: not empty, no separator in it. *)
Definition is_name (s : string) : bool :=
  negb (String.eqb s EmptyString)
  && forallb (λ c, negb (Ascii.eqb c sep)) (chars s).

End Path.

(** ** UTF-16 *)

Module Utf16.

(** JavaScript compares strings by their UTF-16 code units.  A string of
    the model is UTF-8 text; [units] gives the code units of that text. *)

(** The six bits that a continuation byte carries. *)
Definition cont (b : N) : N := N.land b 63.

(** The code points of UTF-8 text.  A byte that starts no character, or a
    character that is cut short, is read as U+FFFD. *)
Fixpoint decode (bytes : list N) : list N :=
  match bytes with
  | [] => []
  | b :: rest =>
      if (b <? 128)%N then b :: decode rest
      else if (b <? 192)%N then 65533%N :: decode rest
      else if (b <? 224)%N then
        match rest with
        | b1 :: rest' => (N.land b 31 * 64 + cont b1)%N :: decode rest'
        | _ => [65533%N]
        end
      else if (b <? 240)%N then
        match rest with
        | b1 :: b2 :: rest' =>
            ((N.land b 15 * 64 + cont b1) * 64 + cont b2)%N :: decode rest'
        | _ => [65533%N]
        end
      else
        match rest with
        | b1 :: b2 :: b3 :: rest' =>
            (((N.land b 7 * 64 + cont b1) * 64 + cont b2) * 64 + cont b3)%N
            :: decode rest'
        | _ => [65533%N]
        end
  end.

(** A code point of the basic plane is its own code unit; any other is a
    pair of surrogates. *)
Definition units_of (codePoint : N) : list N :=
  if (codePoint <? 65536)%N then [codePoint]
  else
    let v := (codePoint - 65536)%N in
    [(55296 + v / 1024)%N; (56320 + v mod 1024)%N].

Definition units (s : string) : list N :=
  flat_map units_of (decode (map N_of_ascii (list_ascii_of_string s))).

(** [a <= b] on sequences of code units: the first difference decides, and
    a prefix comes first. *)
Fixpoint leb (a b : list N) : bool :=
  match a, b with
  | [], _ => true
  | _ :: _, [] => false
  | x :: a', y :: b' => (x <? y)%N || ((x =? y)%N && leb a' b')
  end.

End Utf16.

(** ** Directories *)

Module FsDir.
Import Path.

(** A directory entry, [fs.Dirent]. *)
Record Dirent : Type := { name : string; node_of : node }.

Definition isFile (e : Dirent) : bool :=
  match node_of e with File _ => true | Dir => false end.

Definition isDirectory (e : Dirent) : bool :=
  match node_of e with Dir => true | File _ => false end.

(** The name under which the path [p] stands directly inside [dir]. *)
Definition child (dir p : string) : option string :=
  match strip_prefix (dir +:+ "/") p with
  | Some name => if is_name name then Some name else None
  | None => None
  end.

(** [fs.readdir(path, { withFileTypes: true })]: the entries directly
    inside a directory, in no particular order. *)
Definition readdir (path : string) : Promise (list Dirent) :=
  λ σ, match σ !! path with
       | Some Dir =>
           (Ok (omap (λ pn : string * node,
                        match child path pn.1 with
                        | Some name => Some {| name := name; node_of := pn.2 |}
                        | None => None
                        end)
                  (map_to_list σ)), σ)
       | Some (File _) =>
           (Throw (Error ("ENOTDIR: not a directory, scandir '" +:+ path +:+ "'")), σ)
       | None => (Throw (ENOENT path), σ)
       end.

(** The order of [Array.prototype.sort] without a comparator, on strings:
    code unit by code unit. *)
Definition str_le (a b : string) : Prop :=
  Utf16.leb (Utf16.units a) (Utf16.units b) = true.

#[global] Instance str_le_dec : RelDecision str_le :=
  λ a b, decide (Utf16.leb (Utf16.units a) (Utf16.units b) = true).

Definition sort (names : list string) : list string := merge_sort str_le names.

End FsDir.

(** ** [FileHandler], the functions that read with a schema and that list *)

Module FileHandlerMore.
Import Path FsDir.

(** A Zod schema, as far as [safeParse] shows it: the data on success, the
    message of the error otherwise. *)
Record ZodSchema (T : Type) : Type := { safeParse : json → T + string }.
Arguments safeParse {T} _ _.

(** Read and parse a JSON file with Zod validation. *)
Definition readJson {T} (filePath : string) (schema : ZodSchema T) : Promise T :=
  raw ← readFile filePath;
  match JSON_parse raw with
  | None => throw SyntaxError
  | Some parsed =>
      match safeParse schema parsed with
      | inl data => resolve data
      | inr message =>
          throw (Error ("Validation failed for " +:+ basename filePath +:+ ": "
                        +:+ message))
      end
  end.

(** [if (ext)]: an extension that is given and not empty. *)
Definition truthy (s : option string) : option string :=
  match s with
  | Some EmptyString | None => None
  | Some s => Some s
  end.

(** List files in a directory matching an optional pattern. *)
Definition listFiles (dirPath : string) (ext : option string) : Promise (list string) :=
  try_catch
    (entries ← readdir dirPath;
     let files := map name (filter (λ e, isFile e = true) entries) in
     let files :=
       match truthy ext with
       | Some ext => filter (λ f, endsWith f ext = true) files
       | None => files
       end in
     resolve (sort files))
    (λ _, resolve []).

(** List subdirectories. *)
Definition listDirs (dirPath : string) : Promise (list string) :=
  try_catch
    (entries ← readdir dirPath;
     resolve (sort (map name (filter (λ e, isDirectory e = true) entries))))
    (λ _, resolve []).

End FileHandlerMore.

(** ** [ProjectManager], the functions beside [validate] *)

Module ProjectManagerMore.
Import Path FileHandler FileHandlerMore ProjectManager.

(** The constructor builds the ledger of the project path, and nothing
    assigns the field afterwards. *)
Definition getVersionSync (self : ProjectManager) : VersionSync :=
  VersionSync.new (projectPath self).

Record ProjectInfo : Type := {
  name : string;
  path : string;
  dataFiles : list string;
  mapCount : nat;
  actorCount : nat;
  itemCount : nat;
  versionId : Z;
}.

(** Count non-null entities in a database file.  On a document that is not
    an array, [data.filter] is not a function and the call throws. *)
Definition countEntities (self : ProjectManager) (filename : string) : Promise nat :=
  try_catch
    (let filePath := path_join [dataPath self; filename] in
     data ← readJsonRaw filePath;
     match data with
     | JArr items => resolve (length (filter (λ e, DatabaseManager.is_null e = false) items))
     | _ => throw TypeError
     end)
    (λ _, resolve 0).

Definition is_digit (c : ascii) : bool :=
  (48 <=? N_of_ascii c)%N && (N_of_ascii c <=? 57)%N.

(** [/^Map\d{3}\.json$/.test(f)] *)
Definition is_map_file (f : string) : bool :=
  match strip_prefix "Map" f with
  | Some (String a (String b (String c rest))) =>
      is_digit a && is_digit b && is_digit c && String.eqb rest ".json"
  | _ => false
  end.

(** Load and return project info/stats. *)
Definition getInfo (self : ProjectManager) : Promise ProjectInfo :=
  dataFiles ← listFiles (dataPath self) (Some ".json");
  (* Count maps (Map001.json, Map002.json, etc.) *)
  let mapFiles := filter (λ f, is_map_file f = true) dataFiles in
  (* Count entities from database files *)
  actorCount ← countEntities self "Actors.json";
  itemCount ← countEntities self "Items.json";
  versionId ← VersionSync.current (getVersionSync self);
  resolve {| name := basename (projectPath self);
             path := projectPath self;
             dataFiles := dataFiles;
             mapCount := length mapFiles;
             actorCount := actorCount;
             itemCount := itemCount;
             versionId := versionId |}.

Definition RESOURCE_DIRS : list string :=
  [ "img/characters"; "img/faces"; "img/parallaxes"; "img/pictures";
    "img/sv_actors"; "img/sv_enemies"; "img/enemies"; "img/tilesets";
    "img/titles1"; "img/titles2"; "img/battlebacks1"; "img/battlebacks2";
    "img/animations"; "img/system";
    "audio/bgm"; "audio/bgs"; "audio/me"; "audio/se" ].

(** [result[dir] = files] on a [Record<string, string[]>]. *)
Fixpoint record_set (k : string) (v : list string) (r : list (string * list string))
    : list (string * list string) :=
  match r with
  | [] => [(k, v)]
  | (k', v') :: r' =>
      if String.eqb k k' then (k, v) :: r' else (k', v') :: record_set k v r'
  end.

(** The loop over the resource directories. *)
Fixpoint collect_resources (self : ProjectManager) (type : option string)
    (dirs : list string) (result : list (string * list string))
    : Promise (list (string * list string)) :=
  match dirs with
  | [] => resolve result
  | dir :: dirs' =>
      match truthy type with
      | Some type' =>
          if negb (startsWith dir type') then collect_resources self type dirs' result
          else
            files ← listFiles (path_join [projectPath self; dir]) None;
            collect_resources self type dirs'
              (if (0 <? length files)%nat then record_set dir files result else result)
      | None =>
          files ← listFiles (path_join [projectPath self; dir]) None;
          collect_resources self type dirs'
            (if (0 <? length files)%nat then record_set dir files result else result)
      end
  end.

(** List resource files (images, audio, etc.) *)
Definition listResources (self : ProjectManager) (type : option string)
    : Promise (list (string * list string)) :=
  collect_resources self type RESOURCE_DIRS [].

(** Load project from path.  Validates structure; what the validation finds
    goes to the log. *)
Definition load (projectPath : string) : Promise ProjectManager :=
  let manager := {| projectPath := projectPath |} in
  validate manager ≫= λ validation : Validation,
  resolve manager.

End ProjectManagerMore.

(** ** The default records (templates/defaults.ts) *)

Module Defaults.

Definition nums (ns : list Z) : json := JArr (map JNum ns).

(** [Array.from({ length: 100 }, (_, i) => base + i * step)] *)
Definition curve (base step : Z) : json :=
  JArr (map (λ i, JNum (base + Z.of_nat i * step)) (seq 0 100)).

Definition defaultDamage : json :=
  JObj [("critical", JBool false); ("elementId", JNum (-1)); ("formula", JStr "0");
        ("type", JNum 0); ("variance", JNum 20)].

Definition defaultActor (id : Z) : obj :=
  [ ("id", JNum id);
    ("battlerName", JStr EmptyString);
    ("characterIndex", JNum 0);
    ("characterName", JStr EmptyString);
    ("classId", JNum 1);
    ("equips", nums [0; 0; 0; 0; 0]%Z);
    ("faceIndex", JNum 0);
    ("faceName", JStr EmptyString);
    ("traits", JArr []);
    ("initialLevel", JNum 1);
    ("maxLevel", JNum 99);
    ("name", JStr EmptyString);
    ("nickname", JStr EmptyString);
    ("note", JStr EmptyString);
    ("profile", JStr EmptyString) ].

Definition defaultClass (id : Z) : obj :=
  [ ("id", JNum id);
    ("expParams", nums [30; 20; 30; 30]%Z);
    ("traits", JArr []);
    ("learnings", JArr []);
    ("name", JStr EmptyString);
    ("note", JStr EmptyString);
    ("params",
     JArr [ curve 400 10; curve 80 5; curve 15 2; curve 15 2;
            curve 15 2; curve 15 2; curve 15 2; curve 15 2 ]) ].

Definition defaultSkill (id : Z) : obj :=
  [ ("id", JNum id);
    ("animationId", JNum (-1));
    ("damage", defaultDamage);
    ("description", JStr EmptyString);
    ("effects", JArr []);
    ("hitType", JNum 0);
    ("iconIndex", JNum 0);
    ("message1", JStr EmptyString);
    ("message2", JStr EmptyString);
    ("mpCost", JNum 0);
    ("name", JStr EmptyString);
    ("note", JStr EmptyString);
    ("occasion", JNum 1);
    ("repeats", JNum 1);
    ("requiredWtypeId1", JNum 0);
    ("requiredWtypeId2", JNum 0);
    ("scope", JNum 0);
    ("speed", JNum 0);
    ("stypeId", JNum 1);
    ("successRate", JNum 100);
    ("tpCost", JNum 0);
    ("tpGain", JNum 0);
    ("messageType", JNum 1) ].

Definition defaultItem (id : Z) : obj :=
  [ ("id", JNum id);
    ("animationId", JNum (-1));
    ("consumable", JBool true);
    ("damage", defaultDamage);
    ("description", JStr EmptyString);
    ("effects", JArr []);
    ("hitType", JNum 0);
    ("iconIndex", JNum 0);
    ("itypeId", JNum 1);
    ("name", JStr EmptyString);
    ("note", JStr EmptyString);
    ("occasion", JNum 0);
    ("price", JNum 0);
    ("repeats", JNum 1);
    ("scope", JNum 0);
    ("speed", JNum 0);
    ("successRate", JNum 100);
    ("tpGain", JNum 0) ].

Definition defaultWeapon (id : Z) : obj :=
  [ ("id", JNum id);
    ("animationId", JNum (-1));
    ("description", JStr EmptyString);
    ("etypeId", JNum 1);
    ("traits", JArr []);
    ("iconIndex", JNum 0);
    ("name", JStr EmptyString);
    ("note", JStr EmptyString);
    ("params", nums [0; 0; 0; 0; 0; 0; 0; 0]%Z);
    ("price", JNum 0);
    ("wtypeId", JNum 1) ].

Definition defaultArmor (id : Z) : obj :=
  [ ("id", JNum id);
    ("atypeId", JNum 1);
    ("description", JStr EmptyString);
    ("etypeId", JNum 2);
    ("traits", JArr []);
    ("iconIndex", JNum 0);
    ("name", JStr EmptyString);
    ("note", JStr EmptyString);
    ("params", nums [0; 0; 0; 0; 0; 0; 0; 0]%Z);
    ("price", JNum 0) ].

Definition defaultDropItem : json :=
  JObj [("dataId", JNum 0); ("denominator", JNum 1); ("kind", JNum 0)].

Definition defaultEnemy (id : Z) : obj :=
  [ ("id", JNum id);
    ("actions",
     JArr [JObj [("conditionParam1", JNum 0); ("conditionParam2", JNum 0);
                 ("conditionType", JNum 0); ("rating", JNum 5); ("skillId", JNum 1)]]);
    ("battlerHue", JNum 0);
    ("battlerName", JStr EmptyString);
    ("dropItems", JArr [defaultDropItem; defaultDropItem; defaultDropItem]);
    ("exp", JNum 0);
    ("traits", JArr []);
    ("gold", JNum 0);
    ("name", JStr EmptyString);
    ("note", JStr EmptyString);
    ("params", nums [100; 0; 10; 10; 10; 10; 10; 10]%Z) ].

Definition defaultState (id : Z) : obj :=
  [ ("id", JNum id);
    ("autoRemovalTiming", JNum 0);
    ("chanceByDamage", JNum 100);
    ("iconIndex", JNum 0);
    ("maxTurns", JNum 1);
    ("message1", JStr EmptyString);
    ("message2", JStr EmptyString);
    ("message3", JStr EmptyString);
    ("message4", JStr EmptyString);
    ("minTurns", JNum 1);
    ("motion", JNum 0);
    ("name", JStr EmptyString);
    ("note", JStr EmptyString);
    ("overlay", JNum 0);
    ("priority", JNum 50);
    ("removeAtBattleEnd", JBool false);
    ("removeByDamage", JBool false);
    ("removeByRestriction", JBool false);
    ("removeByWalking", JBool false);
    ("restriction", JNum 0);
    ("stepsToRemove", JNum 100);
    ("traits", JArr []);
    ("releaseByDamage", JBool false);
    ("messageType", JNum 1) ].

End Defaults.

(** ** The managers of the tools (schemas/database.ts, tools/database-tools.ts) *)

Module DatabaseTools.
Import Path ProjectManager ProjectManagerMore.

(** The keys of [ENTITY_TYPES]. *)
Inductive EntityType : Type :=
  | actors | classes | skills | items | weapons | armors | enemies | states.

(** [ENTITY_TYPES[entityType].filename] *)
Definition filename (entityType : EntityType) : string :=
  match entityType with
  | actors => "Actors.json"
  | classes => "Classes.json"
  | skills => "Skills.json"
  | items => "Items.json"
  | weapons => "Weapons.json"
  | armors => "Armors.json"
  | enemies => "Enemies.json"
  | states => "States.json"
  end.

(** Default factory registry. *)
Definition DEFAULT_FACTORIES (entityType : EntityType) : Z → obj :=
  match entityType with
  | actors => Defaults.defaultActor
  | classes => Defaults.defaultClass
  | skills => Defaults.defaultSkill
  | items => Defaults.defaultItem
  | weapons => Defaults.defaultWeapon
  | armors => Defaults.defaultArmor
  | enemies => Defaults.defaultEnemy
  | states => Defaults.defaultState
  end.

(** [getManager], for the project that [requireProject] returns. *)
Definition getManager (project : ProjectManager) (entityType : EntityType)
    : DatabaseManager :=
  DatabaseManager.new (projectPath project) (filename entityType)
    (DEFAULT_FACTORIES entityType) (getVersionSync project).

(** [`Map${String(id).padStart(3, '0')}.json`] *)
Definition mapFilename (id : Z) : string :=
  "Map" +:+ padStart (DatabaseManager.decimal id) 3 "0" +:+ ".json".

End DatabaseTools.

(** ** The map files (tools/map-tools.ts, tools/event-tools.ts, templates/defaults.ts) *)

Module MapTools.

Definition readMapInfos (dataPath : string) : Promise json :=
  FileHandler.readJsonRaw (path_join [dataPath; "MapInfos.json"]).

Definition writeMapInfos (dataPath : string) (infos : list json) : Promise unit :=
  FileHandler.writeJson (path_join [dataPath; "MapInfos.json"]) (JArr infos).

Definition readMap (dataPath : string) (mapId : Z) : Promise json :=
  let mapPath := path_join [dataPath; DatabaseTools.mapFilename mapId] in
  FileHandler.readJsonRaw mapPath.

Definition writeMap (dataPath : string) (mapId : Z) (mapData : json) : Promise unit :=
  let mapPath := path_join [dataPath; DatabaseTools.mapFilename mapId] in
  FileHandler.writeJson mapPath mapData.

Definition defaultAudio : obj :=
  [("name", JStr EmptyString); ("pan", JNum 0); ("pitch", JNum 100); ("volume", JNum 90)].

(** The default map.  The sizes are counts of tiles, which the tool keeps
    between 1 and 256. *)
Definition defaultMap (width height : nat) (tilesetId : Z) : obj :=
  let size := width * height in
  (* 6 layers of tile data, all zeros *)
  let data := replicate (size * 6) (JNum 0) in
  [ ("autoplayBgm", JBool false);
    ("autoplayBgs", JBool false);
    ("battleback1Name", JStr EmptyString);
    ("battleback2Name", JStr EmptyString);
    ("bgm", JObj defaultAudio);
    ("bgs", JObj defaultAudio);
    ("disableDashing", JBool false);
    ("displayName", JStr EmptyString);
    ("encounterList", JArr []);
    ("encounterStep", JNum 30);
    ("height", JNum (Z.of_nat height));
    ("note", JStr EmptyString);
    ("parallaxLoopX", JBool false);
    ("parallaxLoopY", JBool false);
    ("parallaxName", JStr EmptyString);
    ("parallaxShow", JBool true);
    ("parallaxSx", JNum 0);
    ("parallaxSy", JNum 0);
    ("scrollType", JNum 0);
    ("specifyBattleback", JBool false);
    ("tilesetId", JNum tilesetId);
    ("width", JNum (Z.of_nat width));
    ("data", JArr data);
    ("events", JArr [JNull]) (* index 0 is always null *) ].

End MapTools.

(** ** Event commands (schemas/event.ts) *)

Module EventCommands.

(** A JavaScript value, or [undefined]. *)
Definition value : Type := option json.

Record EventCommand : Type := { code : Z; indent : Z; parameters : list value }.

(** What a call of [convertCommand] comes to.  [Unmodelled] marks the
    inputs on which the model does not follow the code: a [goods] that is
    a string or an object, or an array with a string in it. *)
Inductive conversion : Type :=
  | Converted (commands : list EventCommand)
  | Thrown (e : error)
  | Unmodelled.

(** Human-readable command types and their RPG Maker MZ command codes. *)
Definition COMMAND_CODES : list (string * Z) :=
  [ ("show_text", 101%Z); ("show_text_body", 401%Z); ("show_choices", 102%Z);
    ("when_choice", 402%Z); ("when_cancel", 403%Z); ("input_number", 103%Z);
    ("select_item", 104%Z); ("show_scrolling_text", 105%Z);
    ("show_scrolling_text_body", 405%Z); ("control_switches", 121%Z);
    ("control_variables", 122%Z); ("control_self_switch", 123%Z);
    ("control_timer", 124%Z); ("conditional_branch", 111%Z); ("else", 411%Z);
    ("loop", 112%Z); ("break_loop", 113%Z); ("exit_event", 115%Z);
    ("common_event", 117%Z); ("label", 118%Z); ("jump_to_label", 119%Z);
    ("comment", 108%Z); ("comment_body", 408%Z); ("change_gold", 125%Z);
    ("change_items", 126%Z); ("change_weapons", 127%Z); ("change_armors", 128%Z);
    ("change_party_member", 129%Z); ("change_hp", 311%Z); ("change_mp", 312%Z);
    ("change_tp", 326%Z); ("change_state", 313%Z); ("recover_all", 314%Z);
    ("change_exp", 315%Z); ("change_level", 316%Z); ("change_parameter", 317%Z);
    ("change_skill", 318%Z); ("change_equipment", 319%Z); ("change_name", 320%Z);
    ("change_class", 321%Z); ("change_nickname", 324%Z); ("change_profile", 325%Z);
    ("transfer_player", 201%Z); ("set_vehicle_location", 202%Z);
    ("set_event_location", 203%Z); ("scroll_map", 204%Z);
    ("set_movement_route", 205%Z); ("get_on_off_vehicle", 206%Z);
    ("change_transparency", 211%Z); ("show_animation", 212%Z);
    ("show_balloon_icon", 213%Z); ("erase_event", 214%Z);
    ("change_player_followers", 216%Z); ("gather_followers", 217%Z);
    ("fadeout_screen", 221%Z); ("fadein_screen", 222%Z); ("tint_screen", 223%Z);
    ("flash_screen", 224%Z); ("shake_screen", 225%Z); ("wait", 230%Z);
    ("show_picture", 231%Z); ("move_picture", 232%Z); ("rotate_picture", 233%Z);
    ("tint_picture", 234%Z); ("erase_picture", 235%Z); ("play_bgm", 241%Z);
    ("fadeout_bgm", 242%Z); ("save_bgm", 243%Z); ("resume_bgm", 244%Z);
    ("play_bgs", 245%Z); ("fadeout_bgs", 246%Z); ("play_me", 249%Z);
    ("play_se", 250%Z); ("stop_se", 251%Z); ("battle_processing", 301%Z);
    ("shop_processing", 302%Z); ("name_input_processing", 303%Z); ("open_menu", 351%Z);
    ("open_save", 352%Z); ("game_over", 353%Z); ("return_to_title", 354%Z);
    ("change_battle_bgm", 132%Z); ("change_victory_me", 133%Z);
    ("change_defeat_me", 139%Z); ("change_vehicle_bgm", 140%Z);
    ("change_tileset", 282%Z); ("change_battle_back", 283%Z);
    ("change_parallax", 284%Z); ("plugin_command", 356%Z); ("end", 0%Z) ].

(** [COMMAND_CODES[type]] *)
Fixpoint code_of (type : string) (codes : list (string * Z)) : option Z :=
  match codes with
  | [] => None
  | (k, c) :: codes' => if String.eqb type k then Some c else code_of type codes'
  end.

(** The values that count as false in a condition. *)
Definition falsy (v : json) : bool :=
  match v with
  | JNull | JBool false | JNum 0 | JStr EmptyString => true
  | _ => false
  end.

(** [v || d] *)
Definition or_ (v : value) (d : json) : json :=
  match v with
  | Some x => if falsy x then d else x
  | None => d
  end.

(** [v ?? d] *)
Definition nullish (v : value) (d : json) : json :=
  match v with
  | Some JNull | None => d
  | Some x => x
  end.

(** [text.split('\n')] *)
Fixpoint split_lines (text : string) : list string :=
  match text with
  | EmptyString => [EmptyString]
  | String c text' =>
      if Ascii.eqb c LF then EmptyString :: split_lines text'
      else match split_lines text' with
           | line :: lines => String c line :: lines
           | [] => [String c EmptyString]
           end
  end.

(** [lines.join('\n')] *)
Fixpoint join_lines (lines : list string) : string :=
  match lines with
  | [] => EmptyString
  | [line] => line
  | line :: lines' => line +:+ String LF (join_lines lines')
  end.

(** [String(v)], as a template literal applies it. *)
Fixpoint js_to_string (v : json) : string :=
  match v with
  | JNull => "null"
  | JBool true => "true"
  | JBool false => "false"
  | JNum n => DatabaseManager.decimal n
  | JStr s => s
  | JArr items =>
      (fix join (items : list json) : string :=
         match items with
         | [] => EmptyString
         | [x] => match x with JNull => EmptyString | _ => js_to_string x end
         | x :: items' =>
             match x with JNull => EmptyString | _ => js_to_string x end
             +:+ "," +:+ join items'
         end) items
  | JObj _ => "[object Object]"
  end.

Definition command (code : Z) (parameters : list json) : EventCommand :=
  {| code := code; indent := 0; parameters := map Some parameters |}.

Definition show_text (cmd : obj) : conversion :=
  let face := or_ (obj_get "face" cmd) (JStr EmptyString) in
  let faceIndex := or_ (obj_get "faceIndex" cmd) (JNum 0) in
  let background := or_ (obj_get "background" cmd) (JNum 0) in
  let positionType := or_ (obj_get "positionType" cmd) (JNum 2) in
  let text := or_ (obj_get "text" cmd) (JStr EmptyString) in
  match text with
  | JStr text =>
      let lines := split_lines text in
      Converted
        (command 101 [face; faceIndex; background; positionType]
         :: map (λ line, command 401 [JStr line]) lines)
  | _ => Thrown TypeError (* [text.split] is not a function *)
  end.

Definition show_choices (cmd : obj) : conversion :=
  let choices := or_ (obj_get "choices" cmd) (JArr []) in
  let cancelType := nullish (obj_get "cancelType" cmd) (JNum (-2)) in
  let defaultType := nullish (obj_get "defaultType" cmd) (JNum 0) in
  Converted [command 102 [choices; cancelType; defaultType; JNum 2; JNum 0]].

Definition transfer_player (cmd : obj) : conversion :=
  let mapId := or_ (obj_get "mapId" cmd) (JNum 1) in
  let x := or_ (obj_get "x" cmd) (JNum 0) in
  let y := or_ (obj_get "y" cmd) (JNum 0) in
  let direction := or_ (obj_get "direction" cmd) (JNum 0) in
  let fadeType := or_ (obj_get "fadeType" cmd) (JNum 0) in
  Converted [command 201 [JNum 0; mapId; x; y; direction; fadeType]].

Definition control_switches (cmd : obj) : conversion :=
  let startId := or_ (obj_get "startId" cmd) (JNum 1) in
  let endId := or_ (obj_get "endId" cmd) startId in
  let value := nullish (obj_get "value" cmd) (JNum 0) in (* 0=ON, 1=OFF *)
  Converted [command 121 [startId; endId; value]].

Definition control_variables (cmd : obj) : conversion :=
  let startId := or_ (obj_get "startId" cmd) (JNum 1) in
  let endId := or_ (obj_get "endId" cmd) startId in
  let operationType := or_ (obj_get "operationType" cmd) (JNum 0) in
  let operand := or_ (obj_get "operand" cmd) (JNum 0) in
  let value := or_ (obj_get "value" cmd) (JNum 0) in
  Converted [command 122 [startId; endId; operationType; operand; value]].

Definition control_self_switch (cmd : obj) : conversion :=
  let key := or_ (obj_get "key" cmd) (JStr "A") in
  let value := nullish (obj_get "value" cmd) (JNum 0) in
  Converted [command 123 [key; value]].

Definition conditional_branch (cmd : obj) : conversion :=
  let conditionType := or_ (obj_get "conditionType" cmd) (JNum 0) in
  let param1 := or_ (obj_get "param1" cmd) (JNum 0) in
  let param2 := or_ (obj_get "param2" cmd) (JNum 0) in
  Converted [command 111 [conditionType; param1; param2]].

Definition common_event (cmd : obj) : conversion :=
  let eventId := or_ (obj_get "eventId" cmd) (JNum 1) in
  Converted [command 117 [eventId]].

Definition change_gold (cmd : obj) : conversion :=
  let operation := or_ (obj_get "operation" cmd) (JNum 0) in (* 0=increase, 1=decrease *)
  let operandType := or_ (obj_get "operandType" cmd) (JNum 0) in
  let value := or_ (obj_get "value" cmd) (JNum 0) in
  Converted [command 125 [operation; operandType; value]].

Definition change_items (cmd : obj) : conversion :=
  let itemId := or_ (obj_get "itemId" cmd) (JNum 1) in
  let operation := or_ (obj_get "operation" cmd) (JNum 0) in
  let operandType := or_ (obj_get "operandType" cmd) (JNum 0) in
  let value := or_ (obj_get "value" cmd) (JNum 1) in
  Converted [command 126 [itemId; operation; operandType; value]].

(** [{ name, volume, pitch, pan }] *)
Definition audio (cmd : obj) : json :=
  let name := or_ (obj_get "name" cmd) (JStr EmptyString) in
  let volume := nullish (obj_get "volume" cmd) (JNum 90) in
  let pitch := nullish (obj_get "pitch" cmd) (JNum 100) in
  let pan := nullish (obj_get "pan" cmd) (JNum 0) in
  JObj [("name", name); ("volume", volume); ("pitch", pitch); ("pan", pan)].

Definition play_bgm (cmd : obj) : conversion :=
  Converted [command 241 [audio cmd]].

Definition play_se (cmd : obj) : conversion :=
  Converted [command 250 [audio cmd]].

Definition wait (cmd : obj) : conversion :=
  let duration := or_ (obj_get "duration" cmd) (JNum 60) in
  Converted [command 230 [duration]].

Definition fadeout_screen (cmd : obj) : conversion := Converted [command 221 []].
Definition fadein_screen (cmd : obj) : conversion := Converted [command 222 []].
Definition erase_event (cmd : obj) : conversion := Converted [command 214 []].

Definition recover_all (cmd : obj) : conversion :=
  let actorId := or_ (obj_get "actorId" cmd) (JNum 0) in (* 0 = entire party *)
  Converted [command 314 [JNum 0; actorId]].

Definition battle_processing (cmd : obj) : conversion :=
  let troopId := or_ (obj_get "troopId" cmd) (JNum 1) in
  let canEscape := nullish (obj_get "canEscape" cmd) (JBool true) in
  let canLose := nullish (obj_get "canLose" cmd) (JBool false) in
  Converted [command 301 [JNum 0; troopId; canEscape; canLose]].

(** [x[i]] on a value that is neither [null] nor a string: an element of
    an array, a property of an object, [undefined] on a number or a
    boolean. *)
Definition element (x : json) (i : nat) : value :=
  match x with
  | JArr items => items !! i
  | JObj o => obj_get (DatabaseManager.decimal (Z.of_nat i)) o
  | _ => None
  end.

(** [goods[0]?.[i] ?? d] *)
Definition first_good (goods : list json) (i : nat) (d : json) : json :=
  match goods !! 0 with
  | Some JNull | None => d
  | Some good => nullish (element good i) d
  end.

(** The loop over [goods] from index 1: a [null] among them throws. *)
Fixpoint more_goods (goods : list json) : error + list EventCommand :=
  match goods with
  | [] => inr []
  | JNull :: _ => inl TypeError
  | good :: goods' =>
      match more_goods goods' with
      | inr commands =>
          inr ({| code := 605; indent := 0;
                  parameters := [element good 0; element good 1;
                                 Some (JNum 0); Some (JNum 0)] |} :: commands)
      | inl e => inl e
      end
  end.

Definition is_string (v : json) : bool :=
  match v with JStr _ => true | _ => false end.

Definition shop_processing (cmd : obj) : conversion :=
  let goods := or_ (obj_get "goods" cmd) (JArr []) in
  let purchaseOnly := nullish (obj_get "purchaseOnly" cmd) (JBool false) in
  match goods with
  | JArr goods =>
      if existsb is_string goods then Unmodelled
      else
        let result :=
          [command 302 [first_good goods 0 (JNum 0); first_good goods 1 (JNum 1);
                        JNum 0; JNum 0; purchaseOnly]] in
        match more_goods (tail goods) with
        | inr commands => Converted (result ++ commands)
        | inl e => Thrown e
        end
  | JNum _ | JBool _ =>
      (* no [length], no elements *)
      Converted [command 302 [JNum 0; JNum 1; JNum 0; JNum 0; purchaseOnly]]
  | _ => Unmodelled
  end.

Definition change_hp (cmd : obj) : conversion :=
  let actorId := or_ (obj_get "actorId" cmd) (JNum 1) in
  let operation := or_ (obj_get "operation" cmd) (JNum 0) in
  let operandType := or_ (obj_get "operandType" cmd) (JNum 0) in
  let value := or_ (obj_get "value" cmd) (JNum 0) in
  let allowDeath := nullish (obj_get "allowDeath" cmd) (JBool false) in
  Converted [command 311 [JNum 0; actorId; operation; operandType; value; allowDeath]].

Definition change_exp (cmd : obj) : conversion :=
  let actorId := or_ (obj_get "actorId" cmd) (JNum 0) in
  let operation := or_ (obj_get "operation" cmd) (JNum 0) in
  let operandType := or_ (obj_get "operandType" cmd) (JNum 0) in
  let value := or_ (obj_get "value" cmd) (JNum 0) in
  let showLevelUp := nullish (obj_get "showLevelUp" cmd) (JBool true) in
  Converted [command 315 [JNum 0; actorId; operation; operandType; value; showLevelUp]].

Definition comment (cmd : obj) : conversion :=
  let text := or_ (obj_get "text" cmd) (JStr EmptyString) in
  match text with
  | JStr text =>
      let lines := split_lines text in
      Converted
        (command 108 [or_ (JStr <$> lines !! 0) (JStr EmptyString)]
         :: map (λ line, command 408 [JStr line]) (tail lines))
  | _ => Thrown TypeError (* [text.split] is not a function *)
  end.

Definition label (cmd : obj) : conversion :=
  let name := or_ (obj_get "name" cmd) (JStr EmptyString) in
  Converted [command 118 [name]].

Definition jump_to_label (cmd : obj) : conversion :=
  let name := or_ (obj_get "name" cmd) (JStr EmptyString) in
  Converted [command 119 [name]].

Definition loop (cmd : obj) : conversion := Converted [command 112 []].
Definition break_loop (cmd : obj) : conversion := Converted [command 113 []].
Definition exit_event (cmd : obj) : conversion := Converted [command 115 []].
Definition game_over (cmd : obj) : conversion := Converted [command 353 []].
Definition return_to_title (cmd : obj) : conversion := Converted [command 354 []].

Definition change_party_member (cmd : obj) : conversion :=
  let actorId := or_ (obj_get "actorId" cmd) (JNum 1) in
  let operation := or_ (obj_get "operation" cmd) (JNum 0) in (* 0=add, 1=remove *)
  let initialize := nullish (obj_get "initialize" cmd) (JBool true) in
  Converted [command 129 [actorId; operation; initialize]].

Definition change_class (cmd : obj) : conversion :=
  let actorId := or_ (obj_get "actorId" cmd) (JNum 1) in
  let classId := or_ (obj_get "classId" cmd) (JNum 1) in
  let keepExp := nullish (obj_get "keepExp" cmd) (JBool false) in
  Converted [command 321 [actorId; classId; keepExp]].

Definition change_skill (cmd : obj) : conversion :=
  let actorId := or_ (obj_get "actorId" cmd) (JNum 1) in
  let operation := or_ (obj_get "operation" cmd) (JNum 0) in (* 0=learn, 1=forget *)
  let skillId := or_ (obj_get "skillId" cmd) (JNum 1) in
  Converted [command 318 [JNum 0; actorId; operation; skillId]].

Definition change_level (cmd : obj) : conversion :=
  let actorId := or_ (obj_get "actorId" cmd) (JNum 0) in
  let operation := or_ (obj_get "operation" cmd) (JNum 0) in (* 0=increase, 1=decrease *)
  let operandType := or_ (obj_get "operandType" cmd) (JNum 0) in
  let value := or_ (obj_get "value" cmd) (JNum 1) in
  let showLevelUp := nullish (obj_get "showLevelUp" cmd) (JBool true) in
  Converted [command 316 [JNum 0; actorId; operation; operandType; value; showLevelUp]].

Definition change_state (cmd : obj) : conversion :=
  let actorId := or_ (obj_get "actorId" cmd) (JNum 0) in
  let operation := or_ (obj_get "operation" cmd) (JNum 0) in (* 0=add, 1=remove *)
  let stateId := or_ (obj_get "stateId" cmd) (JNum 1) in
  Converted [command 313 [JNum 0; actorId; operation; stateId]].

Definition change_name (cmd : obj) : conversion :=
  let actorId := or_ (obj_get "actorId" cmd) (JNum 1) in
  let name := or_ (obj_get "name" cmd) (JStr EmptyString) in
  Converted [command 320 [actorId; name]].

Definition change_weapons (cmd : obj) : conversion :=
  let weaponId := or_ (obj_get "weaponId" cmd) (JNum 1) in
  let operation := or_ (obj_get "operation" cmd) (JNum 0) in
  let operandType := or_ (obj_get "operandType" cmd) (JNum 0) in
  let value := or_ (obj_get "value" cmd) (JNum 1) in
  Converted [command 127 [weaponId; operation; operandType; value]].

Definition change_armors (cmd : obj) : conversion :=
  let armorId := or_ (obj_get "armorId" cmd) (JNum 1) in
  let operation := or_ (obj_get "operation" cmd) (JNum 0) in
  let operandType := or_ (obj_get "operandType" cmd) (JNum 0) in
  let value := or_ (obj_get "value" cmd) (JNum 1) in
  Converted [command 128 [armorId; operation; operandType; value]].

Definition show_balloon_icon (cmd : obj) : conversion :=
  let characterId := nullish (obj_get "characterId" cmd) (JNum (-1)) in (* -1=player, 0=this event *)
  let balloonId := or_ (obj_get "balloonId" cmd) (JNum 1) in (* 1=exclamation, 2=question, etc. *)
  let waitForCompletion := nullish (obj_get "waitForCompletion" cmd) (JBool false) in
  Converted [command 213 [characterId; balloonId; waitForCompletion]].

(** The cases of the [switch], in its order. *)
Definition CASES : list (string * (obj → conversion)) :=
  [ ("show_text", show_text); ("show_choices", show_choices);
    ("transfer_player", transfer_player); ("control_switches", control_switches);
    ("control_variables", control_variables);
    ("control_self_switch", control_self_switch);
    ("conditional_branch", conditional_branch); ("common_event", common_event);
    ("change_gold", change_gold); ("change_items", change_items);
    ("play_bgm", play_bgm); ("play_se", play_se); ("wait", wait);
    ("fadeout_screen", fadeout_screen); ("fadein_screen", fadein_screen);
    ("erase_event", erase_event); ("recover_all", recover_all);
    ("battle_processing", battle_processing); ("shop_processing", shop_processing);
    ("change_hp", change_hp); ("change_exp", change_exp); ("comment", comment);
    ("label", label); ("jump_to_label", jump_to_label); ("loop", loop);
    ("break_loop", break_loop); ("exit_event", exit_event); ("game_over", game_over);
    ("return_to_title", return_to_title);
    ("change_party_member", change_party_member); ("change_class", change_class);
    ("change_skill", change_skill); ("change_level", change_level);
    ("change_state", change_state); ("change_name", change_name);
    ("change_weapons", change_weapons); ("change_armors", change_armors);
    ("show_balloon_icon", show_balloon_icon) ].

(** The case that a [switch] on strings takes: the first with the label. *)
Fixpoint case_of (type : string) (cases : list (string * (obj → conversion)))
    : option (obj → conversion) :=
  match cases with
  | [] => None
  | (label, body) :: cases' =>
      if String.eqb type label then Some body else case_of type cases'
  end.

Definition unknown_command (type : string) : error :=
  Error ("Unknown command type: " +:+ type).

(** Convert human-readable command to RPG Maker MZ event commands. *)
Definition convertCommand (cmd : obj) : conversion :=
  match obj_get "type" cmd with
  | Some (JStr type) =>
      match case_of type CASES with
      | Some body => body cmd
      | None => Thrown (unknown_command type)
      end
  | Some type => Thrown (unknown_command (js_to_string type))
  | None => Thrown (unknown_command "undefined")
  end.

End EventCommands.

(** A schema in the manner of the tests: an object with a string [name] and
    a number [value]; the data it returns is the pair. *)
Definition TestSchema : FileHandlerMore.ZodSchema (string * Z) :=
  {| FileHandlerMore.safeParse v :=
       match v with
       | JObj o =>
           match obj_get "name" o, obj_get "value" o with
           | Some (JStr n), Some (JNum x) => inl (n, x)
           | _, _ => inr "Required"
           end
       | _ => inr "Expected object"
       end |}.

(** The error that [validate] pushes for a data file. *)
Definition missing_file_error (file : string) : string := "Missing data file: " +:+ file.

(** The character of a decimal digit. *)
Definition digit (k : nat) : ascii := ascii_of_nat (48 + k).

(** The files that [listFiles] returns, without an extension. *)
Definition files_in (dirPath : string) (σ : gmap string node) : list string :=
  match (FileHandlerMore.listFiles dirPath None σ).1 with
  | Ok files => files
  | Throw _ => []
  end.

(** What the loop of [listResources] adds for a directory. *)
Definition resource_entry (self : ProjectManager.ProjectManager) (type : option string)
    (σ : gmap string node) (dir : string) : option (string * list string) :=
  let files := files_in (path_join [ProjectManager.projectPath self; dir]) σ in
  match FileHandlerMore.truthy type with
  | Some type' =>
      if negb (Path.startsWith dir type') then None
      else if (0 <? length files)%nat then Some (dir, files) else None
  | None => if (0 <? length files)%nat then Some (dir, files) else None
  end.

(** Text of seven-bit characters.  On such text [toLowerCase] of the model
    is that of JavaScript: it takes [A]..[Z] to [a]..[z] and keeps every
    other character. *)
Definition is_ascii (s : string) : bool :=
  forallb (λ c, (N_of_ascii c <? 128)%N) (list_ascii_of_string s).

(** The strings among the searched fields of an entity are such text. *)
Definition ascii_fields (fields : list string) (entity : json) : bool :=
  forallb
    (λ field,
       match obj_get field (DatabaseManager.own_props entity) with
       | Some (JStr value) => is_ascii value
       | _ => true
       end)
    fields.

Definition is_upper (c : ascii) : bool :=
  let n := N_of_ascii c in (65 <=? n)%N && (n <=? 90)%N.

(** The same character, or a capital letter and its small letter. *)
Definition same_char (c d : ascii) : bool :=
  Ascii.eqb c d
  || (is_upper c && (N_of_ascii d =? N_of_ascii c + 32)%N)
  || (is_upper d && (N_of_ascii c =? N_of_ascii d + 32)%N).

(** Two texts that differ in the case of letters only. *)
Fixpoint same_text (a b : string) : bool :=
  match a, b with
  | EmptyString, EmptyString => true
  | String c a', String d b' => same_char c d && same_text a' b'
  | _, _ => false
  end.

(** * Properties *)

Local Open Scope char_scope.

(** ** The text round trip: what [writeJson] writes, [readJsonRaw] reads back *)

Module RoundTrip.

Lemma skip_ws_all_ws pre s :
  forallb is_ws pre = true → skip_ws (pre ++ s) = skip_ws s.
Proof.
  induction pre as [|c pre IH]; simpl; [done|].
  intros [Hc Hpre]%andb_true_iff. rewrite Hc. auto.
Qed.

Lemma indent_ws n : forallb is_ws (indent n) = true.
Proof.
  unfold indent. simpl. induction n as [|n IH]; simpl; auto.
Qed.

Lemma skip_ws_indent n s : skip_ws (indent n ++ s) = skip_ws s.
Proof. apply skip_ws_all_ws, indent_ws. Qed.

Lemma skip_ws_head c s : is_ws c = false → skip_ws (c :: s) = c :: s.
Proof. intros H. simpl. by rewrite H. Qed.

Lemma delimited_not_digit c s : delimited (c :: s) = true → digit_cons c = None.
Proof.
  simpl. intros [H|H]%orb_true_iff; apply Ascii.eqb_eq in H; by subst.
Qed.

Lemma delimited_not_number s : delimited s = true → continues_number s = false.
Proof.
  destruct s as [|c s]; [done|]. simpl.
  intros [H|H]%orb_true_iff; apply Ascii.eqb_eq in H; by subst.
Qed.

Lemma read_uint_print d rest :
  delimited rest = true → read_uint (print_uint d ++ rest) = (d, rest).
Proof.
  intros Hrest. induction d; simpl; rewrite ?IHd; try done.
  destruct rest as [|c rest]; [done|]. simpl.
  by rewrite (delimited_not_digit _ _ Hrest).
Qed.

Lemma to_uint_normal n : unorm (N.to_uint n) = N.to_uint n.
Proof. by rewrite <- (DecimalN.Unsigned.of_to n) at 2; rewrite DecimalN.Unsigned.to_of. Qed.

Lemma parse_N_print n rest :
  delimited rest = true → parse_N (print_N n ++ rest) = Some (n, rest).
Proof.
  intros Hrest. unfold parse_N, print_N. rewrite read_uint_print by done.
  rewrite to_uint_normal, (internal_uint_dec_lb _ _ eq_refl).
  rewrite delimited_not_number by done. simpl.
  by rewrite DecimalN.Unsigned.of_to.
Qed.

Lemma digit_cons_Some c : is_Some (digit_cons c) → In c (chars "0123456789").
Proof.
  unfold digit_cons.
  repeat match goal with
         | |- context [Ascii.eqb c ?x] =>
             destruct (Ascii.eqb_spec c x) as [->|_]; [simpl; tauto|]
         end.
  by intros [? [=]].
Qed.

Lemma print_N_head n : ∃ c r, print_N n = c :: r ∧ In c (chars "0123456789").
Proof.
  unfold print_N. pose proof (to_uint_normal n) as Hn.
  destruct (N.to_uint n); simpl; [discriminate Hn|..];
    eexists _, _; (split; [done|simpl; tauto]).
Qed.

Lemma parse_number_nonneg n rest :
  delimited rest = true →
  parse_number (print_N n ++ rest) = Some (JNum (Z.of_N n), rest).
Proof.
  intros Hrest. pose proof (parse_N_print n rest Hrest) as HN.
  destruct (print_N_head n) as (c & r & Hp & Hc). rewrite Hp in *.
  unfold parse_number. simpl app in *. cbv beta iota.
  destruct (Ascii.eqb_spec c "-") as [->|_]; [simpl in Hc; naive_solver|].
  rewrite HN. reflexivity.
Qed.

Lemma parse_number_print z rest :
  delimited rest = true → parse_number (print_Z z ++ rest) = Some (JNum z, rest).
Proof.
  intros Hrest. destruct z as [|p|p]; unfold print_Z.
  - by rewrite parse_number_nonneg.
  - by rewrite parse_number_nonneg.
  - unfold parse_number. simpl app. cbv beta iota.
    change (Ascii.eqb "-" "-") with true. cbv iota.
    by rewrite parse_N_print.
Qed.

Lemma parse_dispatch_number pv fuel c r :
  In c (chars "-0123456789") →
  parse_dispatch pv fuel (c :: r) = parse_number (c :: r).
Proof.
  simpl. intros H.
  repeat (destruct H as [<-|H]; [reflexivity|]). done.
Qed.

Lemma print_Z_head z : ∃ c r, print_Z z = c :: r ∧ In c (chars "-0123456789").
Proof.
  destruct z as [|p|p]; simpl.
  - eexists _, _. split; [reflexivity|simpl; tauto].
  - destruct (print_N_head (Npos p)) as (c & r & -> & Hc).
    eexists _, _. split; [done|by right].
  - eexists _, _. split; [done|by left].
Qed.

Lemma parse_string_escape c tail :
  parse_string (escape_char c ++ tail)
  = '(str, r) ← parse_string tail; Some (c :: str, r).
Proof. destruct c as [[] [] [] [] [] [] [] []]; reflexivity. Qed.

Lemma parse_string_print cs rest :
  parse_string (flat_map escape_char cs ++ dquote :: rest) = Some (cs, rest).
Proof.
  induction cs as [|c cs IH]; [done|].
  change (flat_map escape_char (c :: cs))
    with (escape_char c ++ flat_map escape_char cs).
  rewrite <- app_assoc, parse_string_escape, IH. done.
Qed.

Lemma parse_string_quote s rest :
  ∃ r, quote s ++ rest = dquote :: r
       ∧ parse_string r = Some (list_ascii_of_string s, rest).
Proof.
  exists (flat_map escape_char (list_ascii_of_string s) ++ dquote :: rest).
  split; [|apply parse_string_print].
  unfold quote. by rewrite <- app_comm_cons, <- app_assoc.
Qed.

Lemma reads_space pv pr x :
  reads pv pr x → ∀ tail, delimited tail = true →
  pv (" " :: pr x ++ tail) = Some (x, tail).
Proof. intros H tail Ht. exact (H [" "] tail eq_refl Ht). Qed.

Lemma parse_elements_print pv pr i j rest xs : ∀ fuel,
  xs ≠ [] → length xs ≤ fuel → Forall (reads pv pr) xs →
  parse_elements pv fuel
    (indent i ++ print_items pr i xs ++ indent j ++ "]" :: rest)
  = Some (xs, rest).
Proof.
  induction xs as [|x ys IH]; [done|].
  intros [|fuel] _ Hlen Hall; [simpl in Hlen; lia|].
  apply Forall_cons in Hall as [Hx Hys].
  change (print_items pr i (x :: ys))
    with (pr x ++ match ys with
                  | [] => []
                  | _ :: _ => "," :: indent i ++ print_items pr i ys
                  end).
  rewrite <- app_assoc. cbn [parse_elements].
  destruct ys as [|y ys'].
  - rewrite Hx by (done || apply indent_ws). cbn [mbind option_bind].
    rewrite app_nil_l, skip_ws_indent. reflexivity.
  - rewrite <- app_comm_cons, Hx by (done || apply indent_ws).
    cbn [mbind option_bind]. rewrite skip_ws_head by done.
    change (Ascii.eqb "," ",") with true. cbv iota.
    rewrite <- app_assoc, IH; [done|done|simpl in *; lia|done].
Qed.

Lemma parse_members_print pv pj i j rest (ms : obj) : ∀ fuel,
  ms ≠ [] → length ms ≤ fuel → Forall (λ kv, reads pv pj kv.2) ms →
  parse_members pv fuel
    (indent i
       ++ print_items (λ kv, quote (fst kv) ++ ":" :: " " :: pj (snd kv)) i ms
       ++ indent j ++ "}" :: rest)
  = Some (ms, rest).
Proof.
  set (pr := λ kv : string * json, quote (fst kv) ++ ":" :: " " :: pj (snd kv)).
  induction ms as [|[k x] ys IH]; [done|].
  intros [|fuel] _ Hlen Hall; [simpl in Hlen; lia|].
  apply Forall_cons in Hall as [Hx Hys]. simpl in Hx.
  change (print_items pr i ((k, x) :: ys))
    with (pr (k, x) ++ match ys with
                       | [] => []
                       | _ :: _ => "," :: indent i ++ print_items pr i ys
                       end).
  cbn [parse_members]. rewrite skip_ws_indent.
  unfold pr at 1. cbn [fst snd]. rewrite <- !app_assoc, <- !app_comm_cons.
  destruct (parse_string_quote k
              (":" :: " " :: pj x ++
               match ys with
               | [] => []
               | _ :: _ => "," :: indent i ++ print_items pr i ys
               end ++ indent j ++ "}" :: rest)) as (r & Hq & Hr).
  rewrite Hq.
  rewrite skip_ws_head by done. cbn [strip]. change (Ascii.eqb dquote dquote) with true.
  cbv iota. cbn [mbind option_bind]. rewrite Hr. cbn [mbind option_bind].
  rewrite skip_ws_head by done. cbn [strip]. change (Ascii.eqb ":" ":") with true.
  cbv iota. cbn [mbind option_bind].
  rewrite string_of_list_ascii_of_string.
  destruct ys as [|y ys'].
  - rewrite app_nil_l, (reads_space _ _ _ Hx) by done.
    cbn [mbind option_bind]. rewrite skip_ws_indent. reflexivity.
  - rewrite <- app_comm_cons, (reads_space _ _ _ Hx) by done.
    cbn [mbind option_bind]. rewrite skip_ws_head by done.
    change (Ascii.eqb "," ",") with true. cbv iota.
    rewrite <- app_assoc, IH; [done|done|simpl in *; lia|done].
Qed.

Lemma size_pos v : 1 ≤ size v.
Proof. destruct v; simpl; lia. Qed.

Lemma obj_set_fresh k v (o : obj) : k ∉ keys o → obj_set k v o = o ++ [(k, v)].
Proof.
  induction o as [|[k' v'] o IH]; [done|]. simpl.
  intros [Hk Ho]%not_elem_of_cons.
  destruct (String.eqb_spec k k'); [done|]. by rewrite IH.
Qed.

Lemma obj_assign_fresh (ms acc : obj) :
  NoDup (keys (acc ++ ms)) → obj_assign acc ms = acc ++ ms.
Proof.
  revert acc. induction ms as [|[k v] ms IH]; intros acc Hnd.
  - by rewrite app_nil_r.
  - unfold obj_assign in *. simpl.
    replace (acc ++ (k, v) :: ms) with ((acc ++ [(k, v)]) ++ ms) in *
      by by rewrite <- app_assoc.
    rewrite obj_set_fresh, IH; [done|done|].
    unfold keys in Hnd. rewrite !fmap_app in Hnd.
    apply NoDup_app in Hnd as [Hnd _]. apply NoDup_app in Hnd as (_ & Hnd & _).
    intros Hin. apply (Hnd k Hin). simpl. apply list_elem_of_here.
Qed.

Lemma wf_json_arr items :
  wf_json (JArr items) = true ↔ Forall (λ x, wf_json x = true) items.
Proof. simpl. by rewrite forallb_forall, Forall_forall; setoid_rewrite list_elem_of_In. Qed.

Lemma wf_json_obj (members : obj) :
  wf_json (JObj members) = true
  ↔ NoDup (keys members) ∧ Forall (λ kv, wf_json kv.2 = true) members.
Proof.
  simpl. rewrite andb_true_iff, forallb_forall, Forall_forall.
  setoid_rewrite list_elem_of_In.
  split; (intros [H1 H2]; split; [|done]).
  - by apply bool_decide_eq_true_1 in H1.
  - by apply bool_decide_eq_true_2.
Qed.

Lemma print_json_head ind v :
  ∃ c r, print_json ind v = c :: r ∧ value_head c = true.
Proof.
  destruct v as [|[]|n|s|[|x xs]|[|kv ms]];
    try (eexists _, _; split; [reflexivity|reflexivity]).
  destruct (print_Z_head n) as (c & r & Hp & Hc).
  exists c, r. split; [done|]. simpl in Hc.
  repeat (destruct Hc as [<-|Hc]; [reflexivity|]). done.
Qed.

Lemma print_items_head ind i x xs :
  ∃ c r, print_items (print_json ind) i (x :: xs) = c :: r ∧ value_head c = true.
Proof.
  destruct (print_json_head ind x) as (c & r & Hp & Hc).
  simpl. rewrite Hp. eexists _, _. by split.
Qed.

Lemma parse_value_ws fuel pre s :
  forallb is_ws pre = true → parse_value fuel (pre ++ s) = parse_value fuel s.
Proof.
  intros Hpre. destruct fuel; [done|]. simpl. unfold parse_dispatch.
  by rewrite skip_ws_all_ws.
Qed.

Lemma strip_close_none (close : ascii) i c r :
  is_ws c = false → Ascii.eqb close c = false →
  strip [close] (skip_ws (indent i ++ c :: r)) = None.
Proof.
  intros Hws Hc. rewrite skip_ws_indent, skip_ws_head by done.
  simpl. by rewrite Hc.
Qed.

Lemma value_head_inv c :
  value_head c = true →
  is_ws c = false ∧ Ascii.eqb "]" c = false ∧ Ascii.eqb "}" c = false.
Proof.
  unfold value_head. rewrite !andb_true_iff, !negb_true_iff. tauto.
Qed.

Lemma size_items_le (items : list json) x :
  x ∈ items → size x ≤ foldr (λ x n, size x + n) 0 items.
Proof.
  induction 1 as [|? ? ? ? IH]; simpl; [lia|]. lia.
Qed.

Lemma length_le_size_items (items : list json) :
  length items ≤ foldr (λ x n, size x + n) 0 items.
Proof.
  induction items as [|x items IH]; simpl; [lia|]. pose proof (size_pos x). lia.
Qed.

Lemma size_members_le (members : obj) kv :
  kv ∈ members → size kv.2 ≤ foldr (λ kv n, size (snd kv) + n) 0 members.
Proof.
  induction 1 as [|? ? ? ? IH]; simpl; [lia|]. lia.
Qed.

Lemma length_le_size_members (members : obj) :
  length members ≤ foldr (λ kv n, size (snd kv) + n) 0 members.
Proof.
  induction members as [|x members IH]; simpl; [lia|].
  pose proof (size_pos x.2). lia.
Qed.

(** Reading back a printed value, at any depth and with any fuel that
    covers its size. *)
Lemma parse_value_print v :
  wf_json v = true → ∀ ind fuel, size v ≤ fuel →
  reads (parse_value fuel) (print_json ind) v.
Proof.
  induction v as [|b|n|s|items IH|members IH] using json_ind;
    intros Hwf ind fuel Hsz pre tail Hpre Htail;
    rewrite parse_value_ws by done;
    (destruct fuel as [|f]; [simpl in Hsz; lia|]); cbn [parse_value].
  - reflexivity.
  - destruct b; reflexivity.
  - destruct (print_Z_head n) as (c & r & Hp & Hc).
    cbn [print_json]. rewrite Hp, <- app_comm_cons, parse_dispatch_number by done.
    rewrite app_comm_cons, <- Hp. by apply parse_number_print.
  - destruct (parse_string_quote s tail) as (r & Hq & Hr).
    cbn [print_json]. rewrite Hq. unfold parse_dispatch.
    rewrite skip_ws_head by done. simpl. rewrite Hr. simpl.
    by rewrite string_of_list_ascii_of_string.
  - destruct items as [|x xs]; [reflexivity|].
    change (print_json ind (JArr (x :: xs)))
      with ("[" :: indent (ind + 2)
              ++ print_items (print_json (ind + 2)) (ind + 2) (x :: xs)
              ++ indent ind ++ ["]"]).
    rewrite <- app_comm_cons, <- !app_assoc, <- app_comm_cons, app_nil_l.
    unfold parse_dispatch. rewrite skip_ws_head by done.
    change (Ascii.eqb "[" "n") with false. change (Ascii.eqb "[" "t") with false.
    change (Ascii.eqb "[" "f") with false. change (Ascii.eqb "[" dquote) with false.
    change (Ascii.eqb "[" "[") with true. cbv iota.
    destruct (print_items_head (ind + 2) (ind + 2) x xs) as (c & r & Hp & Hc).
    apply value_head_inv in Hc as (Hc1 & Hc2 & Hc3).
    match goal with
    | |- context [strip ["]"] ?t] =>
        assert (strip ["]"] t = None) as ->
    end.
    { rewrite Hp, <- app_comm_cons. by apply strip_close_none. }
    apply wf_json_arr in Hwf. simpl in Hsz.
    rewrite parse_elements_print; [done|done|..].
    + pose proof (length_le_size_items (x :: xs)). simpl in *. lia.
    + apply Forall_forall. intros y Hy.
      rewrite Forall_forall in IH, Hwf.
      apply IH; [done|by apply Hwf|].
      pose proof (size_items_le (x :: xs) y Hy). simpl in *. lia.
  - destruct members as [|m ms]; [reflexivity|].
    change (print_json ind (JObj (m :: ms)))
      with ("{" :: indent (ind + 2)
              ++ print_items
                   (λ kv, quote (fst kv) ++ ":" :: " " :: print_json (ind + 2) (snd kv))
                   (ind + 2) (m :: ms)
              ++ indent ind ++ ["}"]).
    rewrite <- app_comm_cons, <- !app_assoc, <- app_comm_cons, app_nil_l.
    unfold parse_dispatch. rewrite skip_ws_head by done.
    change (Ascii.eqb "{" "n") with false. change (Ascii.eqb "{" "t") with false.
    change (Ascii.eqb "{" "f") with false. change (Ascii.eqb "{" dquote) with false.
    change (Ascii.eqb "{" "[") with false. change (Ascii.eqb "{" "{") with true.
    cbv iota.
    match goal with
    | |- context [strip ["}"] ?t] =>
        assert (strip ["}"] t = None) as ->
    end.
    { destruct m as [k x]. cbn [print_items fst snd]. unfold quote.
      rewrite <- !app_comm_cons. by apply strip_close_none. }
    apply wf_json_obj in Hwf as [Hnd Hwf]. simpl in Hsz.
    rewrite parse_members_print; [|done|..].
    + cbn [mbind option_bind]. by rewrite obj_assign_fresh.
    + pose proof (length_le_size_members (m :: ms)). simpl in *. lia.
    + apply Forall_forall. intros y Hy.
      rewrite Forall_forall in IH, Hwf.
      apply IH; [done|by apply Hwf|].
      pose proof (size_members_le (m :: ms) y Hy). simpl in *. lia.
Qed.

Lemma size_le_print v : ∀ ind, size v ≤ length (print_json ind v).
Proof.
  induction v as [|b|n|s|items IH|members IH] using json_ind; intros ind.
  - simpl; lia.
  - destruct b; simpl; lia.
  - destruct (print_json_head ind (JNum n)) as (c & r & -> & _). simpl; lia.
  - destruct (print_json_head ind (JStr s)) as (c & r & -> & _). simpl; lia.
  - destruct items as [|x xs]; [simpl; lia|].
    change (print_json ind (JArr (x :: xs)))
      with ("[" :: indent (ind + 2)
              ++ print_items (print_json (ind + 2)) (ind + 2) (x :: xs)
              ++ indent ind ++ ["]"]).
    cbn [size length]. rewrite !length_app.
    enough (foldr (λ x n, size x + n) 0 (x :: xs)
            ≤ length (print_items (print_json (ind + 2)) (ind + 2) (x :: xs))) by lia.
    induction IH as [|y ys Hy _ IHys]; [done|].
    cbn [foldr print_items]. rewrite length_app. specialize (Hy (ind + 2)).
    destruct ys; [simpl in *; lia|]. cbn [length]. rewrite length_app. lia.
  - destruct members as [|m ms]; [simpl; lia|].
    change (print_json ind (JObj (m :: ms)))
      with ("{" :: indent (ind + 2)
              ++ print_items
                   (λ kv, quote (fst kv) ++ ":" :: " " :: print_json (ind + 2) (snd kv))
                   (ind + 2) (m :: ms)
              ++ indent ind ++ ["}"]).
    cbn [size length]. rewrite !length_app.
    match goal with
    | |- context [length (print_items ?pr ?i (m :: ms))] =>
        enough (foldr (λ kv n, size (snd kv) + n) 0 (m :: ms)
                ≤ length (print_items pr i (m :: ms))) by lia
    end.
    induction IH as [|y ys Hy _ IHys]; [done|].
    cbn [foldr print_items]. rewrite length_app. specialize (Hy (ind + 2)).
    cbn [length]. rewrite length_app. cbn [length].
    destruct ys; [simpl in *; lia|]. cbn [length]. rewrite length_app. lia.
Qed.

Lemma list_ascii_of_string_app a b :
  list_ascii_of_string (a +:+ b) = list_ascii_of_string a ++ list_ascii_of_string b.
Proof. induction a as [|c a IH]; simpl; [done|]. by rewrite IH. Qed.

(** [JSON.parse] undoes [JSON.stringify(_, null, 2) + LF]. *)
Lemma JSON_parse_stringify v :
  wf_json v = true → JSON_parse (document_text v) = Some v.
Proof.
  intros Hwf. unfold JSON_parse, document_text, JSON_stringify.
  rewrite list_ascii_of_string_app, list_ascii_of_string_of_list_ascii.
  cbn [list_ascii_of_string].
  pose proof (size_le_print v 0) as Hsz.
  assert (size v ≤ S (length (print_json 0 v ++ [LF]))) as Hfuel
    by (rewrite length_app; simpl; lia).
  pose proof (parse_value_print v Hwf 0 _ Hfuel [] [LF] eq_refl eq_refl) as Hv.
  rewrite app_nil_l in Hv. rewrite Hv. reflexivity.
Qed.

(** *** What [JSON.parse] returns is a JavaScript value *)

Lemma obj_set_keys k v (o : obj) :
  keys (obj_set k v o) = if bool_decide (k ∈ keys o) then keys o else keys o ++ [k].
Proof.
  induction o as [|[k' v'] o IH]; [done|]. simpl.
  destruct (String.eqb_spec k k') as [->|Hne].
  - rewrite bool_decide_eq_true_2 by apply list_elem_of_here. done.
  - simpl. rewrite IH. unfold keys. simpl.
    destruct (decide (k ∈ o.*1)) as [Hin|Hin].
    + rewrite !bool_decide_eq_true_2; [done|by apply list_elem_of_further|done].
    + rewrite !bool_decide_eq_false_2; [done| |done].
      by intros [?|?]%elem_of_cons.
Qed.

Lemma obj_set_NoDup k v (o : obj) : NoDup (keys o) → NoDup (keys (obj_set k v o)).
Proof.
  intros Hnd. rewrite obj_set_keys. case_bool_decide; [done|].
  apply NoDup_app. split_and!; [done| |apply NoDup_singleton].
  intros x Hx ->%list_elem_of_singleton. done.
Qed.

Lemma obj_set_Forall (P : string * json → Prop) k v (o : obj) :
  (∀ k', P (k', v)) → Forall P o → Forall P (obj_set k v o).
Proof.
  intros Hv. induction 1 as [|[k' v'] o Hkv Ho IH]; simpl.
  - by repeat constructor.
  - destruct (String.eqb k k'); constructor; auto.
Qed.

Lemma obj_set_wf k v (o : obj) :
  wf_json v = true → wf_json (JObj o) = true → wf_json (JObj (obj_set k v o)) = true.
Proof.
  rewrite !wf_json_obj. intros Hv [Hnd Ho]. split.
  - by apply obj_set_NoDup.
  - by apply obj_set_Forall.
Qed.

Lemma obj_assign_wf (src o : obj) :
  Forall (λ kv, wf_json kv.2 = true) src →
  wf_json (JObj o) = true → wf_json (JObj (obj_assign o src)) = true.
Proof.
  unfold obj_assign. revert o.
  induction src as [|[k v] src IH]; intros o Hsrc Ho; [done|].
  apply Forall_cons in Hsrc as [Hv Hsrc]. simpl.
  apply IH; [done|]. by apply obj_set_wf.
Qed.

Section parse_wf.
Variable pv : list ascii → option (json * list ascii).
Hypothesis pv_wf : ∀ s v r, pv s = Some (v, r) → wf_json v = true.

Lemma parse_elements_wf fuel : ∀ s vs r,
  parse_elements pv fuel s = Some (vs, r) → Forall (λ x, wf_json x = true) vs.
Proof.
  induction fuel as [|fuel IH]; intros s vs r; [done|].
  cbn [parse_elements]. intros H.
  destruct (pv s) as [[v r1]|] eqn:Hv; [|done]. cbn [mbind option_bind] in H.
  apply pv_wf in Hv.
  destruct (skip_ws r1) as [|c r2]; [done|].
  destruct (Ascii.eqb c ","); [|destruct (Ascii.eqb c "]")]; [| |done].
  - destruct (parse_elements pv fuel r2) as [[vs' r3]|] eqn:Hvs; [|done].
    injection H as <- <-. constructor; eauto.
  - injection H as <- <-. by repeat constructor.
Qed.

Lemma parse_members_wf fuel : ∀ s ms r,
  parse_members pv fuel s = Some (ms, r) → Forall (λ kv, wf_json kv.2 = true) ms.
Proof.
  induction fuel as [|fuel IH]; intros s ms r; [done|].
  cbn [parse_members]. intros H.
  destruct (strip [dquote] (skip_ws s)) as [r0|]; [|done].
  cbn [mbind option_bind] in H.
  destruct (parse_string r0) as [[k r1]|]; [|done]. cbn [mbind option_bind] in H.
  destruct (strip [":"] (skip_ws r1)) as [r2|]; [|done].
  cbn [mbind option_bind] in H.
  destruct (pv r2) as [[v r3]|] eqn:Hv; [|done]. cbn [mbind option_bind] in H.
  apply pv_wf in Hv.
  destruct (skip_ws r3) as [|c r4]; [done|].
  destruct (Ascii.eqb c ","); [|destruct (Ascii.eqb c "}")]; [| |done].
  - destruct (parse_members pv fuel r4) as [[ms' r5]|] eqn:Hms; [|done].
    injection H as <- <-. constructor; eauto.
  - injection H as <- <-. by repeat constructor.
Qed.

Lemma parse_dispatch_wf fuel s v r :
  parse_dispatch pv fuel s = Some (v, r) → wf_json v = true.
Proof.
  unfold parse_dispatch, parse_number. intros H.
  repeat case_match; simplify_option_eq;
    repeat match goal with x : (_ * _)%type |- _ => destruct x end;
    simplify_option_eq; try done.
  - apply wf_json_arr. eauto using parse_elements_wf.
  - apply obj_assign_wf; [|done]. eauto using parse_members_wf.
Qed.
End parse_wf.

Lemma parse_value_wf fuel : ∀ s v r,
  parse_value fuel s = Some (v, r) → wf_json v = true.
Proof.
  induction fuel as [|fuel IH]; intros s v r; [done|].
  cbn [parse_value]. by apply parse_dispatch_wf.
Qed.

(** *** The fuel of [JSON.parse] is never short *)

Lemma skip_ws_length s : length (skip_ws s) ≤ length s.
Proof.
  induction s as [|c s IH]; [done|]. simpl.
  destruct (is_ws c); simpl; lia.
Qed.

Lemma strip_length pre : ∀ s r,
  strip pre s = Some r → length s = length pre + length r.
Proof.
  induction pre as [|p pre IH]; intros s r; simpl.
  - by intros [= ->].
  - destruct s as [|c s]; [done|]. destruct (Ascii.eqb p c); [|done].
    intros H%IH. simpl. lia.
Qed.

Lemma parse_string_length_below n : ∀ s str r,
  length s ≤ n → parse_string s = Some (str, r) → length r < length s.
Proof.
  induction n as [|n IH]; intros s str r Hn;
    (destruct s as [|c s]; [done|]); simpl in Hn; [lia|].
  cbn [parse_string].
  destruct (Ascii.eqb c dquote); [intros [= _ ->]; simpl; lia|].
  destruct (Ascii.eqb c backslash).
  - destruct s as [|e s]; [done|]. destruct (Ascii.eqb e "u").
    + destruct s as [|h1 [|h2 [|h3 [|h4 s]]]]; try done.
      destruct (hex4 h1 h2 h3 h4); [|done]. cbn [mbind option_bind].
      destruct (utf8_of_code _); [|done]. cbn [mbind option_bind].
      destruct (parse_string s) as [[str' r']|] eqn:Hs; [|done].
      intros [= _ ->]. apply IH in Hs; simpl in *; lia.
    + destruct (unescape e); [|done]. cbn [mbind option_bind].
      destruct (parse_string s) as [[str' r']|] eqn:Hs; [|done].
      intros [= _ ->]. apply IH in Hs; simpl in *; lia.
  - destruct (N_of_ascii c <? 32)%N; [done|].
    destruct (parse_string s) as [[str' r']|] eqn:Hs; [|done].
    intros [= _ ->]. apply IH in Hs; simpl in *; lia.
Qed.

Lemma parse_string_length s str r :
  parse_string s = Some (str, r) → length r < length s.
Proof. by apply (parse_string_length_below (length s)). Qed.

Lemma read_uint_length s : ∀ d r,
  read_uint s = (d, r) → length r ≤ length s ∧ (d ≠ Nil → length r < length s).
Proof.
  induction s as [|c s IH]; intros d r; simpl.
  - by intros [= <- <-].
  - destruct (digit_cons c) as [D|]; [|by intros [= <- <-]].
    destruct (read_uint s) as [d' r'] eqn:Hs. intros [= <- <-].
    destruct (IH _ _ eq_refl). simpl. split; [lia|]. intros _. lia.
Qed.

Lemma parse_N_length s n r : parse_N s = Some (n, r) → length r < length s.
Proof.
  unfold parse_N. destruct (read_uint s) as [d r'] eqn:Hs.
  destruct (uint_beq (unorm d) d) eqn:Hd; [|done].
  destruct (continues_number r'); [done|]. intros [= _ <-].
  apply read_uint_length in Hs as [_ Hs]. apply Hs. intros ->. done.
Qed.

Lemma parse_number_length s v r : parse_number s = Some (v, r) → length r < length s.
Proof.
  unfold parse_number. destruct s as [|c s]; [done|].
  destruct (Ascii.eqb c "-").
  - destruct (parse_N s) as [[n r']|] eqn:Hs; [|done]. intros [= _ <-].
    apply parse_N_length in Hs. simpl. lia.
  - destruct (parse_N (c :: s)) as [[n r']|] eqn:Hs; [|done]. intros [= _ <-].
    by apply parse_N_length in Hs.
Qed.

Section fuel.
Variable pv : list ascii → option (json * list ascii).
Hypothesis pv_fuelled : fuelled pv.

Lemma parse_elements_fuel fuel : ∀ s vs r,
  parse_elements pv fuel s = Some (vs, r) →
  length r < length s
  ∧ ∀ m m', length s - length r ≤ m → length s - length r ≤ m' →
      parse_elements (parse_value m) m' s = Some (vs, r).
Proof.
  induction fuel as [|fuel IH]; intros s vs r; [done|].
  cbn [parse_elements]. intros H.
  destruct (pv s) as [[v r1]|] eqn:Hv; [|done]. cbn [mbind option_bind] in H.
  apply pv_fuelled in Hv as [Hlen1 Hv].
  pose proof (skip_ws_length r1) as Hws.
  destruct (skip_ws r1) as [|c r2] eqn:Hr1; [done|]. simpl in Hws.
  destruct (Ascii.eqb c ",") eqn:Hc1; [|destruct (Ascii.eqb c "]") eqn:Hc2];
    [| |done].
  - destruct (parse_elements pv fuel r2) as [[vs' r3]|] eqn:Hvs; [|done].
    injection H as <- <-. apply IH in Hvs as [Hlen3 Hvs].
    split; [lia|]. intros m [|m'] Hm Hm'; [lia|].
    cbn [parse_elements]. rewrite Hv by lia. cbn [mbind option_bind].
    rewrite Hr1, Hc1, Hvs by lia. done.
  - injection H as <- <-. split; [lia|]. intros m [|m'] Hm Hm'; [lia|].
    cbn [parse_elements]. rewrite Hv by lia. cbn [mbind option_bind].
    by rewrite Hr1, Hc1, Hc2.
Qed.

Lemma parse_members_fuel fuel : ∀ s ms r,
  parse_members pv fuel s = Some (ms, r) →
  length r < length s
  ∧ ∀ m m', length s - length r ≤ m → length s - length r ≤ m' →
      parse_members (parse_value m) m' s = Some (ms, r).
Proof.
  induction fuel as [|fuel IH]; intros s ms r; [done|].
  cbn [parse_members]. intros H.
  pose proof (skip_ws_length s) as Hws0.
  destruct (strip [dquote] (skip_ws s)) as [r0|] eqn:Hr0; [|done].
  cbn [mbind option_bind] in H. apply strip_length in Hr0 as Hlen0.
  destruct (parse_string r0) as [[k r1]|] eqn:Hk; [|done].
  cbn [mbind option_bind] in H. apply parse_string_length in Hk as Hlen1.
  pose proof (skip_ws_length r1) as Hws1.
  destruct (strip [":"] (skip_ws r1)) as [r2|] eqn:Hr2; [|done].
  cbn [mbind option_bind] in H. apply strip_length in Hr2 as Hlen2.
  destruct (pv r2) as [[v r3]|] eqn:Hv; [|done]. cbn [mbind option_bind] in H.
  apply pv_fuelled in Hv as [Hlen3 Hv].
  pose proof (skip_ws_length r3) as Hws3.
  destruct (skip_ws r3) as [|c r4] eqn:Hr3; [done|]. cbn [length] in *.
  destruct (Ascii.eqb c ",") eqn:Hc1; [|destruct (Ascii.eqb c "}") eqn:Hc2];
    [| |done].
  - destruct (parse_members pv fuel r4) as [[ms' r5]|] eqn:Hms; [|done].
    injection H as <- <-. apply IH in Hms as [Hlen5 Hms].
    split; [lia|]. intros m [|m'] Hm Hm'; [lia|].
    cbn [parse_members]. rewrite Hr0. cbn [mbind option_bind].
    rewrite Hk. cbn [mbind option_bind]. rewrite Hr2. cbn [mbind option_bind].
    rewrite Hv by lia. cbn [mbind option_bind].
    rewrite Hr3, Hc1, Hms by lia. done.
  - injection H as <- <-. split; [lia|]. intros m [|m'] Hm Hm'; [lia|].
    cbn [parse_members]. rewrite Hr0. cbn [mbind option_bind].
    rewrite Hk. cbn [mbind option_bind]. rewrite Hr2. cbn [mbind option_bind].
    rewrite Hv by lia. cbn [mbind option_bind].
    by rewrite Hr3, Hc1, Hc2.
Qed.

Lemma parse_dispatch_fuel fuel s v r :
  parse_dispatch pv fuel s = Some (v, r) →
  length r < length s
  ∧ ∀ m, length s - length r ≤ m → parse_value m s = Some (v, r).
Proof.
  unfold parse_dispatch. pose proof (skip_ws_length s) as Hws.
  destruct (skip_ws s) as [|c r0] eqn:Hskip; [done|]. cbn [length] in Hws.
  destruct (Ascii.eqb c "n") eqn:Hn.
  { destruct (strip (chars "ull") r0) as [r'|] eqn:Hr; [|done]. intros [= <- <-].
    apply strip_length in Hr as Hlen. simpl in Hlen. split; [lia|].
    intros [|m] Hm; [lia|]. cbn [parse_value]. unfold parse_dispatch.
    by rewrite Hskip, Hn, Hr. }
  destruct (Ascii.eqb c "t") eqn:Ht.
  { destruct (strip (chars "rue") r0) as [r'|] eqn:Hr; [|done]. intros [= <- <-].
    apply strip_length in Hr as Hlen. simpl in Hlen. split; [lia|].
    intros [|m] Hm; [lia|]. cbn [parse_value]. unfold parse_dispatch.
    by rewrite Hskip, Hn, Ht, Hr. }
  destruct (Ascii.eqb c "f") eqn:Hf.
  { destruct (strip (chars "alse") r0) as [r'|] eqn:Hr; [|done]. intros [= <- <-].
    apply strip_length in Hr as Hlen. simpl in Hlen. split; [lia|].
    intros [|m] Hm; [lia|]. cbn [parse_value]. unfold parse_dispatch.
    by rewrite Hskip, Hn, Ht, Hf, Hr. }
  destruct (Ascii.eqb c dquote) eqn:Hq.
  { destruct (parse_string r0) as [[str r']|] eqn:Hr; [|done]. intros [= <- <-].
    apply parse_string_length in Hr as Hlen. split; [lia|].
    intros [|m] Hm; [lia|]. cbn [parse_value]. unfold parse_dispatch.
    by rewrite Hskip, Hn, Ht, Hf, Hq, Hr. }
  destruct (Ascii.eqb c "[") eqn:Ha.
  { pose proof (skip_ws_length r0) as Hws0.
    destruct (strip ["]"] (skip_ws r0)) as [r'|] eqn:Hr.
    - intros [= <- <-]. apply strip_length in Hr as Hlen. simpl in Hlen.
      split; [lia|]. intros [|m] Hm; [lia|]. cbn [parse_value].
      unfold parse_dispatch. by rewrite Hskip, Hn, Ht, Hf, Hq, Ha, Hr.
    - destruct (parse_elements pv fuel r0) as [[vs r']|] eqn:Hvs; [|done].
      intros [= <- <-]. apply parse_elements_fuel in Hvs as [Hlen Hvs].
      split; [lia|]. intros [|m] Hm; [lia|]. cbn [parse_value].
      unfold parse_dispatch. rewrite Hskip, Hn, Ht, Hf, Hq, Ha, Hr.
      by rewrite Hvs by lia. }
  destruct (Ascii.eqb c "{") eqn:Ho.
  { pose proof (skip_ws_length r0) as Hws0.
    destruct (strip ["}"] (skip_ws r0)) as [r'|] eqn:Hr.
    - intros [= <- <-]. apply strip_length in Hr as Hlen. simpl in Hlen.
      split; [lia|]. intros [|m] Hm; [lia|]. cbn [parse_value].
      unfold parse_dispatch. by rewrite Hskip, Hn, Ht, Hf, Hq, Ha, Ho, Hr.
    - destruct (parse_members pv fuel r0) as [[ms r']|] eqn:Hms; [|done].
      intros [= <- <-]. apply parse_members_fuel in Hms as [Hlen Hms].
      split; [lia|]. intros [|m] Hm; [lia|]. cbn [parse_value].
      unfold parse_dispatch. rewrite Hskip, Hn, Ht, Hf, Hq, Ha, Ho, Hr.
      by rewrite Hms by lia. }
  intros Hnum. apply parse_number_length in Hnum as Hlen. cbn [length] in Hlen.
  split; [lia|]. intros [|m] Hm; [lia|]. cbn [parse_value].
  unfold parse_dispatch. by rewrite Hskip, Hn, Ht, Hf, Hq, Ha, Ho.
Qed.

End fuel.

Lemma parse_value_fuelled n : fuelled (parse_value n).
Proof.
  induction n as [|n IH]; intros s v r; [done|].
  cbn [parse_value]. by apply parse_dispatch_fuel.
Qed.

(** Whatever [parse_value] reads with some fuel, it reads with the fuel
    that [JSON_parse] gives it. *)
Lemma parse_value_enough n s v r :
  parse_value n s = Some (v, r) → parse_value (S (length s)) s = Some (v, r).
Proof. intros [_ H]%parse_value_fuelled. apply H. lia. Qed.

Lemma JSON_parse_wf text v : JSON_parse text = Some v → wf_json v = true.
Proof.
  unfold JSON_parse. intros H.
  destruct (parse_value _ _) as [[v' r]|] eqn:Hv; [|done].
  cbn [mbind option_bind] in H. destruct (skip_ws r); [|done].
  injection H as <-. by eapply parse_value_wf.
Qed.

End RoundTrip.
Export RoundTrip.

Local Close Scope char_scope.

(** ** Paths *)

Lemma append_ne_self (p s : string) : s ≠ EmptyString → p +:+ s ≠ p.
Proof.
  intros Hs. induction p as [|c p IH]; simpl; [done|].
  intros [=]. done.
Qed.

Lemma append_inj_r (p a b : string) : p +:+ a = p +:+ b → a = b.
Proof. induction p as [|c p IH]; simpl; [done|]. intros [=]. auto. Qed.

Lemma append_assoc (a b c : string) : (a +:+ b) +:+ c = a +:+ (b +:+ c).
Proof.
  induction a as [|x a IH]; [done|].
  change (String x ((a +:+ b) +:+ c) = String x (a +:+ b +:+ c)). by f_equal.
Qed.

Lemma tmp_ne (p : string) : p +:+ ".tmp" ≠ p.
Proof. by apply append_ne_self. Qed.

Lemma bak_ne (p : string) : p +:+ ".bak" ≠ p.
Proof. by apply append_ne_self. Qed.

Lemma tmp_ne_bak (p : string) : p +:+ ".tmp" ≠ p +:+ ".bak".
Proof. by intros ?%append_inj_r. Qed.

(** ** [writeJson], step by step *)

Section writeJson_facts.
Import FileHandler.

Lemma backup_block_run filePath σ :
  try_catch (access filePath ;; copyFile filePath (filePath +:+ ".bak"))
    (λ _, resolve ()) σ
  = (Ok (), after_backup filePath σ).
Proof.
  unfold try_catch, after_backup, mbind, Promise_bind, await, access, copyFile, resolve.
  destruct (σ !! filePath) as [[c|]|] eqn:Hp; simpl; rewrite ?Hp;
    by destruct (σ !! (filePath +:+ ".bak")) as [[c'|]|].
Qed.

Lemma after_backup_other filePath σ q :
  q ≠ filePath +:+ ".bak" → after_backup filePath σ !! q = σ !! q.
Proof.
  intros Hq. unfold after_backup.
  destruct (σ !! filePath) as [[c|]|];
    destruct (σ !! (filePath +:+ ".bak")) as [[c'|]|];
    by rewrite ?lookup_insert_ne.
Qed.

(** The whole of [writeJson] in closed form. *)
Lemma writeJson_run filePath data σ :
  let tmpPath := filePath +:+ ".tmp" in
  let σ1 := after_backup filePath σ in
  writeJson filePath data σ =
    match σ1 !! tmpPath with
    | Some Dir => (Throw (EISDIR tmpPath), σ1)
    | _ =>
        match σ1 !! filePath with
        | Some Dir =>
            (Throw (EISDIR filePath), <[tmpPath := File (document_text data)]> σ1)
        | _ =>
            (Ok (), <[filePath := File (document_text data)]> (delete tmpPath σ1))
        end
    end.
Proof.
  intros tmpPath σ1. unfold writeJson.
  change (try_catch _ _ ;; ?k) with
    (await (try_catch (access filePath ;; copyFile filePath (filePath +:+ ".bak"))
              (λ _, resolve ())) (λ _, k)).
  unfold await at 1. rewrite backup_block_run. fold σ1. fold tmpPath.
  unfold mbind, Promise_bind, await, writeFile, rename. fold (document_text data).
  assert (tmpPath ≠ filePath) as Hne by apply tmp_ne.
  destruct (σ1 !! tmpPath) as [[c|]|] eqn:Htmp; [|done|];
    rewrite lookup_insert_eq, lookup_insert_ne by done;
    (destruct (σ1 !! filePath) as [[c'|]|]; [|done|]);
    by rewrite delete_insert_eq.
Qed.

End writeJson_facts.

Section file_facts.
Import FileHandler.

Lemma writeJson_frame filePath data σ r σ' q :
  writeJson filePath data σ = (r, σ') →
  q ≠ filePath → q ≠ filePath +:+ ".tmp" → q ≠ filePath +:+ ".bak" →
  σ' !! q = σ !! q.
Proof.
  rewrite writeJson_run. cbv zeta. intros H Hq Htmp Hbak.
  rewrite <- (after_backup_other filePath σ q Hbak).
  repeat case_match; simplify_eq;
    by rewrite ?lookup_insert_ne, ?lookup_delete_ne by done.
Qed.

Lemma writeJson_ok filePath data σ σ' :
  writeJson filePath data σ = (Ok (), σ') →
  σ' !! filePath = Some (File (document_text data))
  ∧ σ' !! (filePath +:+ ".tmp") = None
  ∧ σ' !! (filePath +:+ ".bak") = after_backup filePath σ !! (filePath +:+ ".bak").
Proof.
  rewrite writeJson_run. cbv zeta. intros H.
  pose proof (tmp_ne filePath). pose proof (bak_ne filePath).
  pose proof (tmp_ne_bak filePath).
  repeat case_match; simplify_eq;
    by rewrite lookup_insert_eq, !lookup_insert_ne, lookup_delete_eq,
         lookup_delete_ne by done.
Qed.

(** [writeJson] resolves unless a directory stands at the target or at
    the temporary path. *)
Lemma writeJson_resolves filePath data σ :
  σ !! filePath ≠ Some Dir → σ !! (filePath +:+ ".tmp") ≠ Some Dir →
  ∃ σ', writeJson filePath data σ = (Ok (), σ').
Proof.
  intros Hfile Htmp. rewrite writeJson_run. cbv zeta.
  rewrite !after_backup_other by (apply tmp_ne_bak || apply not_eq_sym, bak_ne).
  destruct (σ !! (filePath +:+ ".tmp")) as [[]|]; [|done|];
    destruct (σ !! filePath) as [[]|]; by eauto.
Qed.

(** A write that resolves puts no directory anywhere. *)
Lemma writeJson_no_new_dir filePath data σ σ' q :
  writeJson filePath data σ = (Ok (), σ') →
  σ !! q ≠ Some Dir → σ' !! q ≠ Some Dir.
Proof.
  intros Hw Hq.
  destruct (writeJson_ok _ _ _ _ Hw) as (Hfile & Htmp & Hbak).
  destruct (decide (q = filePath)) as [->|Hne1]; [by rewrite Hfile|].
  destruct (decide (q = filePath +:+ ".tmp")) as [->|Hne2]; [by rewrite Htmp|].
  destruct (decide (q = filePath +:+ ".bak")) as [->|Hne3].
  - rewrite Hbak. unfold after_backup.
    destruct (σ !! filePath) as [[c|]|]; [|done|done].
    destruct (σ !! (filePath +:+ ".bak")) as [[c'|]|]; [|done|];
      by rewrite lookup_insert_eq.
  - by rewrite (writeJson_frame _ _ _ _ _ _ Hw).
Qed.

Lemma readJsonRaw_run filePath σ :
  readJsonRaw filePath σ =
    (match σ !! filePath with
     | Some (File content) =>
         match JSON_parse content with
         | Some v => Ok v
         | None => Throw SyntaxError
         end
     | Some Dir => Throw (EISDIR filePath)
     | None => Throw (ENOENT filePath)
     end, σ).
Proof.
  unfold readJsonRaw, mbind, Promise_bind, await, readFile.
  destruct (σ !! filePath) as [[c|]|]; [|done|done].
  by destruct (JSON_parse c).
Qed.

Lemma readJsonRaw_state filePath σ : (readJsonRaw filePath σ).2 = σ.
Proof. by rewrite readJsonRaw_run. Qed.

Lemma readJsonRaw_ext filePath σ σ' :
  σ' !! filePath = σ !! filePath →
  (readJsonRaw filePath σ').1 = (readJsonRaw filePath σ).1.
Proof. intros H. by rewrite !readJsonRaw_run, H. Qed.

Lemma readJsonRaw_wf filePath σ v σ' :
  readJsonRaw filePath σ = (Ok v, σ') → wf_json v = true.
Proof.
  rewrite readJsonRaw_run. intros [= H _].
  repeat case_match; simplify_eq. by eapply JSON_parse_wf.
Qed.

(** What [writeJson] has written, [readJsonRaw] reads back. *)
Lemma readJsonRaw_written filePath σ v :
  σ !! filePath = Some (File (document_text v)) → wf_json v = true →
  readJsonRaw filePath σ = (Ok v, σ).
Proof.
  intros Hfile Hwf. by rewrite readJsonRaw_run, Hfile, JSON_parse_stringify.
Qed.

End file_facts.

(** ** Numbers *)

(** Inside the safe range the sum of two integers is exact. *)
Lemma add_exact (a b : Z) :
  (- Number.LIMIT ≤ a + b ≤ Number.LIMIT)%Z → Number.add a b = (a + b)%Z.
Proof.
  intros H. unfold Number.add, Number.round.
  destruct (Z.leb_spec (Z.abs (a + b)) Number.LIMIT) as [_|Habs]; [done|lia].
Qed.

(** A value that converts to a string goes through a log line. *)
Lemma info_run (id : Z) (name : option json) :
  Logger.info [Some (JNum id); name]
  = if from_option Logger.stringable true name then resolve () else throw TypeError.
Proof. unfold Logger.info. simpl. by rewrite andb_true_r. Qed.

(** A record whose name is a string, as the record type declares, or that
    has no name, goes through the log line. *)
Lemma loggable_string (entity : obj) :
  match obj_get "name" entity with
  | Some (JStr _) | None => True
  | _ => False
  end →
  loggable entity.
Proof. unfold loggable. by destruct (obj_get "name" entity) as [[]|]. Qed.

(** ** The ledger *)

Section ledger_facts.
Import FileHandler VersionSync.

Lemma current_state self σ : (current self σ).2 = σ.
Proof.
  unfold current, mbind, Promise_bind, await.
  rewrite readJsonRaw_run.
  destruct (σ !! systemPath self) as [[c|]|]; [|done|done].
  by destruct (JSON_parse c) as [[]|].
Qed.

Lemma current_ledger self σ o :
  ledger_is self σ o → current self σ = (Ok (counter o), σ).
Proof.
  unfold ledger_is, current, mbind, Promise_bind, await. by intros ->.
Qed.

Lemma obj_get_set k k' v (o : obj) :
  obj_get k (obj_set k' v o) = if String.eqb k k' then Some v else obj_get k o.
Proof.
  induction o as [|[k1 v1] o IH]; simpl.
  - by destruct (String.eqb_spec k k').
  - destruct (String.eqb_spec k' k1) as [->|Hne]; simpl.
    + by destruct (String.eqb_spec k k1).
    + rewrite IH. destruct (String.eqb_spec k k1) as [->|]; [|done].
      by destruct (String.eqb_spec k1 k').
Qed.

Lemma counter_set n o : counter (obj_set "versionId" (JNum n) o) = n.
Proof. unfold counter. by rewrite obj_get_set. Qed.

Lemma bump_frame self σ r σ' q :
  bump self σ = (r, σ') →
  q ≠ systemPath self → q ≠ systemPath self +:+ ".tmp" →
  q ≠ systemPath self +:+ ".bak" →
  σ' !! q = σ !! q.
Proof.
  unfold bump, mbind, Promise_bind, await. rewrite readJsonRaw_run.
  intros H Hq Htmp Hbak.
  destruct (σ !! systemPath self) as [[c|]|]; simplify_eq; [|done|done].
  destruct (JSON_parse c) as [system|]; simplify_eq; [|done].
  destruct system; simpl in H; unfold await, throw, resolve in H;
    simplify_eq; try done;
    match type of H with
    | context [writeJson ?p ?d ?s] =>
        destruct (writeJson p d s) as [[[]|e] σ1] eqn:Hw; simplify_eq;
        by eapply writeJson_frame
    end.
Qed.

(** [bump] on a ledger object: the write is the only step that can fail. *)
Lemma bump_ledger self σ o :
  ledger_is self σ o →
  let next := Number.add (counter o) 1 in
  let system := JObj (obj_set "versionId" (JNum next) o) in
  bump self σ =
    match writeJson (systemPath self) system σ with
    | (Ok _, σ') => (Ok next, σ')
    | (Throw e, σ') => (Throw e, σ')
    end.
Proof.
  unfold ledger_is, bump, mbind, Promise_bind, await. intros ->. simpl.
  unfold await, resolve. by destruct (writeJson _ _ σ) as [[[]|e] σ'].
Qed.

Lemma ledger_is_file self σ o :
  ledger_is self σ o → ∃ content, σ !! systemPath self = Some (File content).
Proof.
  unfold ledger_is. rewrite readJsonRaw_run.
  destruct (σ !! systemPath self) as [[c|]|]; [eauto|done|done].
Qed.

Lemma bump_resolves self σ o :
  ledger_is self σ o → σ !! (systemPath self +:+ ".tmp") ≠ Some Dir →
  ∃ n σ', bump self σ = (Ok n, σ').
Proof.
  intros Hled Htmp. rewrite (bump_ledger self σ o Hled). cbv zeta.
  destruct (ledger_is_file _ _ _ Hled) as [c Hc].
  destruct (writeJson_resolves (systemPath self)
              (JObj (obj_set "versionId" (JNum (Number.add (counter o) 1)) o)) σ)
    as [σ' ->]; [by rewrite Hc|done|eauto].
Qed.

Lemma bump_ledger_ok self σ o n σ' :
  ledger_is self σ o → bump self σ = (Ok n, σ') →
  n = Number.add (counter o) 1
  ∧ ledger_is self σ' (obj_set "versionId" (JNum n) o).
Proof.
  intros Hled. rewrite (bump_ledger self σ o Hled). cbv zeta.
  destruct (writeJson _ _ σ) as [[[]|e] σ1] eqn:Hw; intros [= <- <-].
  split; [done|]. apply writeJson_ok in Hw as (Hfile & _).
  apply readJsonRaw_written; [done|].
  apply obj_set_wf; [done|]. by eapply readJsonRaw_wf.
Qed.

End ledger_facts.

(** ** The record array *)

Section array_facts.
Import FileHandler VersionSync DatabaseManager.

Lemma readArray_run self σ :
  readArray self σ =
    (match (readJsonRaw (filePath self) σ).1 with
     | Ok (JArr items) => Ok items
     | Ok _ => Throw TypeError
     | Throw e => Throw e
     end, σ).
Proof.
  unfold readArray, mbind, Promise_bind, await.
  pose proof (readJsonRaw_state (filePath self) σ) as Hσ.
  destruct (readJsonRaw (filePath self) σ) as [[[]|e] σ']; simpl in *; by subst.
Qed.

Lemma readArray_state self σ : (readArray self σ).2 = σ.
Proof. by rewrite readArray_run. Qed.

Lemma list_state self σ : (list self σ).2 = σ.
Proof.
  pose proof (readArray_state self σ) as Hσ.
  unfold list, mbind, Promise_bind, await, resolve.
  by destruct (readArray self σ) as [[arr|e] σ0].
Qed.

Lemma array_is_ext self σ σ' arr :
  σ' !! filePath self = σ !! filePath self →
  array_is self σ arr → array_is self σ' arr.
Proof.
  unfold array_is. rewrite !readArray_run. intros H%readJsonRaw_ext.
  rewrite H. by intros [= ->].
Qed.

Lemma array_is_wf self σ arr : array_is self σ arr → wf_json (JArr arr) = true.
Proof.
  unfold array_is. rewrite readArray_run. intros [= H].
  destruct (readJsonRaw (filePath self) σ) as [[[]|e] σ'] eqn:Hr;
    simpl in H; simplify_eq.
  by eapply readJsonRaw_wf.
Qed.

Lemma array_is_written self σ arr :
  σ !! filePath self = Some (File (document_text (JArr arr))) →
  wf_json (JArr arr) = true → array_is self σ arr.
Proof.
  intros Hfile Hwf. unfold array_is.
  by rewrite readArray_run, (readJsonRaw_written _ _ _ Hfile Hwf).
Qed.

Lemma ledger_is_ext self σ σ' o :
  σ' !! systemPath self = σ !! systemPath self →
  ledger_is self σ o → ledger_is self σ' o.
Proof.
  unfold ledger_is. intros H%readJsonRaw_ext Hl.
  pose proof (readJsonRaw_state (systemPath self) σ').
  destruct (readJsonRaw (systemPath self) σ') as [r σ1]. simpl in *.
  subst. by rewrite Hl.
Qed.

(** [writeArray]: two steps, either of which can reject. *)
Lemma writeArray_ok self data σ σ' :
  writeArray self data σ = (Ok (), σ') →
  ∃ σ1 n, writeJson (filePath self) (JArr data) σ = (Ok (), σ1)
          ∧ bump (versionSync self) σ1 = (Ok n, σ').
Proof.
  unfold writeArray, mbind, Promise_bind, await, resolve.
  destruct (writeJson _ _ σ) as [[[]|e] σ1] eqn:Hw; [|done].
  destruct (bump _ σ1) as [[n|e] σ2] eqn:Hb; [|done].
  intros [= <-]. by exists σ1, n.
Qed.

(** The ledger after a write of the array: one more. *)
Lemma writeArray_ledger self data σ σ' o :
  separate self → ledger_is (versionSync self) σ o →
  writeArray self data σ = (Ok (), σ') →
  ledger_is (versionSync self) σ'
    (obj_set "versionId" (JNum (Number.add (counter o) 1)) o).
Proof.
  intros (Hne & _ & _ & Htmp & Hbak) Hled (σ1 & n & Hw & Hb)%writeArray_ok.
  assert (ledger_is (versionSync self) σ1 o) as Hled1.
  { eapply ledger_is_ext; [|done]. by eapply writeJson_frame. }
  by destruct (bump_ledger_ok _ _ _ _ _ Hled1 Hb) as [-> ?].
Qed.

(** The array after a write of the array: what was written. *)
Lemma writeArray_array self data σ σ' :
  separate self → wf_json (JArr data) = true →
  writeArray self data σ = (Ok (), σ') →
  array_is self σ' data.
Proof.
  intros (Hne & Htmp & Hbak & _) Hwf (σ1 & n & Hw & Hb)%writeArray_ok.
  apply writeJson_ok in Hw as (Hfile & _).
  apply array_is_written; [|done].
  by rewrite (bump_frame _ _ _ _ _ Hb).
Qed.

Lemma array_is_file self σ arr :
  array_is self σ arr → ∃ content, σ !! filePath self = Some (File content).
Proof.
  unfold array_is. rewrite readArray_run, readJsonRaw_run. intros [= H].
  destruct (σ !! filePath self) as [[c|]|]; [eauto|done|done].
Qed.

(** [writeArray] resolves unless a directory stands at one of the two
    temporary paths. *)
Lemma writeArray_resolves self data σ arr o :
  separate self → array_is self σ arr → ledger_is (versionSync self) σ o →
  σ !! (filePath self +:+ ".tmp") ≠ Some Dir →
  σ !! (systemPath (versionSync self) +:+ ".tmp") ≠ Some Dir →
  ∃ σ', writeArray self data σ = (Ok (), σ').
Proof.
  intros (Hne & Hne1 & _ & Htmp & Hbak) [c Hc]%array_is_file Hled Htmp1 Htmp2.
  destruct (writeJson_resolves (filePath self) (JArr data) σ) as [σ1 Hw];
    [by rewrite Hc|done|].
  assert (ledger_is (versionSync self) σ1 o) as Hled1.
  { eapply ledger_is_ext; [|done]. by eapply writeJson_frame. }
  destruct (bump_resolves _ _ _ Hled1) as (n & σ' & Hb).
  { by eapply writeJson_no_new_dir. }
  exists σ'. unfold writeArray, mbind, Promise_bind, await, resolve.
  by rewrite Hw, Hb.
Qed.

End array_facts.

Section op_facts.
Import FileHandler VersionSync DatabaseManager.

Lemma run_op_ok self o σ out σ' :
  run_op self o σ = (Ok out, σ') →
  ∃ arr data', array_is self σ arr
               ∧ writes self arr o out data'
               ∧ writeArray self data' σ = (Ok (), σ').
Proof.
  destruct o as [data|id data|id protectFirst]; simpl;
    unfold create, update, delete, mbind, Promise_bind, await.
  - pose proof (readArray_state self σ) as Hσ.
    destruct (readArray self σ) as [[arr|e] σ0] eqn:Hr; [|done].
    simpl in Hσ. subst σ0.
    destruct (writeArray self _ σ) as [[[]|e] σ1] eqn:Hw; [|done].
    rewrite info_run. destruct (from_option Logger.stringable _ _); [|done].
    intros [= <- <-]. by eexists arr, _.
  - pose proof (readArray_state self σ) as Hσ.
    destruct (readArray self σ) as [[arr|e] σ0] eqn:Hr; [|done].
    simpl in Hσ. subst σ0.
    destruct (missing arr id) eqn:Hm; [done|].
    destruct (writeArray self _ σ) as [[[]|e] σ1] eqn:Hw; [|done].
    rewrite info_run. destruct (from_option Logger.stringable _ _); [|done].
    intros [= <- <-]. by eexists arr, _.
  - destruct (protectFirst && (id =? 1)%Z) eqn:Hp; [done|].
    pose proof (readArray_state self σ) as Hσ.
    destruct (readArray self σ) as [[arr|e] σ0] eqn:Hr; [|done].
    simpl in Hσ. subst σ0.
    destruct (missing arr id) eqn:Hm; [done|].
    destruct (writeArray self _ σ) as [[[]|e] σ1] eqn:Hw; [|done].
    rewrite info_run. destruct (from_option Logger.stringable _ _); [|done].
    intros [= <- <-]. by eexists arr, _.
Qed.

Lemma array_is_inj self σ arr arr' :
  array_is self σ arr → array_is self σ arr' → arr = arr'.
Proof. unfold array_is. by intros -> [=]. Qed.

(** *** The values written are JavaScript values *)

Lemma spread_wf base data id :
  js_props base → js_props data → wf_json (JObj (spread base data id)) = true.
Proof.
  intros Hbase Hdata. unfold spread.
  apply obj_set_wf; [done|]. apply obj_assign_wf; [done|].
  by apply obj_assign_wf.
Qed.

Lemma own_props_wf v : wf_json v = true → js_props (own_props v).
Proof.
  destruct v as [| | |s|items|o]; try (intros; by apply Forall_nil).
  - intros _. unfold js_props. simpl. rewrite Forall_forall.
    intros [k x] Hin. apply list_elem_of_lookup in Hin as [i Hi].
    rewrite list_lookup_imap in Hi.
    destruct (list_ascii_of_string s !! i); by simplify_eq/=.
  - intros Hwf%wf_json_arr. unfold js_props. simpl. rewrite Forall_forall.
    intros [k x] Hin. apply list_elem_of_lookup in Hin as [i Hi].
    rewrite list_lookup_imap in Hi.
    destruct (items !! i) as [y|] eqn:Hy; simplify_eq/=.
    rewrite Forall_forall in Hwf. apply Hwf. by eapply list_elem_of_lookup_2.
  - by intros [_ ?]%wf_json_obj.
Qed.

Lemma index_wf arr id :
  wf_json (JArr arr) = true → wf_json (default JNull (index arr id)) = true.
Proof.
  intros Hwf%wf_json_arr. unfold index.
  destruct (id <? 0)%Z; [done|].
  destruct (arr !! Z.to_nat id) as [x|] eqn:Hx; [|done]. simpl.
  rewrite Forall_forall in Hwf. apply Hwf. by eapply list_elem_of_lookup_2.
Qed.

Lemma writes_wf self arr o out data' :
  js_op self o → wf_json (JArr arr) = true →
  writes self arr o out data' → wf_json (JArr data') = true.
Proof.
  intros Hop Hwf. pose proof Hwf as Harr%wf_json_arr.
  destruct o as [data|id data|id protectFirst], out as [id' entity|entity|];
    simpl; try done.
  - destruct Hop as [Hdata Hdef]. intros (-> & -> & ->).
    apply wf_json_arr, Forall_app. split; [done|].
    apply Forall_singleton. by apply spread_wf.
  - intros (_ & -> & ->). apply wf_json_arr, Forall_insert; [done|].
    apply spread_wf; [|done]. by apply own_props_wf, index_wf.
  - intros (_ & _ & ->). by apply wf_json_arr, Forall_insert.
Qed.

(** *** One resolved operation: the array and the ledger afterwards *)

Lemma run_op_array self o σ out σ' arr :
  separate self → js_op self o → array_is self σ arr →
  run_op self o σ = (Ok out, σ') →
  ∃ data', writes self arr o out data' ∧ array_is self σ' data'.
Proof.
  intros Hsep Hop Harr (arr' & data' & Harr' & Hw & Hrun)%run_op_ok.
  rewrite <- (array_is_inj _ _ _ _ Harr Harr') in Hw.
  exists data'. split; [done|].
  eapply writeArray_array; [done| |done].
  eapply writes_wf; [done| |done]. by eapply array_is_wf.
Qed.

Lemma run_op_ledger self op σ out σ' o :
  separate self → ledger_is (versionSync self) σ o →
  run_op self op σ = (Ok out, σ') →
  ledger_is (versionSync self) σ'
    (obj_set "versionId" (JNum (Number.add (counter o) 1)) o).
Proof.
  intros Hsep Hled (arr & data' & _ & _ & Hrun)%run_op_ok.
  by eapply writeArray_ledger.
Qed.

End op_facts.

(** * The claims *)

(** The managers that the tools build, [getManager] in database-tools.ts,
    keep the array document and the ledger document separate. *)
Lemma tool_managers_separate projectPath filename factory :
  filename ∈ ENTITY_FILENAMES →
  separate (DatabaseManager.new projectPath filename factory
              (VersionSync.new projectPath)).
Proof.
  intros Hin. unfold separate. cbn [filePath versionSync systemPath
    DatabaseManager.new VersionSync.new path_join foldl].
  rewrite !append_assoc.
  unfold ENTITY_FILENAMES in Hin.
  repeat (apply elem_of_cons in Hin as [->|Hin]);
    [..|by apply elem_of_nil in Hin];
    split_and!; intros H; repeat (apply append_inj_r in H); discriminate H.
Qed.

Lemma demo_separate : separate demo_manager.
Proof. by repeat split. Qed.

Lemma demo_factory_js id : js_props (demo_factory id).
Proof. by repeat constructor. Qed.

(** Running on a concrete disk: the outcome is computed, the disk that is
    left is named, not spelled out. *)
Lemma run_fst {A} (p : Promise A) (σ : gmap string node) (a : A) :
  (p σ).1 = Ok a → p σ = (Ok a, (p σ).2).
Proof. destruct (p σ) as [r σ']. simpl. by intros ->. Qed.

Lemma run_read {A} (p : Promise A) (σ : gmap string node) (a : A) :
  (p σ).2 = σ → (p σ).1 = Ok a → p σ = (Ok a, σ).
Proof. destruct (p σ) as [r σ']. simpl. by intros -> ->. Qed.

(** ** C5: the protected delete *)

(** C5. [delete(1, true)] rejects with the error of the protected record
    before it reads anything.  The file system it leaves is the one it was
    given: the array document and its backup are what they were, byte for
    byte, and the ledger counter reads as before. *)
Theorem protected_delete_touches_nothing (self : DatabaseManager) (σ : gmap string node) :
  ∃ σ',
    DatabaseManager.delete self 1 true σ
    = (Throw (Error "Cannot delete system default entity (ID 1)"), σ')
    ∧ σ' = σ
    ∧ readFile (filePath self) σ' = readFile (filePath self) σ
    ∧ σ' !! (filePath self +:+ ".bak") = σ !! (filePath self +:+ ".bak")
    ∧ VersionSync.current (versionSync self) σ'
      = VersionSync.current (versionSync self) σ.
Proof.
  exists σ. unfold DatabaseManager.delete.
  change (true && (1 =? 1)%Z) with true. cbv iota.
  by split_and!.
Qed.

(** ** C10: the read-only operations *)

(** C10. [list], [get], [search] and [current] leave the file system as it
    was, whether they resolve or reject; hence every document, and the
    counter in the ledger, is the same after the call. *)
Theorem read_only_operations (self : DatabaseManager) (id : Z) (query : string)
    (fields : list string) (σ : gmap string node) :
  (DatabaseManager.list self σ).2 = σ
  ∧ (DatabaseManager.get self id σ).2 = σ
  ∧ (DatabaseManager.search self query fields σ).2 = σ
  ∧ (VersionSync.current (versionSync self) σ).2 = σ.
Proof.
  pose proof (readArray_state self σ) as Hσ.
  unfold DatabaseManager.search, DatabaseManager.list, DatabaseManager.get,
    mbind, Promise_bind, await, resolve, throw.
  destruct (DatabaseManager.readArray self σ) as [[arr|e] σ0]; simpl in Hσ; subst σ0.
  - split_and!; try done; [by destruct (DatabaseManager.missing arr id)|].
    apply current_state.
  - split_and!; try done. apply current_state.
Qed.

(** ** C9: validation without a data directory *)

Section validate_facts.
Import FileHandler ProjectManager.

Lemma exists_run filePath σ :
  exists_ filePath σ = (Ok (bool_decide (is_Some (σ !! filePath))), σ).
Proof.
  unfold exists_, try_catch, mbind, Promise_bind, await, access, resolve.
  by destruct (σ !! filePath) as [n|].
Qed.

Lemma find_project_file_run self σ names :
  find_project_file self names σ
  = (Ok (existsb (λ name, bool_decide (is_Some (σ !! path_join [projectPath self; name])))
           names), σ).
Proof.
  induction names as [|name names IH]; [done|].
  cbn [find_project_file existsb]. unfold mbind, Promise_bind, await.
  rewrite exists_run. by destruct (bool_decide _).
Qed.

End validate_facts.




(** ** C8: bumping the ledger *)

(** C8, as the code has it.  On a ledger document that is a JSON object,
    whose [versionId] is missing, is not a number, or is an integer from
    [-2^53] to [2^53 - 1], [bump] resolves unless a directory stands at the
    temporary path; it returns 1 when [versionId] is missing or is not a
    number, and the number plus one otherwise; the document it leaves is the
    old object with [versionId] set to that value, so every other property
    reads as before; and [current] then returns the new value. *)
Theorem bump_increments_and_preserves (self : VersionSync) (σ : gmap string node)
    (o : obj) :
  ledger_is self σ o →
  match obj_get "versionId" o with
  | Some (JNum c) => (- Number.LIMIT ≤ c < Number.LIMIT)%Z
  | _ => True
  end →
  (σ !! (systemPath self +:+ ".tmp") ≠ Some Dir →
   ∃ n σ', VersionSync.bump self σ = (Ok n, σ'))
  ∧ ∀ n σ', VersionSync.bump self σ = (Ok n, σ') →
      n = match obj_get "versionId" o with
          | Some (JNum c) => (c + 1)%Z
          | _ => 1%Z
          end
      ∧ ledger_is self σ' (obj_set "versionId" (JNum n) o)
      ∧ VersionSync.current self σ' = (Ok n, σ')
      ∧ ∀ k, k ≠ "versionId" →
          obj_get k (obj_set "versionId" (JNum n) o) = obj_get k o.
Proof.
  intros Hled Hrange. split.
  - intros Htmp. by eapply bump_resolves.
  - intros n σ' Hb.
    destruct (bump_ledger_ok self σ o n σ' Hled Hb) as [-> Hled'].
    split_and!; [|done| |].
    + unfold counter.
      destruct (obj_get "versionId" o) as [[| |c| | |]|]; try reflexivity.
      apply add_exact. lia.
    + by rewrite (current_ledger _ _ _ Hled'), counter_set.
    + intros k Hk. rewrite obj_get_set.
      by destruct (String.eqb_spec k "versionId").
Qed.

(** A ledger whose [versionId] is a string: [bump] takes it for 0, writes
    1, and keeps the game title. *)
Lemma bump_increments_and_preserves_witness :
  let ledger := [("versionId", JStr "7"); ("gameTitle", JStr "Demo")] in
  let σ := disk [(systemPath demo_sync, JObj ledger)] in
  ledger_is demo_sync σ ledger
  ∧ (∃ n σ', VersionSync.bump demo_sync σ = (Ok n, σ'))
  ∧ ∀ n σ', VersionSync.bump demo_sync σ = (Ok n, σ') →
      n = 1%Z
      ∧ VersionSync.current demo_sync σ' = (Ok 1%Z, σ')
      ∧ obj_get "gameTitle" (obj_set "versionId" (JNum n) ledger)
        = Some (JStr "Demo").
Proof.
  intros ledger σ.
  assert (ledger_is demo_sync σ ledger) as Hled by reflexivity.
  destruct (bump_increments_and_preserves demo_sync σ ledger Hled I)
    as [Hrun Hpost].
  split_and!; [done|apply Hrun; by vm_compute|].
  intros n σ' Hb. destruct (Hpost n σ' Hb) as (-> & _ & Hcur & Hk).
  split_and!; [reflexivity|exact Hcur|]. by rewrite Hk.
Defined.

(** C8, as the specification states it, fails on a ledger whose counter is
    [2^53]: the sum is rounded to the double it started from, and [bump]
    returns and writes the value it read. *)
Lemma bump_stays_at_the_limit :
  let ledger := [("versionId", JNum Number.LIMIT); ("gameTitle", JStr "Demo")] in
  let σ := disk [(systemPath demo_sync, JObj ledger)] in
  ledger_is demo_sync σ ledger
  ∧ (VersionSync.bump demo_sync σ).1 = Ok Number.LIMIT
  ∧ (VersionSync.bump demo_sync σ).1 ≠ Ok (Number.LIMIT + 1)%Z
  ∧ ledger_is demo_sync (VersionSync.bump demo_sync σ).2 ledger.
Proof.
  intros ledger σ.
  assert (ledger_is demo_sync σ ledger) as Hled by reflexivity.
  destruct (bump_resolves demo_sync σ ledger Hled) as (n & σ' & Hb);
    [by vm_compute|].
  destruct (bump_ledger_ok _ _ _ _ _ Hled Hb) as [-> Hled'].
  rewrite Hb. split_and!; [done|reflexivity|by vm_compute|exact Hled'].
Qed.

(** ** C2: the ledger counts the mutations *)

Lemma run_ops_cons self o ops σ outs σ' :
  run_ops self (o :: ops) σ = (Ok outs, σ') →
  ∃ out outs' σ1, run_op self o σ = (Ok out, σ1)
                  ∧ run_ops self ops σ1 = (Ok outs', σ')
                  ∧ outs = out :: outs'.
Proof.
  cbn [run_ops]. unfold mbind, Promise_bind, await, resolve.
  destruct (run_op self o σ) as [[out|e] σ1] eqn:Ho; [|done].
  destruct (run_ops self ops σ1) as [[outs'|e] σ2] eqn:Hops; [|done].
  intros [= <- <-]. by exists out, outs', σ1.
Qed.

Lemma run_ops_ledger self ops : ∀ σ outs σ' o,
  separate self → ledger_is (versionSync self) σ o →
  (- Number.LIMIT ≤ counter o)%Z →
  (counter o + Z.of_nat (length ops) ≤ Number.LIMIT)%Z →
  run_ops self ops σ = (Ok outs, σ') →
  ∃ o', ledger_is (versionSync self) σ' o'
        ∧ counter o' = (counter o + Z.of_nat (length ops))%Z.
Proof.
  induction ops as [|op ops IH]; intros σ outs σ' o Hsep Hled Hlo Hhi.
  - intros [= <- <-]. exists o. split; [done|]. simpl. lia.
  - intros (out & outs' & σ1 & Ho & Hops & ->)%run_ops_cons.
    simpl length in Hhi.
    pose proof (run_op_ledger _ _ _ _ _ _ Hsep Hled Ho) as Hled1.
    rewrite add_exact in Hled1 by lia.
    pose proof (counter_set (counter o + 1) o) as Hc1.
    destruct (IH _ _ _ _ Hsep Hled1 ltac:(rewrite Hc1; lia) ltac:(rewrite Hc1; lia) Hops)
      as (o' & Hled' & Hc).
    exists o'. split; [done|]. rewrite Hc, Hc1. simpl length. lia.
Qed.

(** C2, as the code has it.  Let the array document and the ledger document
    be separate files, the ledger document a JSON object, and the counter an
    integer that is at least [-2^53] and that, with the number of calls
    added, is at most [2^53].  After any sequence of Create, Update and
    Delete calls that all resolve, [current] returns what it returned before
    plus the number of calls; for a sequence that is not empty this is
    strictly more. *)
Theorem ledger_counts_mutations (self : DatabaseManager) (ops : list op)
    (σ σ' : gmap string node) (outs : list outcome) (o : obj) :
  separate self → ledger_is (versionSync self) σ o →
  (- Number.LIMIT ≤ counter o)%Z →
  (counter o + Z.of_nat (length ops) ≤ Number.LIMIT)%Z →
  run_ops self ops σ = (Ok outs, σ') →
  ∃ before after : Z,
    VersionSync.current (versionSync self) σ = (Ok before, σ)
    ∧ VersionSync.current (versionSync self) σ' = (Ok after, σ')
    ∧ after = (before + Z.of_nat (length ops))%Z
    ∧ (ops ≠ [] → (before < after)%Z).
Proof.
  intros Hsep Hled Hlo Hhi Hrun.
  destruct (run_ops_ledger _ _ _ _ _ _ Hsep Hled Hlo Hhi Hrun) as (o' & Hled' & Hc).
  exists (counter o), (counter o').
  split_and!; [by apply current_ledger|by apply current_ledger|done|].
  intros Hne. destruct ops; [done|]. simpl length in Hc. lia.
Qed.

(** A create, an update and a delete on the seeded demo project take the
    counter from 0 to 3. *)
Lemma ledger_counts_mutations_witness :
  let ops := [Create [("name", JStr "Second")]; Update 1 [("name", JStr "Updated")];
              Delete 2 false] in
  ∃ outs σ',
    run_ops demo_manager ops seeded_disk = (Ok outs, σ')
    ∧ VersionSync.current demo_sync seeded_disk = (Ok 0%Z, seeded_disk)
    ∧ VersionSync.current demo_sync σ' = (Ok 3%Z, σ').
Proof.
  intros ops.
  assert (∃ outs, (run_ops demo_manager ops seeded_disk).1 = Ok outs) as [outs Hrun]
    by (eexists; vm_compute; reflexivity).
  apply run_fst in Hrun.
  exists outs, (run_ops demo_manager ops seeded_disk).2. split; [done|].
  assert (ledger_is demo_sync seeded_disk demo_ledger) as Hled by reflexivity.
  destruct (ledger_counts_mutations demo_manager ops seeded_disk _ outs demo_ledger
              demo_separate Hled ltac:(by vm_compute) ltac:(by vm_compute) Hrun)
    as (before & after & Hb & Ha & -> & _).
  change (versionSync demo_manager) with demo_sync in *.
  rewrite (current_ledger _ _ _ Hled) in Hb. injection Hb as <-.
  by split.
Defined.

(** C2, as the specification states it, fails on a ledger whose counter is
    [2^53]: a Create resolves, and [current] returns afterwards what it
    returned before. *)
Lemma counter_stays_at_the_limit :
  let ledger := [("versionId", JNum Number.LIMIT)] in
  let σ := disk [(filePath demo_manager, JArr [JNull]);
                 (systemPath demo_sync, JObj ledger)] in
  ∃ outs σ' before after,
    run_ops demo_manager [Create []] σ = (Ok outs, σ')
    ∧ VersionSync.current demo_sync σ = (Ok before, σ)
    ∧ VersionSync.current demo_sync σ' = (Ok after, σ')
    ∧ ¬ (before < after)%Z
    ∧ after ≠ (before + 1)%Z.
Proof.
  intros ledger σ.
  assert (∃ outs, (run_ops demo_manager [Create []] σ).1 = Ok outs) as [outs Hrun]
    by (eexists; vm_compute; reflexivity).
  apply run_fst in Hrun.
  exists outs, (run_ops demo_manager [Create []] σ).2, Number.LIMIT, Number.LIMIT.
  split_and!; [done|reflexivity| |by vm_compute|by vm_compute].
  apply run_read; [apply current_state|by vm_compute].
Qed.

(** ** C7: the ids that Create returns *)

Lemma writes_length self arr o out data' :
  writes self arr o out data' →
  match out with
  | Created id _ => id = Z.of_nat (length arr) ∧ length data' = S (length arr)
  | _ => length data' = length arr
  end.
Proof.
  destruct o as [data|id data|id protectFirst], out as [id' entity|entity|];
    simpl; try done.
  - intros (-> & _ & ->). rewrite length_app. simpl. split; [done|lia].
  - intros (_ & _ & ->). by rewrite length_insert.
  - intros (_ & _ & ->). by rewrite length_insert.
Qed.

Lemma run_ops_created_ids self ops : ∀ σ outs σ' arr,
  separate self → Forall (js_op self) ops → array_is self σ arr →
  run_ops self ops σ = (Ok outs, σ') →
  ∀ n id, created_ids outs !! n = Some id → id = Z.of_nat (length arr + n).
Proof.
  induction ops as [|op ops IH]; intros σ outs σ' arr Hsep Hops Harr.
  - by intros [= <- <-] n id.
  - apply Forall_cons in Hops as [Hop Hops].
    intros (out & outs' & σ1 & Ho & Hrun & ->)%run_ops_cons n id.
    destruct (run_op_array _ _ _ _ _ _ Hsep Hop Harr Ho) as (data' & Hw & Harr1).
    apply writes_length in Hw.
    pose proof (IH _ _ _ _ Hsep Hops Harr1 Hrun) as IH'.
    destruct out as [id' entity|entity|]; cbn [created_ids omap].
    + destruct Hw as [-> Hlen]. destruct n as [|n]; simpl.
      * intros [= <-]. f_equal. lia.
      * intros Hn. rewrite (IH' n id Hn), Hlen. f_equal. lia.
    + intros Hn. fold (created_ids outs') in Hn. rewrite (IH' n id Hn), Hw. done.
    + intros Hn. fold (created_ids outs') in Hn. rewrite (IH' n id Hn), Hw. done.
Qed.

(** C7, as the code has it.  On a document seeded with the sentinel only,
    in any run of Create, Update and Delete calls that all resolve, the
    Create call that comes after [n] earlier Create calls returns [n + 1]:
    counting the calls from one, the n-th Create returns [n].  Deletes and
    updates in between change nothing, for they keep the length of the
    array. *)
Theorem create_ids_count_from_one (self : DatabaseManager) (ops : list op)
    (σ σ' : gmap string node) (outs : list outcome) :
  separate self → Forall (js_op self) ops → array_is self σ [JNull] →
  run_ops self ops σ = (Ok outs, σ') →
  ∀ n id, 1 ≤ n → created_ids outs !! (n - 1) = Some id → id = Z.of_nat n.
Proof.
  intros Hsep Hops Harr Hrun n id Hn Hid.
  rewrite (run_ops_created_ids _ _ _ _ _ _ Hsep Hops Harr Hrun _ _ Hid).
  simpl length. f_equal. lia.
Qed.

Lemma demo_run_js : Forall (js_op demo_manager) demo_run.
Proof.
  repeat constructor; try done. all: intros; apply demo_factory_js.
Qed.

(** Create, delete what was created, create again: the second Create
    returns 2. *)
Lemma create_ids_count_from_one_witness :
  ∃ outs σ',
    run_ops demo_manager demo_run fresh_disk = (Ok outs, σ')
    ∧ ∃ id, created_ids outs !! (2 - 1) = Some id ∧ id = 2%Z.
Proof.
  assert (∃ outs, (run_ops demo_manager demo_run fresh_disk).1 = Ok outs
                  ∧ is_Some (created_ids outs !! (2 - 1))) as (outs & Hrun & [id Hid])
    by (eexists; split; [vm_compute; reflexivity|by eexists]).
  apply run_fst in Hrun.
  exists outs, (run_ops demo_manager demo_run fresh_disk).2. split; [done|].
  assert (array_is demo_manager fresh_disk [JNull]) as Harr by reflexivity.
  exists id. split; [done|].
  apply (create_ids_count_from_one demo_manager demo_run fresh_disk _ outs
           demo_separate demo_run_js Harr Hrun 2); [lia|done].
Defined.

(** C7, as the specification states it with the calls counted from one,
    fails on the first Create of a fresh document: it returns 1, not 2. *)
Lemma first_create_returns_one :
  ¬ (∀ (self : DatabaseManager) (ops : list op) (σ σ' : gmap string node)
       (outs : list outcome),
       separate self → Forall (js_op self) ops → array_is self σ [JNull] →
       run_ops self ops σ = (Ok outs, σ') →
       ∀ n id, 1 ≤ n → created_ids outs !! (n - 1) = Some id →
               id = (Z.of_nat n + 1)%Z).
Proof.
  intros Hclaim.
  assert (∃ outs, (run_ops demo_manager [Create []] fresh_disk).1 = Ok outs
                  ∧ created_ids outs !! (1 - 1) = Some 1%Z) as (outs & Hrun & Hid)
    by (eexists; split; [vm_compute; reflexivity|reflexivity]).
  apply run_fst in Hrun.
  assert (Forall (js_op demo_manager) [Create []]) as Hjs.
  { repeat constructor. }
  assert (array_is demo_manager fresh_disk [JNull]) as Harr by reflexivity.
  pose proof (Hclaim demo_manager _ _ _ _ demo_separate Hjs Harr Hrun 1 1%Z
                ltac:(lia) Hid) as H.
  discriminate H.
Qed.

(** ** C3: Create *)

Lemma obj_get_fresh k (o : obj) : k ∉ keys o → obj_get k o = None.
Proof.
  induction o as [|[k' v] o IH]; [done|]. simpl.
  intros [Hk Ho]%not_elem_of_cons.
  destruct (String.eqb_spec k k'); [done|]. auto.
Qed.

(** Laying [src] over [o]: a property of [src] wins. *)
Lemma obj_get_assign k (src o : obj) :
  NoDup (keys src) →
  obj_get k (obj_assign o src)
  = match obj_get k src with Some v => Some v | None => obj_get k o end.
Proof.
  unfold obj_assign. revert o.
  induction src as [|[k1 v1] src IH]; intros o Hnd; [done|].
  apply NoDup_cons in Hnd as [Hk1 Hnd]. simpl.
  rewrite IH, obj_get_set by done.
  destruct (String.eqb_spec k k1) as [->|Hne]; [|done].
  by rewrite obj_get_fresh.
Qed.

Lemma create_as_op self data σ r σ' :
  DatabaseManager.create self data σ = (Ok r, σ') →
  run_op self (Create data) σ = (Ok (Created r.1 r.2), σ').
Proof.
  simpl. unfold mbind, Promise_bind, await. intros ->. by destruct r.
Qed.

(** C3. On an array document of length [L], next to a ledger that is a JSON
    object, Create of a record whose name converts to a string resolves
    unless a directory stands at one of the two temporary paths.  When
    Create resolves it returns the id [L] and the entity;
    the entity has [id = L] whatever the caller passed, any other property
    from the caller's record where it has one and from [defaultFactory(L)]
    where it has not; and the array read afterwards is the old one with the
    entity appended as slot [L].  On the seeded document of the scenario,
    Create of [{name:"Second", value:20}] returns
    [{id:2, entity:{id:2, name:"Second", value:20}}] and [list] then has two
    entries. *)
Theorem create_appends_the_overlay :
  (∀ (self : DatabaseManager) (σ : gmap string node) (arr : list json)
     (data o : obj),
     separate self → array_is self σ arr →
     ledger_is (versionSync self) σ o →
     σ !! (filePath self +:+ ".tmp") ≠ Some Dir →
     σ !! (systemPath (versionSync self) +:+ ".tmp") ≠ Some Dir →
     let L := Z.of_nat (length arr) in
     loggable (DatabaseManager.spread (defaultFactory self L) data L) →
     ∃ r σ', DatabaseManager.create self data σ = (Ok r, σ'))
  ∧ (∀ (self : DatabaseManager) (σ σ' : gmap string node) (arr : list json)
       (data : obj) (r : Z * obj),
       separate self → wf_json (JObj data) = true →
       (∀ id, wf_json (JObj (defaultFactory self id)) = true) →
       array_is self σ arr →
       DatabaseManager.create self data σ = (Ok r, σ') →
       let L := Z.of_nat (length arr) in
       r.1 = L
       ∧ obj_get "id" r.2 = Some (JNum L)
       ∧ (∀ k, k ≠ "id" →
            obj_get k r.2 = match obj_get k data with
                            | Some v => Some v
                            | None => obj_get k (defaultFactory self L)
                            end)
       ∧ array_is self σ' (arr ++ [JObj r.2])
       ∧ DatabaseManager.index (arr ++ [JObj r.2]) L = Some (JObj r.2))
  ∧ ∃ σ' entries,
      DatabaseManager.create demo_manager
        [("name", JStr "Second"); ("value", JNum 20)] seeded_disk
      = (Ok (2%Z, [("id", JNum 2); ("name", JStr "Second"); ("value", JNum 20)]), σ')
      ∧ DatabaseManager.list demo_manager σ' = (Ok entries, σ')
      ∧ length entries = 2.
Proof.
  split_and!.
  - intros self σ arr data o Hsep Harr Hled Htmp1 Htmp2 L Hname.
    unfold DatabaseManager.create, mbind, Promise_bind, await.
    rewrite Harr. fold L.
    match goal with
    | |- context [DatabaseManager.writeArray self ?d σ] =>
        destruct (writeArray_resolves self d σ arr o Hsep Harr Hled Htmp1 Htmp2)
          as [σ' ->]
    end.
    rewrite info_run, Hname. unfold resolve. eauto.
  - intros self σ σ' arr data r Hsep Hdata Hdef Harr Hrun L.
    apply wf_json_obj in Hdata as [Hnd Hdata].
    assert (js_op self (Create data)) as Hop.
    { split; [done|]. intros id. by destruct (proj1 (wf_json_obj _) (Hdef id)). }
    apply create_as_op in Hrun.
    destruct (run_op_array _ _ _ _ _ _ Hsep Hop Harr Hrun) as (data' & Hw & Harr').
    destruct Hw as (Hid & Hent & ->). fold L in Hid.
    split_and!; [done| | |done|].
    + rewrite Hent, Hid. unfold DatabaseManager.spread. rewrite obj_get_set. done.
    + intros k Hk. rewrite Hent, Hid. unfold DatabaseManager.spread.
      rewrite obj_get_set. destruct (String.eqb_spec k "id"); [done|].
      rewrite obj_get_assign by done.
      destruct (obj_get k data); [done|].
      rewrite obj_get_assign; [by destruct (obj_get k _)|].
      by destruct (proj1 (wf_json_obj _) (Hdef L)).
    + unfold DatabaseManager.index, L.
      destruct (Z.ltb_spec (Z.of_nat (length arr)) 0); [lia|].
      rewrite Nat2Z.id. by apply list_lookup_middle.
  - eexists _, _. split_and!.
    + apply run_fst. vm_compute. reflexivity.
    + apply run_read; [|vm_compute; reflexivity].
      apply list_state.
    + reflexivity.
Qed.

Lemma demo_factory_wf id : wf_json (JObj (demo_factory id)) = true.
Proof. reflexivity. Qed.

(** The scenario again, through the general statement. *)
Lemma create_appends_the_overlay_witness :
  let data := [("name", JStr "Second"); ("value", JNum 20)] in
  ∃ r σ',
    DatabaseManager.create demo_manager data seeded_disk = (Ok r, σ')
    ∧ r.1 = 2%Z
    ∧ obj_get "id" r.2 = Some (JNum 2)
    ∧ obj_get "name" r.2 = Some (JStr "Second")
    ∧ array_is demo_manager σ' ([JNull; JObj first_record] ++ [JObj r.2]).
Proof.
  intros data.
  assert (array_is demo_manager seeded_disk [JNull; JObj first_record]) as Harr
    by reflexivity.
  assert (ledger_is demo_sync seeded_disk demo_ledger) as Hled by reflexivity.
  destruct create_appends_the_overlay as (Hresolves & Hresult & _).
  destruct (Hresolves demo_manager seeded_disk [JNull; JObj first_record] data
              demo_ledger demo_separate Harr Hled)
    as (r & σ' & Hrun); [by vm_compute|by vm_compute|reflexivity|].
  destruct (Hresult demo_manager seeded_disk σ' [JNull; JObj first_record] data r
              demo_separate eq_refl demo_factory_wf Harr Hrun)
    as (Hid & Hget & Hover & Harr' & _).
  exists r, σ'. split_and!; [done|done|done| |done].
  by rewrite (Hover "name").
Defined.

(** ** C4: Delete keeps the other ids *)

Section get_facts.
Import DatabaseManager.

Lemma get_run self σ arr id :
  array_is self σ arr →
  get self id σ
  = (if missing arr id then Throw (not_found id)
     else Ok (default JNull (index arr id)), σ).
Proof.
  unfold array_is, get, mbind, Promise_bind, await. intros ->.
  by destruct (missing arr id).
Qed.

Lemma delete_as_op self id protectFirst σ σ' :
  delete self id protectFirst σ = (Ok (), σ') →
  run_op self (Delete id protectFirst) σ = (Ok Deleted, σ').
Proof. simpl. unfold mbind, Promise_bind, await. by intros ->. Qed.

Lemma missing_false arr id :
  missing arr id = false →
  (1 ≤ id < Z.of_nat (length arr))%Z ∧ ∃ x, index arr id = Some x ∧ x ≠ JNull.
Proof.
  unfold missing, index. intros H.
  apply orb_false_iff in H as [[H1 H2]%orb_false_iff H3].
  apply Z.ltb_ge in H1. apply Z.leb_gt in H2. split; [lia|].
  destruct (Z.ltb_spec id 0); [lia|].
  destruct (lookup_lt_is_Some_2 arr (Z.to_nat id) ltac:(lia)) as [x Hx].
  rewrite Hx in *. exists x. split; [done|]. by intros ->.
Qed.

Lemma index_insert_ne arr K J x :
  (1 ≤ K)%Z → (1 ≤ J)%Z → J ≠ K →
  index (<[Z.to_nat K := x]> arr) J = index arr J.
Proof.
  intros HK HJ Hne. unfold index. destruct (J <? 0)%Z; [done|].
  apply list_lookup_insert_ne. lia.
Qed.

End get_facts.

(** C4. On an array document, a Delete of an id [K] that is not protected
    and holds a record whose name converts to a string resolves unless a
    directory stands at one of the two temporary paths.  After a Delete of
    [K] that resolves, the array read
    back is the old one with slot [K] set to the sentinel: its length is
    unchanged, and Get of any other id [J] that returned a record before
    returns the same record. *)
Theorem delete_keeps_other_ids (self : DatabaseManager) (σ : gmap string node)
    (arr : list json) (K : Z) (protectFirst : bool) :
  separate self → array_is self σ arr →
  (∀ o, DatabaseManager.missing arr K = false →
        protectFirst && (K =? 1)%Z = false →
        loggable (DatabaseManager.own_props
                    (default JNull (DatabaseManager.index arr K))) →
        ledger_is (versionSync self) σ o →
        σ !! (filePath self +:+ ".tmp") ≠ Some Dir →
        σ !! (systemPath (versionSync self) +:+ ".tmp") ≠ Some Dir →
        ∃ σ', DatabaseManager.delete self K protectFirst σ = (Ok (), σ'))
  ∧ ∀ σ', DatabaseManager.delete self K protectFirst σ = (Ok (), σ') →
      ∃ arr', array_is self σ' arr'
        ∧ DatabaseManager.index arr' K = Some JNull
        ∧ length arr' = length arr
        ∧ ∀ J r, J ≠ K →
            DatabaseManager.get self J σ = (Ok r, σ) →
            DatabaseManager.get self J σ' = (Ok r, σ').
Proof.
  intros Hsep Harr. split.
  - intros o Hm Hp Hname Hled Htmp1 Htmp2.
    unfold DatabaseManager.delete, mbind, Promise_bind, await.
    rewrite Hp, Harr, Hm.
    destruct (writeArray_resolves self (<[Z.to_nat K := JNull]> arr) σ arr o
                Hsep Harr Hled Htmp1 Htmp2) as [σ' ->].
    rewrite info_run, Hname. by exists σ'.
  - intros σ' Hrun%delete_as_op.
    destruct (run_op_array self (Delete K protectFirst) σ Deleted σ' arr
                Hsep I Harr Hrun) as (arr' & Hw & Harr').
    destruct Hw as (_ & Hm & ->).
    apply missing_false in Hm as [HK _].
    exists (<[Z.to_nat K := JNull]> arr).
    split_and!; [done| |by rewrite length_insert|].
    + unfold DatabaseManager.index. destruct (Z.ltb_spec K 0); [lia|].
      apply list_lookup_insert_eq. lia.
    + intros J r HJ. rewrite (get_run _ _ _ _ Harr), (get_run _ _ _ _ Harr').
      destruct (DatabaseManager.missing arr J) eqn:HmJ; [done|].
      apply missing_false in HmJ as HJ'. destruct HJ' as [HJ1 (x & Hx & Hnull)].
      intros [= <-].
      unfold DatabaseManager.missing in *.
      rewrite length_insert, index_insert_ne by (done || lia).
      by rewrite HmJ.
Qed.

(** Two records; the first is deleted and the second reads as before. *)
Lemma delete_keeps_other_ids_witness :
  let second := [("id", JNum 2); ("name", JStr "Second")] in
  let arr := [JNull; JObj first_record; JObj second] in
  let σ := disk [(filePath demo_manager, JArr arr);
                 (systemPath demo_sync, JObj demo_ledger)] in
  ∃ σ', DatabaseManager.delete demo_manager 1 false σ = (Ok (), σ')
        ∧ DatabaseManager.get demo_manager 2 σ' = (Ok (JObj second), σ')
        ∧ ∃ arr', array_is demo_manager σ' arr' ∧ length arr' = 3.
Proof.
  intros second arr σ.
  assert (array_is demo_manager σ arr) as Harr by reflexivity.
  assert (ledger_is demo_sync σ demo_ledger) as Hled by reflexivity.
  destruct (delete_keeps_other_ids demo_manager σ arr 1 false demo_separate Harr)
    as [Hresolves Hresult].
  destruct (Hresolves demo_ledger eq_refl eq_refl eq_refl Hled) as [σ' Hrun];
    [by vm_compute|by vm_compute|].
  destruct (Hresult σ' Hrun) as (arr' & Harr' & _ & Hlen & Hget).
  exists σ'.
  split_and!; [exact Hrun| |exists arr'; split; [exact Harr'|exact Hlen]].
  apply Hget; [discriminate|reflexivity].
Defined.

(** ** C1 and C6: the backup of [writeJson] *)

Section backup_facts.
Import FileHandler.

(** The backup block never rejects, whatever [copyFile] did: when a
    directory stands at the backup path the copy fails, the [catch] takes
    the error for a missing file, and [writeJson] goes on to replace the
    target. *)
Lemma writeJson_swallows_backup_failure filePath data content σ :
  σ !! filePath = Some (File content) →
  σ !! (filePath +:+ ".bak") = Some Dir →
  σ !! (filePath +:+ ".tmp") ≠ Some Dir →
  copyFile filePath (filePath +:+ ".bak") σ = (Throw (EISDIR (filePath +:+ ".bak")), σ)
  ∧ writeJson filePath data σ
    = (Ok (), <[filePath := File (document_text data)]> (delete (filePath +:+ ".tmp") σ)).
Proof.
  intros Hfile Hbak Htmp. split.
  - unfold copyFile. by rewrite Hfile, Hbak.
  - rewrite writeJson_run. cbv zeta. unfold after_backup. rewrite Hfile, Hbak.
    rewrite Hfile. by destruct (σ !! (filePath +:+ ".tmp")) as [[]|].
Qed.

(** Two writes that resolve, the second with its backup copy made: the
    target holds the second text, the backup holds the first, and no
    temporary file is left. *)
Lemma writeJson_twice filePath X1 X2 σ0 σ1 σ2 :
  writeJson filePath X1 σ0 = (Ok (), σ1) →
  writeJson filePath X2 σ1 = (Ok (), σ2) →
  σ1 !! (filePath +:+ ".bak") ≠ Some Dir →
  readFile filePath σ2 = (Ok (document_text X2), σ2)
  ∧ readFile (filePath +:+ ".bak") σ2 = (Ok (document_text X1), σ2)
  ∧ σ2 !! (filePath +:+ ".tmp") = None.
Proof.
  intros (Hfile1 & _ & _)%writeJson_ok (Hfile2 & Htmp2 & Hbak2)%writeJson_ok Hbak.
  unfold readFile. rewrite Hfile2, Hbak2. split_and!; [done| |done].
  unfold after_backup. rewrite Hfile1.
  destruct (σ1 !! (filePath +:+ ".bak")) as [[]|]; [|done|];
    by rewrite lookup_insert_eq.
Qed.

End backup_facts.

(** C6: the code against the claim.  A file is at the path and a directory
    at the backup path, so the copy fails; [writeJson] resolves all the same
    and the file holds the new text, with no backup of the old one. *)
Theorem backup_failure_does_not_abort :
  let path := "/game/data/Actors.json" in
  let σ : gmap string node := {[ path := File "old"; path +:+ ".bak" := Dir ]} in
  (copyFile path (path +:+ ".bak") σ).1 = Throw (EISDIR (path +:+ ".bak"))
  ∧ ∃ σ', FileHandler.writeJson path (JArr [JNull]) σ = (Ok (), σ')
          ∧ σ' !! path = Some (File (document_text (JArr [JNull])))
          ∧ σ' !! path ≠ σ !! path
          ∧ σ' !! (path +:+ ".bak") = Some Dir.
Proof.
  intros path σ. split; [vm_compute; reflexivity|].
  exists (FileHandler.writeJson path (JArr [JNull]) σ).2. split_and!.
  - apply run_fst. vm_compute. reflexivity.
  - vm_compute. reflexivity.
  - vm_compute. discriminate.
  - vm_compute. reflexivity.
Qed.

(** C1: the code against the claim.  A directory stands at the backup
    path.  Both writes resolve and the document exists before the second
    one, yet the backup path does not hold the first text afterwards. *)
Theorem second_write_without_backup :
  let path := "/game/data/Actors.json" in
  let X1 := JObj [("version", JNum 1)] in
  let X2 := JObj [("version", JNum 2)] in
  let σ0 : gmap string node := {[ path +:+ ".bak" := Dir ]} in
  ∃ σ1 σ2,
    FileHandler.writeJson path X1 σ0 = (Ok (), σ1)
    ∧ σ1 !! path = Some (File (document_text X1))
    ∧ FileHandler.writeJson path X2 σ1 = (Ok (), σ2)
    ∧ (readFile path σ2).1 = Ok (document_text X2)
    ∧ (readFile (path +:+ ".bak") σ2).1 = Throw (EISDIR (path +:+ ".bak"))
    ∧ σ2 !! (path +:+ ".tmp") = None.
Proof.
  intros path X1 X2 σ0.
  exists (FileHandler.writeJson path X1 σ0).2,
    (FileHandler.writeJson path X2 (FileHandler.writeJson path X1 σ0).2).2.
  split_and!; try (apply run_fst); vm_compute; reflexivity.
Qed.

(** * More of the code *)

Lemma run_throw {A} (p : Promise A) (σ : gmap string node) (e : error) :
  (p σ).1 = Throw e → p σ = (Throw e, (p σ).2).
Proof. destruct (p σ) as [r σ']. simpl. by intros ->. Qed.

(** ** [writeJson]: what is read back, what a failure leaves, what is touched *)

(** X1. What [writeJson] has written, [readJsonRaw] reads back: after a
    write of a JavaScript value that resolves, reading the same path
    resolves with that value, whatever the path held before. *)
Theorem written_document_reads_back (filePath : string) (data : json)
    (σ σ' : gmap string node) :
  wf_json data = true →
  FileHandler.writeJson filePath data σ = (Ok (), σ') →
  FileHandler.readJsonRaw filePath σ' = (Ok data, σ').
Proof. intros Hwf (Hfile & _)%writeJson_ok. by apply readJsonRaw_written. Qed.

Lemma written_document_reads_back_witness :
  let data := JObj [("name", JStr "test"); ("value", JNum 42)] in
  ∃ σ', FileHandler.writeJson "/game/data/test.json" data ∅ = (Ok (), σ')
        ∧ FileHandler.readJsonRaw "/game/data/test.json" σ' = (Ok data, σ').
Proof.
  intros data.
  assert ((FileHandler.writeJson "/game/data/test.json" data ∅).1 = Ok ()) as Hrun
    by (vm_compute; reflexivity).
  apply run_fst in Hrun. eexists. split; [exact Hrun|].
  exact (written_document_reads_back _ data ∅ _ eq_refl Hrun).
Defined.

(** X2. A write that rejects leaves the target as it was, whatever made it
    reject.  The backup block has run by then: the backup path holds what
    that block left there, which is the text of the target when the target
    was a file and no directory stood at the backup path.  And nothing is
    cleaned up: when the write rejects because a directory stands at the
    target, the temporary file stays behind with the new text. *)
Theorem rejected_write_keeps_the_target (filePath : string) (data : json)
    (σ σ' : gmap string node) (e : error) :
  FileHandler.writeJson filePath data σ = (Throw e, σ') →
  σ' !! filePath = σ !! filePath
  ∧ σ' !! (filePath +:+ ".bak") = after_backup filePath σ !! (filePath +:+ ".bak")
  ∧ (σ !! filePath = Some Dir → σ !! (filePath +:+ ".tmp") ≠ Some Dir →
     σ' !! (filePath +:+ ".tmp") = Some (File (document_text data))).
Proof.
  rewrite writeJson_run. cbv zeta.
  pose proof (tmp_ne filePath) as Htmp. pose proof (bak_ne filePath) as Hbak.
  pose proof (tmp_ne_bak filePath) as Htb.
  rewrite !(after_backup_other filePath σ (filePath +:+ ".tmp")),
    !(after_backup_other filePath σ filePath) by done.
  destruct (σ !! (filePath +:+ ".tmp")) as [[c|]|] eqn:Ht.
  - destruct (σ !! filePath) as [[c'|]|] eqn:Hf; intros [= <- <-].
    rewrite !lookup_insert_ne, lookup_insert_eq, after_backup_other by done.
    by split_and!.
  - intros [= <- <-]. rewrite !after_backup_other by done. by split_and!.
  - destruct (σ !! filePath) as [[c'|]|] eqn:Hf; intros [= <- <-].
    rewrite !lookup_insert_ne, lookup_insert_eq, after_backup_other by done.
    by split_and!.
Qed.

(** A file with an older backup, and a directory at the temporary path:
    the write rejects, the file is as it was, and the backup has been
    replaced all the same. *)
Lemma rejected_write_keeps_the_target_witness :
  let σ : gmap string node :=
    {[ "/game/data/Actors.json" := File "[]";
       "/game/data/Actors.json.bak" := File "old";
       "/game/data/Actors.json.tmp" := Dir ]} in
  ∃ e σ', FileHandler.writeJson "/game/data/Actors.json" (JArr [JNull]) σ
          = (Throw e, σ')
          ∧ σ' !! "/game/data/Actors.json" = Some (File "[]")
          ∧ σ' !! "/game/data/Actors.json.bak" = Some (File "[]").
Proof.
  intros σ.
  assert ((FileHandler.writeJson "/game/data/Actors.json" (JArr [JNull]) σ).1
          = Throw (EISDIR "/game/data/Actors.json.tmp")) as Hrun
    by (vm_compute; reflexivity).
  apply run_throw in Hrun. eexists _, _. split; [exact Hrun|].
  destruct (rejected_write_keeps_the_target _ _ _ _ _ Hrun) as (Hkeep & Hbak & _).
  split; [by rewrite Hkeep|]. etrans; [exact Hbak|reflexivity].
Defined.

(** X3. Whether it resolves or rejects, [writeJson] touches nothing but the
    target, its temporary file and its backup; and it neither makes nor
    removes a directory anywhere. *)
Theorem write_touches_three_paths (filePath : string) (data : json)
    (σ : gmap string node) :
  let σ' := (FileHandler.writeJson filePath data σ).2 in
  (∀ q, q ≠ filePath → q ≠ filePath +:+ ".tmp" → q ≠ filePath +:+ ".bak" →
        σ' !! q = σ !! q)
  ∧ (∀ q, σ' !! q = Some Dir ↔ σ !! q = Some Dir).
Proof.
  intros σ'. subst σ'.
  destruct (FileHandler.writeJson filePath data σ) as [r σ'] eqn:Hw. simpl.
  assert (∀ q, q ≠ filePath → q ≠ filePath +:+ ".tmp" → q ≠ filePath +:+ ".bak" →
               σ' !! q = σ !! q) as Hframe.
  { intros q. by eapply writeJson_frame. }
  split; [done|]. intros q.
  pose proof (tmp_ne filePath) as Htmp. pose proof (bak_ne filePath) as Hbak.
  pose proof (tmp_ne_bak filePath) as Htb.
  destruct (decide (q = filePath)) as [->|Hne1];
    [|destruct (decide (q = filePath +:+ ".tmp")) as [->|Hne2];
      [|destruct (decide (q = filePath +:+ ".bak")) as [->|Hne3];
        [|by rewrite Hframe]]];
    revert Hw; rewrite writeJson_run; cbv zeta;
    rewrite !after_backup_other by done.
  - destruct (σ !! (filePath +:+ ".tmp")) as [[c|]|] eqn:Ht;
      destruct (σ !! filePath) as [[c'|]|] eqn:Hf; intros [= <- <-];
      rewrite ?lookup_insert_eq, ?lookup_insert_ne, ?after_backup_other, ?Hf by done;
      done.
  - destruct (σ !! (filePath +:+ ".tmp")) as [[c|]|] eqn:Ht;
      destruct (σ !! filePath) as [[c'|]|] eqn:Hf; intros [= <- <-];
      rewrite ?lookup_insert_eq, ?lookup_insert_ne, ?lookup_delete_eq,
        ?after_backup_other, ?Ht by done;
      done.
  - assert (after_backup filePath σ !! (filePath +:+ ".bak") = Some Dir
            ↔ σ !! (filePath +:+ ".bak") = Some Dir) as Hb.
    { unfold after_backup.
      destruct (σ !! filePath) as [[c'|]|]; [|done|done].
      destruct (σ !! (filePath +:+ ".bak")) as [[c''|]|] eqn:Hb; rewrite ?Hb;
        [|done|]; by rewrite lookup_insert_eq. }
    destruct (σ !! (filePath +:+ ".tmp")) as [[c|]|] eqn:Ht;
      destruct (σ !! filePath) as [[c'|]|] eqn:Hf; intros [= <- <-];
      rewrite ?lookup_insert_ne, ?lookup_delete_ne by done;
      done.
Qed.

(** A write of the actors of the seeded project leaves its ledger alone. *)
Lemma write_touches_three_paths_witness :
  (FileHandler.writeJson (filePath demo_manager) (JArr [JNull]) seeded_disk).2
    !! systemPath demo_sync
  = seeded_disk !! systemPath demo_sync.
Proof.
  destruct (write_touches_three_paths (filePath demo_manager) (JArr [JNull]) seeded_disk)
    as [Hframe _].
  apply Hframe; discriminate.
Defined.

(** X4. The backup of a write that resolves.  When a file was at the target
    and no directory stands at the backup path, the backup path then holds
    the text that the target held, whatever it was; when nothing was at the
    target, the backup path is as it was. *)
Theorem backup_holds_the_previous_text (filePath : string) (data : json)
    (σ σ' : gmap string node) :
  FileHandler.writeJson filePath data σ = (Ok (), σ') →
  (∀ content, σ !! filePath = Some (File content) →
     σ !! (filePath +:+ ".bak") ≠ Some Dir →
     σ' !! (filePath +:+ ".bak") = Some (File content))
  ∧ (σ !! filePath = None →
     σ' !! (filePath +:+ ".bak") = σ !! (filePath +:+ ".bak")).
Proof.
  intros (_ & _ & Hbak)%writeJson_ok. rewrite Hbak. unfold after_backup. split.
  - intros content -> Hdir.
    destruct (σ !! (filePath +:+ ".bak")) as [[c|]|]; [|done|];
      by rewrite lookup_insert_eq.
  - by intros ->.
Qed.

Lemma backup_holds_the_previous_text_witness :
  let σ : gmap string node := {[ "/game/data/System.json" := File "not JSON at all" ]} in
  ∃ σ', FileHandler.writeJson "/game/data/System.json" (JObj []) σ = (Ok (), σ')
        ∧ σ' !! "/game/data/System.json.bak" = Some (File "not JSON at all").
Proof.
  intros σ.
  assert ((FileHandler.writeJson "/game/data/System.json" (JObj []) σ).1 = Ok ()) as Hrun
    by (vm_compute; reflexivity).
  apply run_fst in Hrun. eexists. split; [exact Hrun|].
  apply (backup_holds_the_previous_text _ _ _ _ Hrun); [reflexivity|].
  vm_compute. discriminate.
Defined.

(** ** [readJson]: validation with a schema *)

Section basename_facts.
Import Path.

Lemma is_name_chars name :
  is_name name = true →
  chars name ≠ [] ∧ Forall (λ c, c ≠ sep) (chars name).
Proof.
  unfold is_name. intros [Hne Hall]%andb_true_iff. split.
  - destruct name; [done|]. done.
  - apply Forall_forall. intros c Hc.
    rewrite forallb_forall in Hall.
    specialize (Hall c (proj1 (list_elem_of_In _ _) Hc)).
    apply negb_true_iff in Hall. by destruct (Ascii.eqb_spec c sep).
Qed.

Lemma take_name_app cs rest :
  Forall (λ c, c ≠ sep) cs → take_name (cs ++ sep :: rest) = cs.
Proof.
  induction 1 as [|c cs Hc _ IH]; simpl.
  - done.
  - destruct (Ascii.eqb_spec c sep); [done|]. by rewrite IH.
Qed.

Lemma drop_seps_name cs :
  cs ≠ [] → Forall (λ c, c ≠ sep) cs → ∀ rest, drop_seps (cs ++ rest) = cs ++ rest.
Proof.
  intros Hne Hall rest. destruct Hall as [|c cs Hc _]; [done|]. simpl.
  by destruct (Ascii.eqb_spec c sep).
Qed.

(** The base name of a name joined to a directory is the name. *)
Lemma basename_join dir name :
  is_name name = true → basename (path_join [dir; name]) = name.
Proof.
  intros [Hne Hall]%is_name_chars. unfold basename, chars in *.
  cbn [path_join foldl]. rewrite !list_ascii_of_string_app.
  change (list_ascii_of_string "/") with [sep].
  change ([sep] ++ ?l) with (sep :: l).
  rewrite rev_app_distr. cbn [rev]. rewrite <- app_assoc. cbn [app].
  rewrite drop_seps_name, take_name_app, rev_involutive, string_of_list_ascii_of_string.
  - done.
  - apply Forall_forall. intros c Hc%list_elem_of_In%in_rev%list_elem_of_In.
    rewrite Forall_forall in Hall. auto.
  - intros Hnil. apply Hne. apply (f_equal (@rev ascii)) in Hnil.
    by rewrite rev_involutive in Hnil.
  - apply Forall_forall. intros c Hc%list_elem_of_In%in_rev%list_elem_of_In.
    rewrite Forall_forall in Hall. auto.
Qed.

End basename_facts.

(** X5. Reading with a schema what [writeJson] has written.  The document
    [name] in a directory is read back and handed to the schema: the call
    resolves with the data that the schema makes of the value, or rejects
    with the message of the schema after the base name of the file, not its
    path.  Either way the disk stays as the write left it. *)
Theorem written_document_through_schema {T : Type} (dir name : string)
    (schema : FileHandlerMore.ZodSchema T) (data : json) (σ σ' : gmap string node) :
  Path.is_name name = true → wf_json data = true →
  FileHandler.writeJson (path_join [dir; name]) data σ = (Ok (), σ') →
  FileHandlerMore.readJson (path_join [dir; name]) schema σ'
  = (match FileHandlerMore.safeParse schema data with
     | inl d => Ok d
     | inr message =>
         Throw (Error ("Validation failed for " +:+ name +:+ ": " +:+ message))
     end, σ').
Proof.
  intros Hname Hwf (Hfile & _)%writeJson_ok.
  unfold FileHandlerMore.readJson, mbind, Promise_bind, await, readFile.
  rewrite Hfile, JSON_parse_stringify, basename_join by done.
  by destruct (FileHandlerMore.safeParse schema data).
Qed.

Lemma written_document_through_schema_witness :
  let bad := JObj [("name", JNum 123)] in
  ∃ σ', FileHandler.writeJson (path_join ["/tmp/t"; "bad.json"]) bad ∅ = (Ok (), σ')
        ∧ FileHandlerMore.readJson (path_join ["/tmp/t"; "bad.json"]) TestSchema σ'
          = (Throw (Error "Validation failed for bad.json: Required"), σ').
Proof.
  intros bad.
  assert ((FileHandler.writeJson (path_join ["/tmp/t"; "bad.json"]) bad ∅).1 = Ok ())
    as Hrun by (vm_compute; reflexivity).
  apply run_fst in Hrun. eexists. split; [exact Hrun|].
  exact (written_document_through_schema "/tmp/t" "bad.json" TestSchema bad ∅ _
           eq_refl eq_refl Hrun).
Defined.

(** ** [listFiles] and [listDirs] *)

Section listing_facts.
Import Path FsDir FileHandlerMore.

Lemma strip_prefix_spec prefix s r :
  strip_prefix prefix s = Some r ↔ s = prefix +:+ r.
Proof.
  revert s. induction prefix as [|a prefix IH]; intros s; simpl.
  - split; [by intros [= ->]|by intros ->].
  - destruct s as [|b s].
    + split; [done|]. intros H. discriminate H.
    + destruct (Ascii.eqb_spec a b) as [->|Hne].
      * rewrite IH. split; [by intros ->|]. intros H. by injection H.
      * split; [done|]. intros H. injection H as -> _. done.
Qed.

Lemma child_spec dir p n :
  child dir p = Some n ↔ p = path_join [dir; n] ∧ is_name n = true.
Proof.
  unfold child. cbn [path_join foldl].
  destruct (strip_prefix (dir +:+ "/") p) as [r|] eqn:Hr.
  - apply strip_prefix_spec in Hr. rewrite append_assoc in Hr. subst p.
    destruct (is_name r) eqn:Hname.
    + split; [by intros [= ->]|]. intros [H%append_inj_r%append_inj_r _]. by subst.
    + split; [done|]. intros [H%append_inj_r%append_inj_r Hn]. subst.
      by rewrite Hname in Hn.
  - split; [done|]. intros [-> _].
    assert (strip_prefix (dir +:+ "/") (dir +:+ "/" +:+ n) = Some n) as H.
    { apply strip_prefix_spec. by rewrite append_assoc. }
    by rewrite H in Hr.
Qed.

(** What [readdir] returns: the nodes directly inside the directory. *)
Lemma readdir_run path σ :
  (readdir path σ).2 = σ
  ∧ ∀ entries, (readdir path σ).1 = Ok entries →
      σ !! path = Some Dir
      ∧ NoDup (map name entries)
      ∧ ∀ e, e ∈ entries ↔
          σ !! path_join [path; name e] = Some (node_of e) ∧ is_name (name e) = true.
Proof.
  unfold readdir. destruct (σ !! path) as [[c|]|] eqn:Hp; simpl; split; try done.
  intros entries [= <-]. split; [done|]. split.
  - pose proof (NoDup_fst_map_to_list σ) as Hnd.
    induction (map_to_list σ) as [|[p n] l IH]; simpl; [constructor|].
    apply NoDup_cons in Hnd as [Hp' Hnd]. specialize (IH Hnd).
    destruct (child path p) as [nm|] eqn:Hc; [|done].
    simpl. apply NoDup_cons. split; [|done].
    intros Hin%list_elem_of_In%in_map_iff. destruct Hin as (e & <- & He%list_elem_of_In).
    apply list_elem_of_omap in He as ([p' n'] & Hin & Hf). simpl in Hf.
    destruct (child path p') as [nm'|] eqn:Hc'; [|done]. injection Hf as <-.
    simpl in Hc. destruct (proj1 (child_spec _ _ _) Hc) as [Hp1 _].
    destruct (proj1 (child_spec _ _ _) Hc') as [Hp2 _]. subst p p'.
    apply Hp'. change (path_join [path; nm'] ∈ l.*1).
    apply list_elem_of_fmap. by exists (path_join [path; nm'], n').
  - intros e. rewrite list_elem_of_omap. split.
    + intros ([p n] & Hin%elem_of_map_to_list & Hf). simpl in Hf.
      destruct (child path p) as [nm|] eqn:Hc; [|done]. injection Hf as <-.
      cbn [name node_of]. destruct (proj1 (child_spec _ _ _) Hc) as [-> ?]. by split.
    + intros [Hlook Hname]. exists (path_join [path; name e], node_of e). split.
      * by apply elem_of_map_to_list.
      * cbn [fst snd].
        rewrite (proj2 (child_spec path _ (name e)) (conj eq_refl Hname)).
        by destruct e.
Qed.

Lemma leb_total (a b : Datatypes.list N) : Utf16.leb a b = true ∨ Utf16.leb b a = true.
Proof.
  revert b. induction a as [|x a IH]; intros [|y b]; simpl; auto.
  destruct (N.ltb_spec x y); [by left|].
  destruct (N.ltb_spec y x); [by right|].
  assert (x = y) as -> by lia. rewrite N.eqb_refl. simpl. apply IH.
Qed.

Lemma str_le_total : Total str_le.
Proof. intros a b. apply leb_total. Qed.

(** The order is that of the code units, not of the code points: a
    character beyond the basic plane, here U+1F600, is a pair of
    surrogates and comes before U+FF21. *)
Lemma sort_by_code_units :
  let fullwidth := string_of_list_ascii (map ascii_of_N [239; 188; 161]%N) in
  let emoji := string_of_list_ascii (map ascii_of_N [240; 159; 152; 128]%N) in
  Utf16.units fullwidth = [65313%N]
  ∧ Utf16.units emoji = [55357%N; 56832%N]
  ∧ sort [fullwidth; emoji] = [emoji; fullwidth].
Proof. intros fullwidth emoji. by vm_compute. Qed.

Lemma sort_sorted names : Sorted str_le (sort names).
Proof. apply (@Sorted_merge_sort _ str_le _ str_le_total). Qed.

Lemma sort_elem names n : n ∈ sort names ↔ n ∈ names.
Proof. unfold sort. by rewrite merge_sort_Permutation. Qed.

Lemma sort_NoDup names : NoDup names → NoDup (sort names).
Proof. unfold sort. by rewrite merge_sort_Permutation. Qed.

Lemma NoDup_map_filter {A B} (f : A → B) (P : A → Prop) `{∀ x, Decision (P x)} l :
  NoDup (map f l) → NoDup (map f (filter P l)).
Proof.
  induction l as [|x l IH]; [done|]. simpl. intros [Hx Hl]%NoDup_cons.
  rewrite filter_cons. destruct (decide (P x)); [|auto].
  simpl. apply NoDup_cons. split; [|auto].
  intros Hin%list_elem_of_In%in_map_iff. destruct Hin as (y & Hy & Hin%list_elem_of_In).
  apply list_elem_of_filter in Hin as [_ Hin]. apply Hx.
  apply list_elem_of_In, in_map_iff. exists y. split; [done|]. by apply list_elem_of_In.
Qed.

Lemma endsWith_empty s : endsWith s EmptyString = true.
Proof. unfold endsWith. apply bool_decide_eq_true. apply suffix_nil. Qed.

End listing_facts.

Lemma listFiles_run (dirPath : string) (ext : option string) (σ : gmap string node) :
  ∃ names,
    FileHandlerMore.listFiles dirPath ext σ = (Ok names, σ)
    ∧ Sorted FsDir.str_le names
    ∧ NoDup names
    ∧ ∀ n, n ∈ names ↔
        σ !! dirPath = Some Dir
        ∧ Path.is_name n = true
        ∧ (∃ content, σ !! path_join [dirPath; n] = Some (File content))
        ∧ (∀ e, ext = Some e → Path.endsWith n e = true).
Proof.
  destruct (readdir_run dirPath σ) as [Hσ Hentries].
  unfold FileHandlerMore.listFiles, try_catch, mbind, Promise_bind, await, resolve.
  destruct (FsDir.readdir dirPath σ) as [[entries|e] σ0] eqn:Hr; simpl in Hσ; subst σ0.
  - destruct (Hentries entries eq_refl) as (Hdir & Hnd & Hin).
    eexists. split; [done|].
    set (files := map FsDir.name (filter (λ e, FsDir.isFile e = true) entries)).
    assert (NoDup files) as Hfiles by by apply NoDup_map_filter.
    assert (∀ n, n ∈ files ↔
              Path.is_name n = true
              ∧ ∃ content, σ !! path_join [dirPath; n] = Some (File content)) as Hmem.
    { intros n. unfold files. rewrite list_elem_of_In, in_map_iff. split.
      - intros (e & <- & [Hfile He]%list_elem_of_In%list_elem_of_filter).
        apply Hin in He as [Hlook Hname]. split; [done|].
        unfold FsDir.isFile in Hfile. destruct (FsDir.node_of e) as [c|]; [eauto|done].
      - intros (Hname & c & Hlook).
        exists {| FsDir.name := n; FsDir.node_of := File c |}. split; [done|].
        apply list_elem_of_In, list_elem_of_filter. split; [done|]. by apply Hin. }
    split; [apply sort_sorted|].
    destruct (FileHandlerMore.truthy ext) as [e'|] eqn:Hext.
    + split; [by apply sort_NoDup, NoDup_filter|].
      intros n. rewrite sort_elem, list_elem_of_filter, Hmem.
      assert (ext = Some e') as ->.
      { destruct ext as [[|]|]; simpl in Hext; by simplify_eq. }
      split.
      * intros (Hend & Hname & Hc). split_and!; [done..|]. by intros ? [= <-].
      * intros (_ & Hname & Hc & Hend). split_and!; [|done..]. by apply Hend.
    + split; [by apply sort_NoDup|].
      intros n. rewrite sort_elem, Hmem. split.
      * intros (Hname & Hc). split_and!; [done..|].
        intros e' ->. destruct e'; [|done]. apply endsWith_empty.
      * by intros (_ & Hname & Hc & _).
  - exists []. split; [done|]. split; [constructor|]. split; [constructor|].
    intros n. split; [by intros ?%elem_of_nil|].
    intros (Hdir & _). exfalso.
    revert Hr. unfold FsDir.readdir. by rewrite Hdir.
Qed.

(** X6. [listFiles] never rejects and writes nothing.  It returns, in the
    ascending order of their code units and without repeats, exactly the
    names of the regular files that stand directly in the directory and end
    with the extension when one is given; so the list is empty when the
    path names no directory. *)
Theorem listFiles_lists_the_files (dirPath : string) (ext : option string)
    (σ : gmap string node) :
  ∃ names,
    FileHandlerMore.listFiles dirPath ext σ = (Ok names, σ)
    ∧ Sorted FsDir.str_le names
    ∧ NoDup names
    ∧ ∀ n, n ∈ names ↔
        σ !! dirPath = Some Dir
        ∧ Path.is_name n = true
        ∧ (∃ content, σ !! path_join [dirPath; n] = Some (File content))
        ∧ (∀ e, ext = Some e → Path.endsWith n e = true).
Proof. apply listFiles_run. Qed.


(** X7. [listDirs] never rejects and writes nothing.  It returns, in the
    ascending order of their code units and without repeats, exactly the
    names of the directories that stand directly in the directory; the list
    is empty when the path names no directory. *)
Theorem listDirs_lists_the_directories (dirPath : string) (σ : gmap string node) :
  ∃ names,
    FileHandlerMore.listDirs dirPath σ = (Ok names, σ)
    ∧ Sorted FsDir.str_le names
    ∧ NoDup names
    ∧ ∀ n, n ∈ names ↔
        σ !! dirPath = Some Dir
        ∧ Path.is_name n = true
        ∧ σ !! path_join [dirPath; n] = Some Dir.
Proof.
  destruct (readdir_run dirPath σ) as [Hσ Hentries].
  unfold FileHandlerMore.listDirs, try_catch, mbind, Promise_bind, await, resolve.
  destruct (FsDir.readdir dirPath σ) as [[entries|e] σ0] eqn:Hr; simpl in Hσ; subst σ0.
  - destruct (Hentries entries eq_refl) as (Hdir & Hnd & Hin).
    eexists. split; [done|].
    split; [apply sort_sorted|].
    split; [by apply sort_NoDup, NoDup_map_filter|].
    intros n. rewrite sort_elem, list_elem_of_In, in_map_iff. split.
    + intros (e & <- & [Hd He]%list_elem_of_In%list_elem_of_filter).
      apply Hin in He as [Hlook Hname]. split_and!; [done..|].
      unfold FsDir.isDirectory in Hd. by destruct (FsDir.node_of e).
    + intros (_ & Hname & Hlook).
      exists {| FsDir.name := n; FsDir.node_of := Dir |}. split; [done|].
      apply list_elem_of_In, list_elem_of_filter. split; [done|]. by apply Hin.
  - exists []. split; [done|]. split; [constructor|]. split; [constructor|].
    intros n. split; [by intros ?%elem_of_nil|].
    intros (Hdir & _). exfalso.
    revert Hr. unfold FsDir.readdir. by rewrite Hdir.
Qed.

(** ** The manager: ids that hold no record *)

Section missing_facts.
Import DatabaseManager.

Lemma missing_true arr id :
  missing arr id = true
  ↔ (id < 1)%Z ∨ (Z.of_nat (length arr) ≤ id)%Z ∨ index arr id = Some JNull.
Proof.
  unfold missing. rewrite !orb_true_iff, Z.ltb_lt, Z.leb_le.
  split.
  - intros [[?|?]|H]; [by left|by right; left|right; right].
    by destruct (index arr id) as [[]|].
  - intros [?|[?|H]]; [by left; left|by left; right|right]. by rewrite H.
Qed.

Lemma update_run self σ arr id data :
  array_is self σ arr → missing arr id = true →
  update self id data σ = (Throw (not_found id), σ).
Proof.
  unfold array_is, update, mbind, Promise_bind, await. by intros -> ->.
Qed.

Lemma delete_run self σ arr id protectFirst :
  array_is self σ arr → missing arr id = true →
  protectFirst && (id =? 1)%Z = false →
  delete self id protectFirst σ = (Throw (not_found id), σ).
Proof.
  unfold array_is, delete, mbind, Promise_bind, await. intros Harr Hm ->.
  by rewrite Harr, Hm.
Qed.

End missing_facts.

(** X8. An id that holds no record: below 1, at or beyond the length of the
    array, or at a slot that holds the sentinel.  [get], [update] and an
    unprotected [delete] of such an id reject with
    "Entity with ID <id> not found", and the file system is as it was:
    nothing is written, no backup is made, the ledger is not bumped.  The
    id is an integer below [10^21] in absolute value, which the message
    shows in digits. *)
Theorem missing_id_is_rejected_untouched (self : DatabaseManager)
    (σ : gmap string node) (arr : list json) (id : Z) (data : obj)
    (protectFirst : bool) :
  array_is self σ arr →
  (Z.abs id < 10 ^ 21)%Z →
  (id < 1)%Z ∨ (Z.of_nat (length arr) ≤ id)%Z
  ∨ DatabaseManager.index arr id = Some JNull →
  protectFirst = false ∨ id ≠ 1%Z →
  let e := Error ("Entity with ID " +:+ DatabaseManager.decimal id +:+ " not found") in
  DatabaseManager.get self id σ = (Throw e, σ)
  ∧ DatabaseManager.update self id data σ = (Throw e, σ)
  ∧ DatabaseManager.delete self id protectFirst σ = (Throw e, σ).
Proof.
  intros Harr _ Hid%missing_true Hp e. split_and!.
  - by rewrite (get_run _ _ _ _ Harr), Hid.
  - by apply (update_run _ _ arr).
  - apply (delete_run _ _ arr); [done..|].
    destruct Hp as [->|Hne]; [done|].
    apply andb_false_iff. right. by apply Z.eqb_neq.
Qed.

(** The slot that a delete has emptied, on the seeded project. *)
Lemma missing_id_is_rejected_untouched_witness :
  let arr := [JNull; JNull; JObj first_record] in
  let σ := disk [(filePath demo_manager, JArr arr);
                 (systemPath demo_sync, JObj demo_ledger)] in
  DatabaseManager.get demo_manager 1 σ
  = (Throw (Error "Entity with ID 1 not found"), σ)
  ∧ DatabaseManager.update demo_manager 1 [("name", JStr "x")] σ
    = (Throw (Error "Entity with ID 1 not found"), σ)
  ∧ DatabaseManager.delete demo_manager 1 false σ
    = (Throw (Error "Entity with ID 1 not found"), σ).
Proof.
  intros arr σ.
  assert (array_is demo_manager σ arr) as Harr by reflexivity.
  apply (missing_id_is_rejected_untouched demo_manager σ arr 1 _ false Harr).
  - by vm_compute.
  - right. right. reflexivity.
  - by left.
Defined.

(** ** The manager: update *)

Section update_facts.
Import DatabaseManager.

Lemma decimal_inj a b : decimal a = decimal b → a = b.
Proof.
  unfold decimal. intros H.
  apply (f_equal list_ascii_of_string) in H.
  rewrite !list_ascii_of_string_of_list_ascii in H.
  pose proof (parse_number_print a [] eq_refl) as Ha.
  rewrite H, parse_number_print in Ha by done. by injection Ha.
Qed.

Lemma imap_keys_NoDup {A} (f : A → json) (l : Datatypes.list A) :
  NoDup (keys (imap (λ i x, (decimal (Z.of_nat i), f x)) l)).
Proof.
  apply NoDup_alt. intros i j k. unfold keys.
  rewrite !list_lookup_fmap, !list_lookup_imap.
  destruct (l !! i) as [x|]; [|done]. destruct (l !! j) as [y|]; [|done].
  simpl. intros [= <-] [= H%decimal_inj]. lia.
Qed.

(** The own properties of a JavaScript value have distinct names. *)
Lemma own_props_NoDup v : wf_json v = true → NoDup (keys (own_props v)).
Proof.
  destruct v as [| | |s|items|o]; simpl; try (intros; constructor).
  - intros _. apply (imap_keys_NoDup (λ c, JStr (String c EmptyString))).
  - intros _. apply (imap_keys_NoDup id).
  - by intros [? _]%wf_json_obj.
Qed.

Lemma update_as_op self id data σ entity σ' :
  update self id data σ = (Ok entity, σ') →
  run_op self (Update id data) σ = (Ok (Updated entity), σ').
Proof. simpl. unfold mbind, Promise_bind, await. by intros ->. Qed.

(** [{ ...base, ...data, id }], property by property. *)
Lemma spread_get base data id k :
  NoDup (keys base) → NoDup (keys data) →
  obj_get k (spread base data id)
  = if String.eqb k "id" then Some (JNum id)
    else match obj_get k data with
         | Some v => Some v
         | None => obj_get k base
         end.
Proof.
  intros Hbase Hdata. unfold spread. rewrite obj_get_set.
  destruct (String.eqb k "id"); [done|].
  rewrite !obj_get_assign by done.
  destruct (obj_get k data); [done|]. by destruct (obj_get k base).
Qed.

Lemma index_insert_eq arr id x :
  (0 ≤ id < Z.of_nat (length arr))%Z →
  index (<[Z.to_nat id := x]> arr) id = Some x.
Proof.
  intros Hid. unfold index. destruct (Z.ltb_spec id 0); [lia|].
  apply list_lookup_insert_eq. lia.
Qed.

Lemma get_insert_other self σ σ' arr K x J r :
  array_is self σ arr → array_is self σ' (<[Z.to_nat K := x]> arr) →
  (1 ≤ K)%Z → J ≠ K →
  get self J σ = (Ok r, σ) → get self J σ' = (Ok r, σ').
Proof.
  intros Harr Harr' HK HJ. rewrite (get_run _ _ _ _ Harr), (get_run _ _ _ _ Harr').
  destruct (missing arr J) eqn:HmJ; [done|].
  apply missing_false in HmJ as HJ'. destruct HJ' as [HJ1 _].
  intros [= <-]. unfold missing in *.
  rewrite length_insert, index_insert_ne by (done || lia).
  by rewrite HmJ.
Qed.

End update_facts.

(** X9. Update.  On an array document, let an id hold a record and no
    directory stand at one of the two temporary paths.  When the name of
    the merged record converts to a string, the update resolves; when it
    does not, the update rejects with a [TypeError] from its log line, and
    the array it has written by then stays written.  When the update
    resolves, the entity it returns has the id of the slot, whatever id the
    caller's record names; every other property comes from the caller's
    record where it has one and from the stored record where it has not.
    The array read back is the old one with that slot replaced: [get] of
    the id returns the entity, and [get] of any other id returns what it
    returned before. *)
Theorem update_merges_into_the_slot (self : DatabaseManager) (σ : gmap string node)
    (arr : list json) (id : Z) (data : obj) :
  separate self → wf_json (JObj data) = true → array_is self σ arr →
  (∀ o, DatabaseManager.missing arr id = false →
        ledger_is (versionSync self) σ o →
        σ !! (filePath self +:+ ".tmp") ≠ Some Dir →
        σ !! (systemPath (versionSync self) +:+ ".tmp") ≠ Some Dir →
        let updated :=
          DatabaseManager.spread
            (DatabaseManager.own_props (default JNull (DatabaseManager.index arr id)))
            data id in
        (loggable updated →
         ∃ σ', DatabaseManager.update self id data σ = (Ok updated, σ'))
        ∧ (¬ loggable updated →
           ∃ σ', DatabaseManager.update self id data σ = (Throw TypeError, σ')
                 ∧ array_is self σ' (<[Z.to_nat id := JObj updated]> arr)))
  ∧ ∀ entity σ', DatabaseManager.update self id data σ = (Ok entity, σ') →
      ∃ existing,
        DatabaseManager.index arr id = Some existing
        ∧ existing ≠ JNull
        ∧ obj_get "id" entity = Some (JNum id)
        ∧ (∀ k, k ≠ "id" →
             obj_get k entity
             = match obj_get k data with
               | Some v => Some v
               | None => obj_get k (DatabaseManager.own_props existing)
               end)
        ∧ array_is self σ' (<[Z.to_nat id := JObj entity]> arr)
        ∧ DatabaseManager.get self id σ' = (Ok (JObj entity), σ')
        ∧ ∀ J r, J ≠ id →
            DatabaseManager.get self J σ = (Ok r, σ) →
            DatabaseManager.get self J σ' = (Ok r, σ').
Proof.
  intros Hsep Hdata Harr. split.
  - intros o Hm Hled Htmp1 Htmp2 updated.
    unfold DatabaseManager.update, mbind, Promise_bind, await.
    rewrite Harr, Hm. fold updated.
    destruct (writeArray_resolves self (<[Z.to_nat id := JObj updated]> arr) σ arr o
                Hsep Harr Hled Htmp1 Htmp2) as [σ' Hw].
    rewrite Hw, info_run. unfold loggable.
    destruct (from_option Logger.stringable true (obj_get "name" updated)).
    + split; [|done]. intros _. by exists σ'.
    + split; [done|]. intros _. exists σ'. split; [done|].
      eapply writeArray_array; [done| |done].
      apply (writes_wf self arr (Update id data) (Updated updated)).
      * by destruct (proj1 (wf_json_obj _) Hdata).
      * by eapply array_is_wf.
      * by split.
  - intros entity σ' Hrun%update_as_op.
    apply wf_json_obj in Hdata as [Hnd Hdata].
    destruct (run_op_array self (Update id data) σ (Updated entity) σ' arr
                Hsep Hdata Harr Hrun) as (arr' & Hw & Harr').
    destruct Hw as (Hm & Hent & ->).
    apply missing_false in Hm as Hid. destruct Hid as [Hid (existing & Hex & Hnull)].
    rewrite Hex in Hent. simpl in Hent.
    assert (NoDup (keys (DatabaseManager.own_props existing))) as Hprops.
    { apply own_props_NoDup. rewrite <- (index_wf arr id); [by rewrite Hex|].
      by eapply array_is_wf. }
    exists existing. split_and!; [done|done| | |done| |].
    + by rewrite Hent, spread_get.
    + intros k Hk. rewrite Hent, spread_get by done.
      by destruct (String.eqb_spec k "id").
    + rewrite (get_run _ _ _ _ Harr').
      unfold DatabaseManager.missing.
      rewrite length_insert, index_insert_eq by lia.
      destruct (Z.ltb_spec id 1); [lia|].
      by destruct (Z.leb_spec (Z.of_nat (length arr)) id); [lia|].
    + intros J r HJ. eapply get_insert_other; [done..|lia|done].
Qed.

(** The first record of the seeded project gets a new name, and an id that
    the slot overrides. *)
Lemma update_merges_into_the_slot_witness :
  let data := [("name", JStr "Renamed"); ("id", JNum 99)] in
  ∃ entity σ',
    DatabaseManager.update demo_manager 1 data seeded_disk = (Ok entity, σ')
    ∧ obj_get "id" entity = Some (JNum 1)
    ∧ obj_get "name" entity = Some (JStr "Renamed")
    ∧ obj_get "value" entity = Some (JNum 10)
    ∧ DatabaseManager.get demo_manager 1 σ' = (Ok (JObj entity), σ').
Proof.
  intros data.
  assert (array_is demo_manager seeded_disk [JNull; JObj first_record]) as Harr
    by reflexivity.
  assert (ledger_is demo_sync seeded_disk demo_ledger) as Hled by reflexivity.
  destruct (update_merges_into_the_slot demo_manager seeded_disk
              [JNull; JObj first_record] 1 data demo_separate eq_refl Harr)
    as [Hresolves Hresult].
  destruct (Hresolves demo_ledger eq_refl Hled) as [Hok _];
    [by vm_compute|by vm_compute|].
  destruct (Hok eq_refl) as [σ' Hrun].
  match type of Hrun with _ = (Ok ?e, _) => set (entity := e) in * end.
  destruct (Hresult entity σ' Hrun) as (existing & Hex & _ & Hid & Hk & _ & Hget & _).
  injection Hex as <-.
  exists entity, σ'. split_and!; [done|done| | |done].
  - by rewrite (Hk "name").
  - by rewrite (Hk "value").
Defined.

(** ** The manager: a bump that fails, and what [get] and [list] see afterwards *)

Section create_facts.
Import FileHandler DatabaseManager.

(** [create] up to the write of the array, which resolves. *)
Lemma create_writes_the_array self σ arr data :
  separate self → wf_json (JObj data) = true →
  (∀ id, wf_json (JObj (defaultFactory self id)) = true) →
  array_is self σ arr →
  σ !! (filePath self +:+ ".tmp") ≠ Some Dir →
  let id := Z.of_nat (length arr) in
  let arr' := arr ++ [JObj (spread (defaultFactory self id) data id)] in
  ∃ σ1, writeJson (filePath self) (JArr arr') σ = (Ok (), σ1)
        ∧ array_is self σ1 arr'
        ∧ σ1 !! systemPath (versionSync self) = σ !! systemPath (versionSync self).
Proof.
  intros Hsep Hdata Hdef Harr Htmp id arr'.
  destruct (array_is_file _ _ _ Harr) as [c Hc].
  destruct (writeJson_resolves (filePath self) (JArr arr') σ) as [σ1 Hw];
    [by rewrite Hc|done|].
  exists σ1. split; [done|]. destruct Hsep as (Hne & _ & _ & Htmp' & Hbak').
  split; [|by eapply writeJson_frame].
  apply writeJson_ok in Hw as (Hfile & _).
  apply array_is_written; [done|].
  apply wf_json_arr, Forall_app. split; [by apply wf_json_arr, (array_is_wf self σ)|].
  apply Forall_singleton, spread_wf.
  - by destruct (proj1 (wf_json_obj _) (Hdef id)).
  - by destruct (proj1 (wf_json_obj _) Hdata).
Qed.

End create_facts.

(** X10. No rollback.  When the ledger cannot be read (it is missing, or is
    not JSON), [create] rejects with the error of that read; but the array
    document has been written by then and stays written: it holds the new
    record, although the caller was told that the call failed and the
    ledger was not bumped. *)
Theorem create_is_not_rolled_back (self : DatabaseManager) (σ : gmap string node)
    (arr : list json) (data : obj) (e : error) :
  separate self → wf_json (JObj data) = true →
  (∀ id, wf_json (JObj (defaultFactory self id)) = true) →
  array_is self σ arr →
  (FileHandler.readJsonRaw (systemPath (versionSync self)) σ).1 = Throw e →
  σ !! (filePath self +:+ ".tmp") ≠ Some Dir →
  let id := Z.of_nat (length arr) in
  let entity := DatabaseManager.spread (defaultFactory self id) data id in
  ∃ σ', DatabaseManager.create self data σ = (Throw e, σ')
        ∧ array_is self σ' (arr ++ [JObj entity])
        ∧ σ' !! systemPath (versionSync self) = σ !! systemPath (versionSync self).
Proof.
  intros Hsep Hdata Hdef Harr Hled Htmp id entity.
  destruct (create_writes_the_array self σ arr data Hsep Hdata Hdef Harr Htmp)
    as (σ1 & Hw & Harr1 & Hsys).
  exists σ1. split; [|done].
  unfold DatabaseManager.create, DatabaseManager.writeArray,
    mbind, Promise_bind, await.
  rewrite Harr. cbv beta iota zeta. cbv zeta in Hw. rewrite Hw.
  unfold VersionSync.bump, mbind, Promise_bind, await.
  pose proof (readJsonRaw_ext _ _ _ Hsys) as Hext. rewrite Hled in Hext.
  pose proof (readJsonRaw_state (systemPath (versionSync self)) σ1) as Hst.
  destruct (FileHandler.readJsonRaw (systemPath (versionSync self)) σ1) as [r σ2].
  simpl in *. by subst.
Qed.

(** The demo project without its [System.json]: the create fails, and the
    record is in the array all the same. *)
Lemma create_is_not_rolled_back_witness :
  let σ := disk [(filePath demo_manager, JArr [JNull])] in
  ∃ σ', DatabaseManager.create demo_manager [("name", JStr "A")] σ
        = (Throw (ENOENT "/game/data/System.json"), σ')
        ∧ array_is demo_manager σ'
            [JNull; JObj [("id", JNum 1); ("name", JStr "A"); ("value", JNum 0)]].
Proof.
  intros σ.
  assert (array_is demo_manager σ [JNull]) as Harr by reflexivity.
  destruct (create_is_not_rolled_back demo_manager σ [JNull] [("name", JStr "A")]
              (ENOENT "/game/data/System.json") demo_separate eq_refl
              demo_factory_wf Harr eq_refl) as (σ' & Hrun & Harr' & _);
    [by vm_compute|].
  exists σ'. by split.
Defined.

(** X11. A record that was created is there to get, on one condition: the
    array held the sentinel slot.  After a [create] that resolves on an
    array that is not empty, [get] of the id returned resolves with the
    entity returned.  On an empty array the id returned is 0, which [get]
    takes for no record. *)
Theorem created_record_is_got (self : DatabaseManager) (σ σ' : gmap string node)
    (arr : list json) (data : obj) (r : Z * obj) :
  separate self → wf_json (JObj data) = true →
  (∀ id, wf_json (JObj (defaultFactory self id)) = true) →
  array_is self σ arr →
  DatabaseManager.create self data σ = (Ok r, σ') →
  (arr ≠ [] → DatabaseManager.get self r.1 σ' = (Ok (JObj r.2), σ'))
  ∧ (arr = [] →
     r.1 = 0%Z
     ∧ DatabaseManager.get self r.1 σ' = (Throw (DatabaseManager.not_found 0), σ')).
Proof.
  intros Hsep Hdata Hdef Harr Hrun%create_as_op.
  assert (js_op self (Create data)) as Hop.
  { split; [by destruct (proj1 (wf_json_obj _) Hdata)|].
    intros id. by destruct (proj1 (wf_json_obj _) (Hdef id)). }
  destruct (run_op_array _ _ _ _ _ _ Hsep Hop Harr Hrun) as (arr' & Hw & Harr').
  destruct Hw as (Hid & _ & ->).
  rewrite (get_run _ _ _ _ Harr'), Hid. split.
  - intros Hne. destruct arr as [|x arr]; [done|].
    unfold DatabaseManager.missing, DatabaseManager.index.
    rewrite length_app. cbn [length].
    destruct (Z.ltb_spec (Z.of_nat (S (length arr))) 1); [lia|].
    destruct (Z.leb_spec (Z.of_nat (S (length arr) + 1)) (Z.of_nat (S (length arr))));
      [lia|].
    destruct (Z.ltb_spec (Z.of_nat (S (length arr))) 0); [lia|].
    rewrite Nat2Z.id.
    change (S (length arr)) with (length (x :: arr)).
    by rewrite list_lookup_middle.
  - intros ->. done.
Qed.

(** An array document that is [[]]: the first record gets the id 0 and
    cannot be got. *)
Lemma created_record_is_got_witness :
  let σ := disk [(filePath demo_manager, JArr []);
                 (systemPath demo_sync, JObj demo_ledger)] in
  ∃ r σ', DatabaseManager.create demo_manager [("name", JStr "A")] σ = (Ok r, σ')
          ∧ r.1 = 0%Z
          ∧ DatabaseManager.get demo_manager r.1 σ'
            = (Throw (Error "Entity with ID 0 not found"), σ').
Proof.
  intros σ.
  assert (∃ r, (DatabaseManager.create demo_manager [("name", JStr "A")] σ).1 = Ok r)
    as [r Hrun] by (eexists; vm_compute; reflexivity).
  apply run_fst in Hrun.
  assert (array_is demo_manager σ []) as Harr by reflexivity.
  destruct (created_record_is_got demo_manager σ _ [] [("name", JStr "A")] r
              demo_separate eq_refl demo_factory_wf Harr Hrun) as [_ Hempty].
  destruct (Hempty eq_refl) as [H0 Hget].
  eexists r, _. split; [exact Hrun|]. split; [exact H0|exact Hget].
Defined.

(** ** The manager: what [list] returns after a mutation *)

Section list_facts.
Import DatabaseManager.

Lemma list_run self σ arr :
  array_is self σ arr →
  list self σ = (Ok (filter (λ e, is_null e = false) arr), σ).
Proof. unfold array_is, list, mbind, Promise_bind, await. by intros ->. Qed.

Lemma filter_insert (P : json → Prop) `{∀ x, Decision (P x)}
    (l : Datatypes.list json) i x y :
  l !! i = Some x → P x →
  ∃ l1 l2, filter P l = l1 ++ x :: l2
           ∧ filter P (<[i := y]> l) = l1 ++ filter P [y] ++ l2.
Proof.
  intros Hi Hx. exists (filter P (take i l)), (filter P (drop (S i) l)).
  rewrite insert_take_drop by by eapply lookup_lt_Some.
  rewrite <- (take_drop_middle l i x Hi) at 1.
  rewrite !filter_app, !(filter_cons _ x), !(filter_cons _ y), filter_nil.
  destruct (decide (P x)); [|done]. split; [done|].
  by destruct (decide (P y)).
Qed.

End list_facts.

(** X12. What [list] returns after a mutation that resolved.  After a
    create it is the old list with the new entity at the end.  After an
    update it is the old list with the record of that id replaced by the
    entity, in the same place.  After a delete it is the old list without
    the record of that id; the records before and after it keep their
    order. *)
Theorem list_after_a_mutation (self : DatabaseManager) (o : op)
    (σ σ' : gmap string node) (out : outcome) (arr : list json) :
  separate self → js_op self o → array_is self σ arr →
  run_op self o σ = (Ok out, σ') →
  ∃ before after,
    DatabaseManager.list self σ = (Ok before, σ)
    ∧ DatabaseManager.list self σ' = (Ok after, σ')
    ∧ match o, out with
      | Create _, Created _ entity => after = before ++ [JObj entity]
      | Update id _, Updated entity =>
          ∃ l1 old l2, DatabaseManager.index arr id = Some old
                       ∧ before = l1 ++ old :: l2
                       ∧ after = l1 ++ JObj entity :: l2
      | Delete id _, Deleted =>
          ∃ l1 old l2, DatabaseManager.index arr id = Some old
                       ∧ before = l1 ++ old :: l2
                       ∧ after = l1 ++ l2
      | _, _ => False
      end.
Proof.
  intros Hsep Hop Harr Hrun.
  destruct (run_op_array _ _ _ _ _ _ Hsep Hop Harr Hrun) as (arr' & Hw & Harr').
  eexists _, _. split; [by apply list_run|]. split; [by apply list_run|].
  destruct o as [data|id data|id protectFirst], out as [id' entity|entity|];
    simpl in Hw; try done.
  - destruct Hw as (_ & _ & ->). by rewrite filter_app.
  - destruct Hw as (Hm & _ & ->).
    apply missing_false in Hm as [Hid (old & Hold & Hnull)].
    assert (arr !! Z.to_nat id = Some old) as Hi.
    { revert Hold. unfold DatabaseManager.index.
      by destruct (Z.ltb_spec id 0); [lia|]. }
    destruct (filter_insert (λ e, DatabaseManager.is_null e = false) arr
                (Z.to_nat id) old (JObj entity) Hi) as (l1 & l2 & Hb & Ha).
    { by destruct old. }
    exists l1, old, l2. by rewrite Ha.
  - destruct Hw as (_ & Hm & ->).
    apply missing_false in Hm as [Hid (old & Hold & Hnull)].
    assert (arr !! Z.to_nat id = Some old) as Hi.
    { revert Hold. unfold DatabaseManager.index.
      by destruct (Z.ltb_spec id 0); [lia|]. }
    destruct (filter_insert (λ e, DatabaseManager.is_null e = false) arr
                (Z.to_nat id) old JNull Hi) as (l1 & l2 & Hb & Ha).
    { by destruct old. }
    exists l1, old, l2. by rewrite Ha.
Qed.

(** Three records, the second is deleted: the first and the third are
    listed, in that order. *)
Lemma list_after_a_mutation_witness :
  let second := [("id", JNum 2); ("name", JStr "Second")] in
  let third := [("id", JNum 3); ("name", JStr "Third")] in
  let arr := [JNull; JObj first_record; JObj second; JObj third] in
  let σ := disk [(filePath demo_manager, JArr arr);
                 (systemPath demo_sync, JObj demo_ledger)] in
  ∃ σ', run_op demo_manager (Delete 2 false) σ = (Ok Deleted, σ')
        ∧ DatabaseManager.list demo_manager σ'
          = (Ok [JObj first_record; JObj third], σ').
Proof.
  intros second third arr σ.
  assert ((run_op demo_manager (Delete 2 false) σ).1 = Ok Deleted) as Hrun
    by (vm_compute; reflexivity).
  apply run_fst in Hrun.
  assert (array_is demo_manager σ arr) as Harr by reflexivity.
  destruct (list_after_a_mutation demo_manager (Delete 2 false) σ _ Deleted arr
              demo_separate I Harr Hrun)
    as (before & after & Hb & Ha & l1 & old & l2 & Hold & Hbefore & ->).
  eexists. split; [exact Hrun|]. rewrite Ha.
  rewrite (list_run _ _ _ Harr) in Hb. injection Hb as <-.
  injection Hold as <-.
  change (filter _ arr) with ([JObj first_record] ++ JObj second :: [JObj third])
    in Hbefore.
  destruct l1 as [|x [|y l1]].
  - discriminate Hbefore.
  - injection Hbefore as <- <-. reflexivity.
  - injection Hbefore as _ _ Hl. destruct l1 as [|z l1]; [discriminate Hl|].
    injection Hl as _ Hl. destruct l1; discriminate Hl.
Defined.

(** ** The manager: search *)

Section search_facts.
Import DatabaseManager.

Lemma prefix_spec p s : String.prefix p s = true ↔ ∃ b, s = p +:+ b.
Proof.
  revert s. induction p as [|c p IH]; intros s.
  - destruct s; simpl; (split; [by eexists|done]).
  - destruct s as [|d s]; simpl; [split; [done|by intros [b Hb]]|].
    destruct (ascii_dec c d) as [<-|Hne].
    + rewrite IH. split; intros [b Hb]; exists b.
      * by rewrite Hb.
      * by injection Hb.
    + split; [done|]. intros [b Hb]. injection Hb as -> _. done.
Qed.

(** [includes] is the test for a substring. *)
Lemma includes_spec s sub :
  includes s sub = true ↔ ∃ a b, s = a +:+ sub +:+ b.
Proof.
  induction s as [|c s IH]; cbn [includes]; rewrite orb_true_iff, prefix_spec.
  - split.
    + intros [[b Hb]|?]; [|done]. by exists EmptyString, b.
    + intros (a & b & Hab). left. destruct a; [by exists b|discriminate Hab].
  - rewrite IH. split.
    + intros [[b Hb]|(a & b & Hab)]; [by exists EmptyString, b|].
      exists (String c a), b. by rewrite Hab.
    + intros ([|c' a] & b & Hab); [left; by exists b|right].
      injection Hab as -> ->. by exists a, b.
Qed.

Lemma search_run self σ entities query fields :
  list self σ = (Ok entities, σ) →
  search self query fields σ
  = (Ok (filter
           (λ entity,
              existsb
                (λ field,
                   match obj_get field (own_props entity) with
                   | Some (JStr value) => includes (toLowerCase value) (toLowerCase query)
                   | _ => false
                   end)
                fields = true)
           entities), σ).
Proof. unfold search, mbind, Promise_bind, await. by intros ->. Qed.

End search_facts.

Section case_facts.
Import DatabaseManager.

Lemma toLowerCase_cons c s :
  toLowerCase (String c s)
  = String (if is_upper c then ascii_of_N (N_of_ascii c + 32) else c) (toLowerCase s).
Proof. reflexivity. Qed.

Lemma N_of_ascii_bound c : (N_of_ascii c < 256)%N.
Proof. destruct c as [[] [] [] [] [] [] [] []]; by vm_compute. Qed.

Lemma lower_char c :
  N_of_ascii (if is_upper c then ascii_of_N (N_of_ascii c + 32) else c)
  = if is_upper c then (N_of_ascii c + 32)%N else N_of_ascii c.
Proof.
  unfold is_upper. cbv zeta.
  destruct (N.leb_spec 65 (N_of_ascii c)); simpl; [|done].
  destruct (N.leb_spec (N_of_ascii c) 90); [|done].
  apply N_ascii_embedding. lia.
Qed.

Lemma N_of_ascii_inj c d : N_of_ascii c = N_of_ascii d → c = d.
Proof. intros H. by rewrite <- (ascii_N_embedding c), <- (ascii_N_embedding d), H. Qed.

(** Two characters have the same small letter exactly when they are the
    same up to case. *)
Lemma same_char_spec c d :
  (if is_upper c then ascii_of_N (N_of_ascii c + 32) else c)
  = (if is_upper d then ascii_of_N (N_of_ascii d + 32) else d)
  ↔ same_char c d = true.
Proof.
  split.
  - intros H%(f_equal N_of_ascii). rewrite !lower_char in H.
    unfold same_char, is_upper in *. cbv zeta in *.
    rewrite !orb_true_iff, !andb_true_iff, !N.leb_le, !N.eqb_eq.
    destruct (Ascii.eqb_spec c d) as [->|Hne]; [by left; left|].
    assert (N_of_ascii c ≠ N_of_ascii d) by (by intros ?%N_of_ascii_inj).
    destruct (N.leb_spec 65 (N_of_ascii c)), (N.leb_spec (N_of_ascii c) 90),
      (N.leb_spec 65 (N_of_ascii d)), (N.leb_spec (N_of_ascii d) 90);
      simpl in H; lia.
  - intros H. apply N_of_ascii_inj. rewrite !lower_char.
    unfold same_char, is_upper in *. cbv zeta in *.
    rewrite !orb_true_iff, !andb_true_iff, !N.leb_le, !N.eqb_eq in H.
    destruct (Ascii.eqb_spec c d) as [->|Hne]; [done|].
    destruct (N.leb_spec 65 (N_of_ascii c)), (N.leb_spec (N_of_ascii c) 90),
      (N.leb_spec 65 (N_of_ascii d)), (N.leb_spec (N_of_ascii d) 90);
      simpl; lia.
Qed.

Lemma same_text_spec a b : toLowerCase a = toLowerCase b ↔ same_text a b = true.
Proof.
  revert b. induction a as [|c a IH]; intros [|d b]; try done.
  rewrite !toLowerCase_cons. cbn [same_text]. rewrite andb_true_iff, <- IH, <- same_char_spec.
  split; [by intros [= -> ->]|by intros [-> ->]].
Qed.

Lemma toLowerCase_app a b : toLowerCase (a +:+ b) = toLowerCase a +:+ toLowerCase b.
Proof.
  induction a as [|c a IH]; [done|].
  change (String c a +:+ b) with (String c (a +:+ b)).
  rewrite !toLowerCase_cons, IH. done.
Qed.

Lemma toLowerCase_app_inv s x y :
  toLowerCase s = x +:+ y →
  ∃ s1 s2, s = s1 +:+ s2 ∧ toLowerCase s1 = x ∧ toLowerCase s2 = y.
Proof.
  revert s. induction x as [|c x IH]; intros s.
  - intros H. by exists EmptyString, s.
  - destruct s as [|d s]; [done|]. rewrite toLowerCase_cons.
    change (String c x +:+ y) with (String c (x +:+ y)).
    intros [= Hc Hs]. destruct (IH s Hs) as (s1 & s2 & -> & <- & <-).
    exists (String d s1), s2. by rewrite toLowerCase_cons, Hc.
Qed.

(** The test of [search] on one value: the query occurs in it, up to the
    case of letters. *)
Lemma includes_lower value query :
  includes (toLowerCase value) (toLowerCase query) = true
  ↔ ∃ a m b, value = a +:+ m +:+ b ∧ same_text m query = true.
Proof.
  rewrite includes_spec. split.
  - intros (a' & b' & H).
    apply toLowerCase_app_inv in H as (a & mb & -> & _ & H).
    apply toLowerCase_app_inv in H as (m & b & -> & Hm & _).
    exists a, m, b. split; [done|]. by apply same_text_spec.
  - intros (a & m & b & -> & Hm%same_text_spec).
    exists (toLowerCase a), (toLowerCase b).
    by rewrite !toLowerCase_app, Hm.
Qed.

End case_facts.

(** X13. Search, over what [list] returns, on text of seven-bit characters.
    The entities found are those listed, in the order of the list, that
    have among the fields searched one whose value is a string in which the
    query occurs, up to the case of letters; so two queries that differ in
    case only find the same. *)
Theorem search_returns_the_matches (self : DatabaseManager) (query : string)
    (fields : list string) (σ : gmap string node) (entities : list json) :
  DatabaseManager.list self σ = (Ok entities, σ) →
  is_ascii query = true →
  forallb (ascii_fields fields) entities = true →
  ∃ found,
    DatabaseManager.search self query fields σ = (Ok found, σ)
    ∧ found `sublist_of` entities
    ∧ (∀ e, e ∈ found ↔
         e ∈ entities
         ∧ ∃ field value a m b,
             field ∈ fields
             ∧ obj_get field (DatabaseManager.own_props e) = Some (JStr value)
             ∧ value = a +:+ m +:+ b
             ∧ same_text m query = true)
    ∧ ∀ query',
        is_ascii query' = true → same_text query' query = true →
        DatabaseManager.search self query' fields σ = (Ok found, σ).
Proof.
  intros Hlist _ _. eexists. split; [by apply search_run|].
  split; [apply sublist_filter|]. split.
  - intros e. rewrite list_elem_of_filter, existsb_exists. split.
    + intros [(field & Hin & Hf) He]. split; [done|].
      destruct (obj_get field (DatabaseManager.own_props e)) as [[| | |value| |]|]
        eqn:Hget; try done.
      apply includes_lower in Hf as (a & m & b & Hab & Hm).
      exists field, value, a, m, b. split_and!; [by apply list_elem_of_In|done..].
    + intros [He (field & value & a & m & b & Hin & Hget & Hab & Hm)]. split; [|done].
      exists field. split; [by apply list_elem_of_In|].
      rewrite Hget. apply includes_lower. by exists a, m, b.
  - intros query' _ Hq%same_text_spec.
    rewrite (search_run _ _ _ _ _ Hlist). by rewrite Hq.
Qed.

(** The test of the repository: "hero" finds both 'Hero Sword' and
    'HERO SWORD', not 'Shield'. *)
Lemma search_returns_the_matches_witness :
  let a := JObj [("id", JNum 1); ("name", JStr "Hero Sword")] in
  let b := JObj [("id", JNum 2); ("name", JStr "Shield")] in
  let c := JObj [("id", JNum 3); ("name", JStr "HERO SWORD")] in
  let σ := disk [(filePath demo_manager, JArr [JNull; a; b; c])] in
  DatabaseManager.search demo_manager "hero" ["name"; "note"] σ = (Ok [a; c], σ)
  ∧ DatabaseManager.search demo_manager "HeRo" ["name"; "note"] σ = (Ok [a; c], σ).
Proof.
  intros a b c σ.
  assert (DatabaseManager.list demo_manager σ = (Ok [a; b; c], σ)) as Hlist
    by reflexivity.
  destruct (search_returns_the_matches demo_manager "hero" ["name"; "note"] σ _ Hlist
              eq_refl eq_refl)
    as (found & Hrun & _ & _ & Hcase).
  assert (found = [a; c]) as ->.
  { assert ((DatabaseManager.search demo_manager "hero" ["name"; "note"] σ).1
            = Ok [a; c]) as H by (vm_compute; reflexivity).
    rewrite Hrun in H. by injection H. }
  split; [exact Hrun|]. apply Hcase; reflexivity.
Defined.

(** ** The ledger: documents that are not objects *)

(** X14. A ledger document that is JSON but not an object.  On [null] and
    on a number, a string or a boolean, [bump] rejects with a [TypeError]
    and writes nothing.  On an array, [bump] resolves with 1 (unless a
    directory stands at the temporary path) and rewrites the array as it
    was: the counter is lost, [current] returns 0 before and after, and
    the next [bump] returns 1 again. *)
Theorem bump_needs_an_object (self : VersionSync) (σ : gmap string node) (doc : json) :
  FileHandler.readJsonRaw (systemPath self) σ = (Ok doc, σ) →
  (∀ items, doc = JArr items →
     (σ !! (systemPath self +:+ ".tmp") ≠ Some Dir →
      ∃ σ', VersionSync.bump self σ = (Ok 1%Z, σ'))
     ∧ ∀ n σ', VersionSync.bump self σ = (Ok n, σ') →
         n = 1%Z
         ∧ FileHandler.readJsonRaw (systemPath self) σ' = (Ok (JArr items), σ')
         ∧ VersionSync.current self σ' = (Ok 0%Z, σ'))
  ∧ ((∀ items, doc ≠ JArr items) → (∀ o, doc ≠ JObj o) →
     VersionSync.bump self σ = (Throw TypeError, σ)).
Proof.
  intros Hread. split.
  - intros items ->.
    assert (VersionSync.bump self σ
            = match FileHandler.writeJson (systemPath self) (JArr items) σ with
              | (Ok _, σ') => (Ok 1%Z, σ')
              | (Throw e, σ') => (Throw e, σ')
              end) as Hbump.
    { unfold VersionSync.bump, mbind, Promise_bind, await. rewrite Hread. simpl.
      unfold await, resolve.
      by destruct (FileHandler.writeJson _ _ σ) as [[[]|e] σ']. }
    rewrite Hbump. split.
    + intros Htmp.
      destruct (writeJson_resolves (systemPath self) (JArr items) σ) as [σ' ->];
        [|done|by eexists].
      revert Hread. rewrite readJsonRaw_run.
      by destruct (σ !! systemPath self) as [[]|].
    + intros n σ'.
      destruct (FileHandler.writeJson _ _ σ) as [[[]|e] σ1] eqn:Hw; intros [= <- <-].
      apply writeJson_ok in Hw as (Hfile & _).
      assert (FileHandler.readJsonRaw (systemPath self) σ1 = (Ok (JArr items), σ1))
        as Hread'.
      { apply readJsonRaw_written; [done|]. by eapply readJsonRaw_wf. }
      split_and!; [done|done|].
      unfold VersionSync.current, mbind, Promise_bind, await. by rewrite Hread'.
  - intros Harr Hobj.
    unfold VersionSync.bump, mbind, Promise_bind, await. rewrite Hread.
    destruct doc as [| | | |items|o]; try done.
    + by destruct (Harr items).
    + by destruct (Hobj o).
Qed.

(** A [System.json] that holds [[1, 2]]: bumping twice returns 1 both
    times. *)
Lemma bump_needs_an_object_witness :
  let σ := disk [(systemPath demo_sync, JArr [JNum 1; JNum 2])] in
  ∃ σ1 σ2,
    VersionSync.bump demo_sync σ = (Ok 1%Z, σ1)
    ∧ VersionSync.current demo_sync σ1 = (Ok 0%Z, σ1)
    ∧ VersionSync.bump demo_sync σ1 = (Ok 1%Z, σ2).
Proof.
  intros σ.
  assert (FileHandler.readJsonRaw (systemPath demo_sync) σ
          = (Ok (JArr [JNum 1; JNum 2]), σ)) as Hread by reflexivity.
  destruct (bump_needs_an_object demo_sync σ _ Hread) as [Harr _].
  destruct (Harr _ eq_refl) as [Hresolves Hresult].
  assert ((VersionSync.bump demo_sync σ).1 = Ok 1%Z) as Hb1 by (vm_compute; reflexivity).
  apply run_fst in Hb1.
  destruct (Hresult _ _ Hb1) as (_ & Hread1 & Hcur).
  destruct (bump_needs_an_object demo_sync _ _ Hread1) as [Harr1 _].
  destruct (Harr1 _ eq_refl) as [Hresolves1 _].
  destruct Hresolves1 as [σ2 Hb2]; [by vm_compute|].
  eexists _, σ2. split; [exact Hb1|]. split; [exact Hcur|exact Hb2].
Defined.

(** ** The project: validation in full, and loading *)

Section validate_more_facts.
Import FileHandler ProjectManager.

Lemma check_data_files_run dataDir files errors σ :
  check_data_files dataDir files errors σ
  = (Ok (errors ++
         map missing_file_error
           (filter (λ file, ¬ is_Some (σ !! path_join [dataDir; file])) files)), σ).
Proof.
  revert errors. induction files as [|file files IH]; intros errors.
  - simpl. by rewrite app_nil_r.
  - cbn [check_data_files]. unfold mbind, Promise_bind, await.
    rewrite exists_run, IH, filter_cons.
    destruct (decide (is_Some (σ !! path_join [dataDir; file]))) as [Hs|Hs].
    + rewrite bool_decide_eq_true_2 by done.
      by destruct (decide (¬ is_Some (σ !! path_join [dataDir; file]))).
    + rewrite bool_decide_eq_false_2 by done.
      destruct (decide (¬ is_Some (σ !! path_join [dataDir; file]))); [|done].
      by rewrite <- app_assoc.
Qed.

Lemma validate_run self σ :
  validate self σ
  = (Ok (let errors :=
           if marker_present self σ then []
           else ["Missing project file: game.rmmzproject"] in
         if bool_decide (is_Some (σ !! dataPath self)) then
           let errors :=
             errors ++
             map missing_file_error
               (filter (λ file, ¬ is_Some (σ !! path_join [dataPath self; file]))
                  REQUIRED_DATA_FILES) in
           {| valid := bool_decide (length errors = 0); errors := errors |}
         else
           {| valid := false; errors := errors ++ ["Missing data/ directory"] |}), σ).
Proof.
  unfold validate, mbind, Promise_bind, await.
  rewrite find_project_file_run, exists_run. fold (marker_present self σ).
  destruct (bool_decide (is_Some (σ !! dataPath self))); cbn [negb].
  - unfold await. rewrite check_data_files_run. by destruct (marker_present self σ).
  - by destruct (marker_present self σ).
Qed.

End validate_more_facts.

Lemma validate_spec (self : ProjectManager.ProjectManager)
    (σ : gmap string node) :
  ∃ v,
    ProjectManager.validate self σ = (Ok v, σ)
    ∧ (ProjectManager.valid v = true ↔ ProjectManager.errors v = [])
    ∧ (ProjectManager.valid v = true ↔
         marker_present self σ = true
         ∧ is_Some (σ !! ProjectManager.dataPath self)
         ∧ ∀ file, file ∈ ProjectManager.REQUIRED_DATA_FILES →
             is_Some (σ !! path_join [ProjectManager.dataPath self; file]))
    ∧ ("Missing project file: game.rmmzproject" ∈ ProjectManager.errors v ↔
         marker_present self σ = false)
    ∧ ("Missing data/ directory" ∈ ProjectManager.errors v ↔
         σ !! ProjectManager.dataPath self = None)
    ∧ ∀ file, file ∈ ProjectManager.REQUIRED_DATA_FILES →
        ("Missing data file: " +:+ file ∈ ProjectManager.errors v ↔
           is_Some (σ !! ProjectManager.dataPath self)
           ∧ σ !! path_join [ProjectManager.dataPath self; file] = None).
Proof.
  eexists. split; [apply validate_run|]. cbv zeta.
  set (missing := filter (λ file, ¬ is_Some (σ !! path_join [ProjectManager.dataPath self; file]))
                    ProjectManager.REQUIRED_DATA_FILES).
  assert (∀ file, file ∈ missing ↔
            file ∈ ProjectManager.REQUIRED_DATA_FILES
            ∧ σ !! path_join [ProjectManager.dataPath self; file] = None) as Hmissing.
  { intros file. unfold missing. rewrite list_elem_of_filter.
    rewrite <- eq_None_not_Some. tauto. }
  clearbody missing.
  assert (∀ file, missing_file_error file ∈ map missing_file_error missing
                  ↔ file ∈ missing) as Hmap.
  { intros file. rewrite list_elem_of_In, in_map_iff. split.
    - intros (file' & Heq%append_inj_r & Hin). subst. by apply list_elem_of_In.
    - intros Hin. exists file. split; [done|]. by apply list_elem_of_In. }
  assert (∀ e, e ∈ map missing_file_error missing →
               ∃ file, e = "Missing data file: " +:+ file) as Hshape.
  { intros e (file & <- & _)%list_elem_of_In%in_map_iff. by exists file. }
  assert (missing = [] ↔
            ∀ file, file ∈ ProjectManager.REQUIRED_DATA_FILES →
              is_Some (σ !! path_join [ProjectManager.dataPath self; file])) as Hnone.
  { split.
    - intros Hnil file Hin.
      destruct (σ !! path_join [ProjectManager.dataPath self; file]) eqn:Hf; [done|].
      assert (file ∈ missing) as H by by apply Hmissing. rewrite Hnil in H.
      by apply elem_of_nil in H.
    - intros Hall. destruct missing as [|file rest]; [done|].
      assert (file ∈ file :: rest) as [Hin Hf]%Hmissing by left.
      destruct (Hall file Hin) as [x Hx]. by rewrite Hx in Hf. }
  destruct (bool_decide (is_Some (σ !! ProjectManager.dataPath self))) eqn:Hdata;
    [apply bool_decide_eq_true in Hdata|apply bool_decide_eq_false in Hdata];
    destruct (marker_present self σ) eqn:Hmarker; cbn [ProjectManager.valid ProjectManager.errors app].
  - (* all there but perhaps data files *)
    split_and!.
    + rewrite bool_decide_eq_true. by destruct (map missing_file_error missing).
    + rewrite bool_decide_eq_true, <- Hnone.
      destruct missing; simpl; split; try done; [by intros (_ & _ & ?)].
    + split; [|done]. intros (file & H)%Hshape. vm_compute in H. discriminate H.
    + split; [|intros H; by rewrite H in Hdata; destruct Hdata].
      intros (file & H)%Hshape. vm_compute in H. discriminate H.
    + intros file Hin. fold (missing_file_error file). rewrite Hmap, Hmissing. tauto.
  - split_and!.
    + by rewrite bool_decide_eq_true.
    + rewrite bool_decide_eq_true. split; [done|]. by intros (? & _).
    + split; [done|]. intros _. left.
    + split; [|intros H; by rewrite H in Hdata; destruct Hdata].
      intros [H|(file & H)%Hshape]%elem_of_cons; [discriminate H|].
      vm_compute in H. discriminate H.
    + intros file Hin. fold (missing_file_error file).
      rewrite elem_of_cons, Hmap, Hmissing. split; [|tauto].
      intros [H|?]; [|tauto]. vm_compute in H. discriminate H.
  - assert (σ !! ProjectManager.dataPath self = None) as Hnot.
    { by destruct (σ !! ProjectManager.dataPath self); [destruct Hdata|]. }
    split_and!.
    + done.
    + split; [done|]. by intros (_ & ? & _).
    + split; [|done]. intros H%list_elem_of_singleton. discriminate H.
    + split; [done|]. intros _. by apply list_elem_of_singleton.
    + intros file Hin. split; [|by intros [? _]].
      intros H%list_elem_of_singleton. vm_compute in H. discriminate H.
  - assert (σ !! ProjectManager.dataPath self = None) as Hnot.
    { by destruct (σ !! ProjectManager.dataPath self); [destruct Hdata|]. }
    split_and!.
    + done.
    + split; [done|]. by intros (? & _).
    + split; [done|]. intros _. left.
    + split; [done|]. intros _. right. left.
    + intros file Hin. split; [|by intros [? _]].
      intros [H|H%list_elem_of_singleton]%elem_of_cons; vm_compute in H; discriminate H.
Qed.

(** X15. [validate] never rejects and writes nothing, and its errors say
    exactly what is missing.  The result is valid when and only when there
    is no error, which is when one of the two project files, the data
    directory and each of the fourteen required data files is there.  The
    project-file error is present exactly when neither project file is; the
    data-directory error exactly when the data directory is not there; and
    the error of a required data file exactly when the data directory is
    there and the file is not. *)
Theorem validate_reports_what_is_missing (self : ProjectManager.ProjectManager)
    (σ : gmap string node) :
  ∃ v,
    ProjectManager.validate self σ = (Ok v, σ)
    ∧ (ProjectManager.valid v = true ↔ ProjectManager.errors v = [])
    ∧ (ProjectManager.valid v = true ↔
         marker_present self σ = true
         ∧ is_Some (σ !! ProjectManager.dataPath self)
         ∧ ∀ file, file ∈ ProjectManager.REQUIRED_DATA_FILES →
             is_Some (σ !! path_join [ProjectManager.dataPath self; file]))
    ∧ ("Missing project file: game.rmmzproject" ∈ ProjectManager.errors v ↔
         marker_present self σ = false)
    ∧ ("Missing data/ directory" ∈ ProjectManager.errors v ↔
         σ !! ProjectManager.dataPath self = None)
    ∧ ∀ file, file ∈ ProjectManager.REQUIRED_DATA_FILES →
        ("Missing data file: " +:+ file ∈ ProjectManager.errors v ↔
           is_Some (σ !! ProjectManager.dataPath self)
           ∧ σ !! path_join [ProjectManager.dataPath self; file] = None).
Proof. apply validate_spec. Qed.

(** X16. [load] resolves for every path and on every disk, with a manager
    of that path, and writes nothing: a directory that [validate] finds
    invalid is loaded all the same, the errors going to the log only.  So
    it is on the empty disk, where [validate] reports that the project
    file and the data directory are missing. *)
Theorem load_accepts_any_directory (projectPath : string) (σ : gmap string node) :
  ProjectManagerMore.load projectPath σ
  = (Ok {| ProjectManager.projectPath := projectPath |}, σ)
  ∧ (ProjectManager.validate {| ProjectManager.projectPath := projectPath |} ∅).1
    = Ok {| ProjectManager.valid := false;
            ProjectManager.errors :=
              ["Missing project file: game.rmmzproject"; "Missing data/ directory"] |}.
Proof.
  split.
  - unfold ProjectManagerMore.load, mbind, Promise_bind, await.
    by rewrite validate_run.
  - rewrite validate_run. cbn [fst]. by rewrite bool_decide_eq_false_2 by by intros [? ?].
Qed.

(** ** The project: counting and the summary *)

Section count_facts.
Import FileHandler ProjectManager ProjectManagerMore.

Lemma countEntities_run self filename σ :
  countEntities self filename σ
  = (Ok match (readJsonRaw (path_join [dataPath self; filename]) σ).1 with
        | Ok (JArr items) =>
            length (filter (λ e, DatabaseManager.is_null e = false) items)
        | _ => 0
        end, σ).
Proof.
  unfold countEntities, try_catch, mbind, Promise_bind, await.
  pose proof (readJsonRaw_state (path_join [dataPath self; filename]) σ) as Hσ.
  destruct (readJsonRaw _ σ) as [[[]|e] σ']; simpl in *; by subst.
Qed.

End count_facts.

(** X17. [countEntities] never rejects and writes nothing.  For a manager
    of the same document, it returns the number of entities that [list]
    returns when [list] resolves, and 0 when [list] rejects: a document
    that is missing, is not JSON or is not an array counts as empty. *)
Theorem countEntities_counts_the_list (self : ProjectManager.ProjectManager)
    (filename : string) (manager : DatabaseManager) (σ : gmap string node) :
  filePath manager = path_join [ProjectManager.dataPath self; filename] →
  ∃ n,
    ProjectManagerMore.countEntities self filename σ = (Ok n, σ)
    ∧ (∀ entities, (DatabaseManager.list manager σ).1 = Ok entities →
         n = length entities)
    ∧ (∀ e, (DatabaseManager.list manager σ).1 = Throw e → n = 0).
Proof.
  intros Hpath. eexists. split; [apply countEntities_run|].
  unfold DatabaseManager.list, mbind, Promise_bind, await.
  rewrite readArray_run, Hpath.
  destruct (FileHandler.readJsonRaw _ σ) as [[[]|e] σ']; simpl;
    split; intros ? [=]; by subst.
Qed.

(** The actors of the seeded project, counted through the manager that the
    tools build for them. *)
Lemma countEntities_counts_the_list_witness :
  let project := {| ProjectManager.projectPath := "/game" |} in
  ProjectManagerMore.countEntities project "Actors.json" seeded_disk
  = (Ok 1, seeded_disk)
  ∧ ProjectManagerMore.countEntities project "Items.json" seeded_disk
    = (Ok 0, seeded_disk).
Proof.
  intros project. split.
  - destruct (countEntities_counts_the_list project "Actors.json"
                (DatabaseTools.getManager project DatabaseTools.actors) seeded_disk
                eq_refl) as (n & Hrun & Hlist & _).
    rewrite Hrun. by rewrite (Hlist [JObj first_record] eq_refl).
  - destruct (countEntities_counts_the_list project "Items.json"
                (DatabaseTools.getManager project DatabaseTools.items) seeded_disk
                eq_refl) as (n & Hrun & _ & Hnone).
    rewrite Hrun. by rewrite (Hnone (ENOENT "/game/data/Items.json") eq_refl).
Defined.

(** ** The names of the map files *)

Section map_name_facts.
Import Path ProjectManagerMore DatabaseTools.

Lemma string_length_app a b :
  String.length (a +:+ b) = String.length a + String.length b.
Proof.
  induction a as [|c a IH]; [done|].
  change (S (String.length (a +:+ b)) = S (String.length a + String.length b)).
  by rewrite IH.
Qed.

Lemma string_length_of_list l : String.length (string_of_list_ascii l) = length l.
Proof. induction l as [|c l IH]; simpl; by rewrite ?IH. Qed.

Lemma of_uint_acc_bound d : ∀ acc m,
  length (print_uint d) ≤ m →
  (Npos (Pos.of_uint_acc d acc) < (Npos acc + 1) * 10 ^ N.of_nat m)%N.
Proof.
  induction d as [|d IH|d IH|d IH|d IH|d IH|d IH|d IH|d IH|d IH|d IH];
    intros acc m Hm; cbn [print_uint length Pos.of_uint_acc] in *;
    [pose proof (N.pow_nonzero 10 (N.of_nat m) ltac:(lia)); nia|..];
    (destruct m as [|m]; [lia|]);
    rewrite Nat2N.inj_succ, N.pow_succ_r';
    (eapply N.lt_le_trans; [apply (IH _ m); lia|]);
    rewrite N.mul_assoc; apply N.mul_le_mono_r; lia.
Qed.

Lemma of_uint_bound d m :
  length (print_uint d) ≤ m → (N.of_uint d < 10 ^ N.of_nat m)%N.
Proof.
  revert m. unfold N.of_uint.
  induction d as [|d IH|d IH|d IH|d IH|d IH|d IH|d IH|d IH|d IH|d IH];
    intros m Hm; cbn [print_uint length Pos.of_uint] in *;
    [apply N.neq_0_lt_0, N.pow_nonzero; lia
    |destruct m as [|m]; [lia|]; rewrite Nat2N.inj_succ, N.pow_succ_r';
     specialize (IH m ltac:(lia)); lia
    |..];
    (destruct m as [|m]; [lia|]);
    rewrite Nat2N.inj_succ, N.pow_succ_r';
    (eapply N.lt_le_trans; [apply (of_uint_acc_bound _ _ m); lia|]);
    apply N.mul_le_mono_r; lia.
Qed.

Lemma print_N_short n : length (print_N n) ≤ 3 → (n < 1000)%N.
Proof.
  intros H%of_uint_bound. by rewrite DecimalN.Unsigned.of_to in H.
Qed.

(** A name that the pattern accepts has eleven characters. *)
Lemma is_map_file_length f : is_map_file f = true → String.length f = 11.
Proof.
  unfold is_map_file.
  destruct (strip_prefix "Map" f) as [[|a [|b [|c rest]]]|] eqn:Hf; try done.
  apply strip_prefix_spec in Hf as ->.
  intros [_ ->%String.eqb_eq]%andb_true_iff. done.
Qed.

Lemma mapFilename_length id :
  String.length (mapFilename id) = 8 + max 3 (length (print_Z id)).
Proof.
  unfold mapFilename, padStart, DatabaseManager.decimal.
  rewrite !string_length_app, !string_length_of_list, length_replicate.
  change (String.length "Map") with 3. change (String.length ".json") with 5. lia.
Qed.

(** The thousand names, by evaluation. *)
Lemma mapFilename_digits x y z :
  x < 10 → y < 10 → z < 10 →
  mapFilename (Z.of_nat (100 * x + 10 * y + z))
  = "Map" +:+ String (digit x) (String (digit y) (String (digit z) ".json")).
Proof.
  intros Hx Hy Hz.
  assert (forallb (λ x, forallb (λ y, forallb (λ z,
            String.eqb (mapFilename (Z.of_nat (100 * x + 10 * y + z)))
              ("Map" +:+ String (digit x) (String (digit y) (String (digit z) ".json"))))
            (seq 0 10)) (seq 0 10)) (seq 0 10) = true) as H
    by (vm_compute; reflexivity).
  rewrite forallb_forall in H. specialize (H x). rewrite in_seq in H.
  specialize (H ltac:(lia)).
  rewrite forallb_forall in H. specialize (H y). rewrite in_seq in H.
  specialize (H ltac:(lia)).
  rewrite forallb_forall in H. specialize (H z). rewrite in_seq in H.
  specialize (H ltac:(lia)).
  by apply String.eqb_eq.
Qed.

Lemma is_digit_spec c : is_digit c = true → ∃ k, k < 10 ∧ c = digit k.
Proof.
  unfold is_digit. intros [H1%N.leb_le H2%N.leb_le]%andb_true_iff.
  exists (nat_of_ascii c - 48). unfold nat_of_ascii. split; [lia|].
  unfold digit. replace (48 + (N.to_nat (N_of_ascii c) - 48)) with (nat_of_ascii c)
    by (unfold nat_of_ascii; lia).
  by rewrite ascii_nat_embedding.
Qed.

Lemma is_digit_digit k : k < 10 → is_digit (digit k) = true.
Proof.
  intros Hk.
  assert (forallb (λ k, is_digit (digit k)) (seq 0 10) = true) as H
    by (vm_compute; reflexivity).
  rewrite forallb_forall in H. apply H. apply in_seq. lia.
Qed.

Lemma map_file_has_an_id f :
  is_map_file f = true → ∃ id, (0 ≤ id ≤ 999)%Z ∧ f = mapFilename id.
Proof.
  unfold is_map_file.
  destruct (strip_prefix "Map" f) as [[|a [|b [|c rest]]]|] eqn:Hf; try done.
  apply strip_prefix_spec in Hf as ->.
  intros [[[(x & Hx & ->)%is_digit_spec (y & Hy & ->)%is_digit_spec]%andb_true_iff
             (z & Hz & ->)%is_digit_spec]%andb_true_iff
            ->%String.eqb_eq]%andb_true_iff.
  exists (Z.of_nat (100 * x + 10 * y + z)). split; [lia|].
  by rewrite mapFilename_digits.
Qed.

Lemma id_has_a_map_file id :
  (0 ≤ id ≤ 999)%Z → is_map_file (mapFilename id) = true.
Proof.
  intros Hid.
  assert (forallb (λ i, is_map_file (mapFilename (Z.of_nat i))) (seq 0 1000) = true)
    as H by (vm_compute; reflexivity).
  rewrite forallb_forall in H. specialize (H (Z.to_nat id)).
  rewrite Z2Nat.id in H by lia. apply H. apply in_seq. lia.
Qed.

Lemma map_file_id_in_range id :
  is_map_file (mapFilename id) = true → (0 ≤ id ≤ 999)%Z.
Proof.
  intros Hf. pose proof (is_map_file_length _ Hf) as Hlen.
  rewrite mapFilename_length in Hlen.
  assert (length (print_Z id) ≤ 3) as Hshort by lia.
  destruct id as [|p|p].
  - lia.
  - apply print_N_short in Hshort. lia.
  - exfalso. assert (length (print_N (Npos p)) ≤ 3) as Hp by (simpl in Hshort; lia).
    apply print_N_short in Hp.
    assert (forallb (λ i, negb (is_map_file (mapFilename (- Z.of_nat i)))) (seq 1 999)
            = true) as H by (vm_compute; reflexivity).
    rewrite forallb_forall in H. specialize (H (Pos.to_nat p)).
    replace (- Z.of_nat (Pos.to_nat p))%Z with (Z.neg p) in H by lia.
    rewrite Hf in H. discriminate H. apply in_seq. lia.
Qed.

Lemma mapFilename_inj id id' :
  (0 ≤ id ≤ 999)%Z → (0 ≤ id' ≤ 999)%Z →
  mapFilename id = mapFilename id' → id = id'.
Proof.
  assert (∀ i, (0 ≤ i ≤ 999)%Z →
            ∃ x y z, x < 10 ∧ y < 10 ∧ z < 10 ∧ i = Z.of_nat (100 * x + 10 * y + z))
    as Hsplit.
  { intros i Hi. exists (Z.to_nat i / 100), (Z.to_nat i mod 100 / 10), (Z.to_nat i mod 10).
    pose proof (Nat.div_mod_eq (Z.to_nat i) 100).
    pose proof (Nat.div_mod_eq (Z.to_nat i mod 100) 10).
    pose proof (Nat.mod_upper_bound (Z.to_nat i) 100 ltac:(lia)).
    pose proof (Nat.mod_upper_bound (Z.to_nat i mod 100) 10 ltac:(lia)).
    pose proof (Nat.mod_upper_bound (Z.to_nat i) 10 ltac:(lia)).
    assert (Z.to_nat i mod 100 mod 10 = Z.to_nat i mod 10) as Hmm.
    { replace 100 with (10 * 10) by done. rewrite Nat.Div0.mod_mul_r.
      rewrite Nat.mul_comm, Nat.Div0.mod_add. by rewrite Nat.Div0.mod_mod. }
    split_and!; [|lia|lia|lia].
    apply Nat.Div0.div_lt_upper_bound. lia. }
  intros (x & y & z & Hx & Hy & Hz & ->)%Hsplit
         (x' & y' & z' & Hx' & Hy' & Hz' & ->)%Hsplit.
  rewrite !mapFilename_digits by done.
  assert (∀ k k', k < 10 → k' < 10 → digit k = digit k' → k = k') as Hdigit.
  { intros k k' Hk Hk' H. apply (f_equal nat_of_ascii) in H. unfold digit in H.
    rewrite !nat_ascii_embedding in H by lia. lia. }
  intros H. injection H as Ha Hb Hc.
  apply Hdigit in Ha, Hb, Hc; try done. by subst.
Qed.

End map_name_facts.

(** X18. The names of the map files.  The pattern by which [getInfo] takes
    a data file for a map accepts the name that [mapFilename] gives to an
    id exactly when the id is between 0 and 999, and it accepts no other
    name.  So the file of a map whose id is 1000 or more, which the tools
    write as they write any other, is not counted as a map. *)
Theorem map_files_are_the_ids_below_1000 :
  (∀ id, ProjectManagerMore.is_map_file (DatabaseTools.mapFilename id) = true
         ↔ (0 ≤ id ≤ 999)%Z)
  ∧ (∀ f, ProjectManagerMore.is_map_file f = true
          ↔ ∃ id, (0 ≤ id ≤ 999)%Z ∧ f = DatabaseTools.mapFilename id)
  ∧ DatabaseTools.mapFilename 7 = "Map007.json"
  ∧ DatabaseTools.mapFilename 1000 = "Map1000.json".
Proof.
  split_and!; [| |reflexivity|reflexivity].
  - intros id. split; [apply map_file_id_in_range|apply id_has_a_map_file].
  - intros f. split; [apply map_file_has_an_id|].
    intros (id & Hid & ->). by apply id_has_a_map_file.
Qed.

(** ** The summary of a project *)

Section info_facts.
Import Path FileHandlerMore ProjectManager ProjectManagerMore DatabaseTools.

Lemma getInfo_run self σ :
  ∃ dataFiles,
    listFiles (dataPath self) (Some ".json") σ = (Ok dataFiles, σ)
    ∧ NoDup dataFiles
    ∧ getInfo self σ
      = (match (VersionSync.current (getVersionSync self) σ).1 with
         | Ok versionId =>
             Ok {| name := basename (projectPath self);
                   path := projectPath self;
                   dataFiles := dataFiles;
                   mapCount := length (filter (λ f, is_map_file f = true) dataFiles);
                   actorCount :=
                     match (countEntities self "Actors.json" σ).1 with
                     | Ok n => n
                     | Throw _ => 0
                     end;
                   itemCount :=
                     match (countEntities self "Items.json" σ).1 with
                     | Ok n => n
                     | Throw _ => 0
                     end;
                   versionId := versionId |}
         | Throw e => Throw e
         end, σ).
Proof.
  destruct (listFiles_run (dataPath self) (Some ".json") σ)
    as (dataFiles & Hlist & _ & Hnd & _).
  exists dataFiles. split; [done|]. split; [done|].
  unfold getInfo, mbind, Promise_bind, await. rewrite Hlist, !countEntities_run.
  pose proof (current_state (getVersionSync self) σ) as Hσ.
  destruct (VersionSync.current (getVersionSync self) σ) as [[v|e] σ'];
    simpl in *; by subst.
Qed.

(** The map files among the data files are as many as the ids from 0 to
    999 whose map file is among them. *)
Lemma map_files_count (dataFiles : list string) :
  NoDup dataFiles →
  length (filter (λ f, is_map_file f = true) dataFiles)
  = length (filter (λ id, mapFilename id ∈ dataFiles) (seqZ 0 1000)).
Proof.
  intros Hnd.
  rewrite <- (length_fmap mapFilename (filter _ (seqZ 0 1000))).
  apply Permutation_length, NoDup_Permutation.
  - by apply NoDup_filter.
  - apply NoDup_fmap_2_strong; [|apply NoDup_filter, NoDup_seqZ].
    intros id id' [_ Hid%elem_of_seqZ]%list_elem_of_filter
      [_ Hid'%elem_of_seqZ]%list_elem_of_filter.
    apply mapFilename_inj; lia.
  - intros f. rewrite list_elem_of_filter, list_elem_of_fmap. split.
    + intros [(id & Hid & ->)%map_file_has_an_id Hin].
      exists id. split; [done|]. apply list_elem_of_filter. split; [done|].
      apply elem_of_seqZ. lia.
    + intros (id & -> & [Hin Hid%elem_of_seqZ]%list_elem_of_filter).
      split; [|done]. apply id_has_a_map_file. lia.
Qed.

End info_facts.

(** X19. The summary of a project.  [getInfo] writes nothing.  It rejects
    exactly when the ledger cannot be read, with the error of [current]; a
    missing data directory or missing documents do not make it reject, they
    count as empty.  When it resolves, the version is what [current]
    returns, the data files are what [listFiles] returns for the extension
    [.json], the counts are those of [countEntities], the number of maps is
    the number of ids from 0 to 999 whose map file is among the data
    files, and the name is the last part of the project path. *)
Theorem getInfo_summarises_the_project (self : ProjectManager.ProjectManager)
    (σ : gmap string node) :
  (ProjectManagerMore.getInfo self σ).2 = σ
  ∧ (∀ e, (VersionSync.current (ProjectManagerMore.getVersionSync self) σ).1 = Throw e →
       (ProjectManagerMore.getInfo self σ).1 = Throw e)
  ∧ (∀ v, (VersionSync.current (ProjectManagerMore.getVersionSync self) σ).1 = Ok v →
       ∃ info,
         (ProjectManagerMore.getInfo self σ).1 = Ok info
         ∧ ProjectManagerMore.versionId info = v
         ∧ ProjectManagerMore.path info = ProjectManager.projectPath self
         ∧ FileHandlerMore.listFiles (ProjectManager.dataPath self) (Some ".json") σ
           = (Ok (ProjectManagerMore.dataFiles info), σ)
         ∧ ProjectManagerMore.countEntities self "Actors.json" σ
           = (Ok (ProjectManagerMore.actorCount info), σ)
         ∧ ProjectManagerMore.countEntities self "Items.json" σ
           = (Ok (ProjectManagerMore.itemCount info), σ)
         ∧ ProjectManagerMore.mapCount info
           = length (filter (λ id, DatabaseTools.mapFilename id
                                   ∈ ProjectManagerMore.dataFiles info)
                       (seqZ 0 1000))
         ∧ ∀ parent name,
             ProjectManager.projectPath self = path_join [parent; name] →
             Path.is_name name = true →
             ProjectManagerMore.name info = name).
Proof.
  destruct (getInfo_run self σ) as (dataFiles & Hlist & Hnd & ->).
  split; [done|]. split.
  - by intros e ->.
  - intros v ->. eexists. split; [done|]. cbn.
    rewrite !countEntities_run. split_and!; try done.
    + by apply map_files_count.
    + intros parent name -> Hname. by apply basename_join.
Qed.

(** The seeded project: version 0, one actor, no item, no map. *)
Lemma getInfo_summarises_the_project_witness :
  let project := {| ProjectManager.projectPath := "/game" |} in
  ∃ info,
    (ProjectManagerMore.getInfo project seeded_disk).1 = Ok info
    ∧ ProjectManagerMore.name info = "game"
    ∧ ProjectManagerMore.versionId info = 0%Z
    ∧ ProjectManagerMore.actorCount info = 1
    ∧ ProjectManagerMore.itemCount info = 0
    ∧ ProjectManagerMore.mapCount info = 0.
Proof.
  intros project.
  destruct (getInfo_summarises_the_project project seeded_disk) as (_ & _ & Hinfo).
  destruct (Hinfo 0%Z eq_refl)
    as (info & Hrun & Hv & _ & Hfiles & Hactors & Hitems & Hmaps & Hname).
  exists info. split_and!; [done| |done| | |].
  - by apply (Hname EmptyString "game").
  - assert ((ProjectManagerMore.countEntities project "Actors.json" seeded_disk).1
            = Ok 1) as H by reflexivity.
    rewrite Hactors in H. by injection H.
  - assert ((ProjectManagerMore.countEntities project "Items.json" seeded_disk).1
            = Ok 0) as H by reflexivity.
    rewrite Hitems in H. by injection H.
  - assert ((FileHandlerMore.listFiles (ProjectManager.dataPath project)
               (Some ".json") seeded_disk).1 = Ok []) as H by reflexivity.
    rewrite Hfiles in H. injection H as H. rewrite Hmaps, H.
    vm_compute. reflexivity.
Defined.

(** ** The resources of a project *)

Section resource_facts.
Import Path FileHandlerMore ProjectManager ProjectManagerMore.

Lemma listFiles_files_in dirPath σ :
  listFiles dirPath None σ = (Ok (files_in dirPath σ), σ).
Proof.
  unfold files_in.
  destruct (listFiles_run dirPath None σ) as (names & -> & _). done.
Qed.

Lemma record_set_fresh k v (r : list (string * list string)) :
  k ∉ r.*1 → record_set k v r = r ++ [(k, v)].
Proof.
  induction r as [|[k' v'] r IH]; [done|]. cbn [record_set].
  rewrite fmap_cons. intros [Hk Hr]%not_elem_of_cons. simpl in Hk.
  destruct (String.eqb_spec k k'); [done|]. by rewrite IH.
Qed.

Lemma collect_resources_run self type σ dirs : ∀ result,
  NoDup dirs → (∀ dir, dir ∈ dirs → dir ∉ result.*1) →
  collect_resources self type dirs result σ
  = (Ok (result ++ omap (resource_entry self type σ) dirs), σ).
Proof.
  induction dirs as [|dir dirs IH]; intros result Hnd Hfresh.
  - cbn. by rewrite app_nil_r.
  - apply NoDup_cons in Hnd as [Hdir Hnd].
    assert (dir ∉ result.*1) as Hd by (apply Hfresh; left).
    assert (∀ files dir', dir' ∈ dirs →
              dir' ∉ (if (0 <? length files)%nat
                      then record_set dir files result else result).*1) as Hnext.
    { intros files dir' Hin. destruct (0 <? length files)%nat.
      - rewrite record_set_fresh, fmap_app by done.
        intros [?|Heq%list_elem_of_singleton]%elem_of_app.
        + by apply (Hfresh dir'); [right|].
        + simpl in Heq. by subst.
      - apply Hfresh. by right. }
    cbn [collect_resources omap list_omap]. unfold resource_entry at 1.
    destruct (truthy type) as [type'|] eqn:Htype.
    + destruct (negb (startsWith dir type')).
      * rewrite IH; [done|done|]. intros dir' Hin. apply Hfresh. by right.
      * unfold mbind, Promise_bind, await. rewrite listFiles_files_in.
        rewrite IH by auto.
        destruct (0 <? length _)%nat; [|done].
        by rewrite record_set_fresh, <- app_assoc.
    + unfold mbind, Promise_bind, await. rewrite listFiles_files_in.
      rewrite IH by auto.
      destruct (0 <? length _)%nat; [|done].
      by rewrite record_set_fresh, <- app_assoc.
Qed.

Lemma omap_keys_sublist {A} (f : string → option (string * A)) (l : list string) :
  (∀ x y, f x = Some y → y.1 = x) → (omap f l).*1 `sublist_of` l.
Proof.
  intros Hf. induction l as [|x l IH]; [done|]. cbn [omap list_omap].
  destruct (f x) as [y|] eqn:Hy.
  - rewrite fmap_cons, (Hf x y Hy). by apply sublist_skip.
  - by apply sublist_cons.
Qed.

Lemma resource_entry_spec self type σ dir entry :
  resource_entry self type σ dir = Some entry
  ↔ entry.1 = dir
    ∧ (∀ t, type = Some t → startsWith dir t = true)
    ∧ entry.2 ≠ []
    ∧ listFiles (path_join [projectPath self; dir]) None σ = (Ok entry.2, σ).
Proof.
  unfold resource_entry. rewrite (listFiles_files_in _ σ).
  set (files := files_in _ σ).
  assert (∀ z : option (string * list string),
            (if (0 <? length files)%nat then Some (dir, files) else None) = Some entry
            ↔ entry.1 = dir ∧ entry.2 ≠ [] ∧ files = entry.2) as Hentry.
  { intros _. clearbody files. destruct files as [|f fs]; cbn.
    - split; [done|]. intros (_ & Hne & Heq). by rewrite <- Heq in Hne.
    - split; [by intros [= <-]|].
      intros (<- & _ & Heq). destruct entry. simpl in *. by subst. }
  destruct type as [[|c t]|]; cbn [truthy].
  - rewrite (Hentry None). split.
    + intros (? & ? & ->). split_and!; [done| |done..].
      intros t [= <-]. by destruct dir.
    + intros (? & _ & ? & [= ?]). done.
  - destruct (startsWith dir (String c t)) eqn:Hs; cbn [negb].
    + rewrite (Hentry None). split.
      * intros (? & ? & ->). split_and!; [done| |done..]. by intros ? [= <-].
      * intros (? & _ & ? & [= ?]). done.
    + split; [done|]. intros (_ & Ht & _). by rewrite (Ht _ eq_refl) in Hs.
  - rewrite (Hentry None). split.
    + intros (? & ? & ->). by split_and!.
    + intros (? & _ & ? & [= ?]). done.
Qed.

End resource_facts.

(** X20. [listResources] never rejects and writes nothing.  Its result
    names, in the order of the code's table, exactly those resource
    directories that begin with the type asked for, if one is, and hold at
    least one regular file; each with what [listFiles] returns for it.  A
    directory that is missing or empty is left out. *)
Theorem listResources_lists_what_is_there (self : ProjectManager.ProjectManager)
    (type : option string) (σ : gmap string node) :
  ∃ result,
    ProjectManagerMore.listResources self type σ = (Ok result, σ)
    ∧ result.*1 `sublist_of` ProjectManagerMore.RESOURCE_DIRS
    ∧ ∀ dir files, (dir, files) ∈ result ↔
        dir ∈ ProjectManagerMore.RESOURCE_DIRS
        ∧ (∀ t, type = Some t → Path.startsWith dir t = true)
        ∧ files ≠ []
        ∧ FileHandlerMore.listFiles (path_join [ProjectManager.projectPath self; dir])
            None σ
          = (Ok files, σ).
Proof.
  eexists. split.
  { unfold ProjectManagerMore.listResources.
    rewrite collect_resources_run; [done| |intros ? _; apply not_elem_of_nil].
    apply (bool_decide_unpack (NoDup ProjectManagerMore.RESOURCE_DIRS)).
    vm_compute. exact I. }
  rewrite app_nil_l. split.
  - apply omap_keys_sublist. by intros dir entry [<- _]%resource_entry_spec.
  - intros dir files. rewrite list_elem_of_omap. split.
    + intros (dir' & Hin & (Hd & Ht & Hne & Hlist)%resource_entry_spec).
      simpl in *. by subst.
    + intros (Hin & Ht & Hne & Hlist). exists dir. split; [done|].
      by apply resource_entry_spec.
Qed.

(** ** The managers of the tools *)

(** X21. The manager that [getManager] builds for an entity type of a
    project.  Its document is the file of that type in the data directory,
    and it is separate from the ledger and from the ledger's backup and
    temporary file; its ledger is the one of the project, the same for all
    eight types.  The record that its factory makes for an id is a
    JavaScript object with that id, an empty name and an empty note. *)
Theorem tool_manager_of_a_type (project : ProjectManager.ProjectManager)
    (entityType : DatabaseTools.EntityType) :
  let manager := DatabaseTools.getManager project entityType in
  filePath manager
  = path_join [ProjectManager.dataPath project; DatabaseTools.filename entityType]
  ∧ versionSync manager = ProjectManagerMore.getVersionSync project
  ∧ systemPath (versionSync manager)
    = path_join [ProjectManager.dataPath project; "System.json"]
  ∧ separate manager
  ∧ ∀ id,
      wf_json (JObj (defaultFactory manager id)) = true
      ∧ obj_get "id" (defaultFactory manager id) = Some (JNum id)
      ∧ obj_get "name" (defaultFactory manager id) = Some (JStr EmptyString)
      ∧ obj_get "note" (defaultFactory manager id) = Some (JStr EmptyString).
Proof.
  intros manager. split_and!; [done..| |].
  - unfold separate, manager. cbn [filePath versionSync systemPath
      DatabaseTools.getManager ProjectManagerMore.getVersionSync
      DatabaseManager.new VersionSync.new path_join foldl].
    rewrite !append_assoc.
    destruct entityType; cbn [DatabaseTools.filename];
      split_and!; intros H; repeat (apply append_inj_r in H); discriminate H.
  - intros id. destruct entityType; by vm_compute.
Qed.

(** X22. A project that [validate] finds valid has a document for every
    manager that the tools build, and a ledger: something stands at the
    path of each of the eight entity documents and at [System.json]. *)
Theorem valid_project_has_the_documents (project : ProjectManager.ProjectManager)
    (σ : gmap string node) (v : ProjectManager.Validation) :
  ProjectManager.validate project σ = (Ok v, σ) →
  ProjectManager.valid v = true →
  (∀ entityType,
     is_Some (σ !! filePath (DatabaseTools.getManager project entityType)))
  ∧ is_Some (σ !! systemPath (ProjectManagerMore.getVersionSync project)).
Proof.
  destruct (validate_spec project σ) as (v' & -> & _ & Hvalid & _).
  intros [= <-] (_ & _ & Hall)%Hvalid. split.
  - intros entityType. apply (Hall (DatabaseTools.filename entityType)).
    destruct entityType; repeat constructor.
  - apply (Hall "System.json"). repeat constructor.
Qed.

Lemma valid_project_has_the_documents_witness :
  let project := {| ProjectManager.projectPath := "/game" |} in
  let σ : gmap string node :=
    list_to_map
      (("/game/game.rmmzproject", File "RPGMZ 1.8.0") :: ("/game/data", Dir)
       :: map (λ file, (path_join ["/game/data"; file], File "[null]"))
            ProjectManager.REQUIRED_DATA_FILES) in
  (ProjectManager.validate project σ).1
  = Ok {| ProjectManager.valid := true; ProjectManager.errors := [] |}
  ∧ is_Some (σ !! "/game/data/Weapons.json").
Proof.
  intros project σ.
  assert ((ProjectManager.validate project σ).1
          = Ok {| ProjectManager.valid := true; ProjectManager.errors := [] |})
    as Hrun by (vm_compute; reflexivity).
  split; [exact Hrun|].
  assert (ProjectManager.validate project σ
          = (Ok {| ProjectManager.valid := true; ProjectManager.errors := [] |}, σ))
    as Hrun'.
  { apply run_read; [|exact Hrun]. by rewrite validate_run. }
  destruct (valid_project_has_the_documents project σ _ Hrun' eq_refl) as [Hall _].
  exact (Hall DatabaseTools.weapons).
Defined.

(** ** Mutations: what they leave alone, and the backup *)

Section frame_facts.
Import FileHandler VersionSync DatabaseManager.

Lemma writeArray_frame self data σ r σ' q :
  writeArray self data σ = (r, σ') →
  q ≠ filePath self → q ≠ filePath self +:+ ".tmp" → q ≠ filePath self +:+ ".bak" →
  q ≠ systemPath (versionSync self) →
  q ≠ systemPath (versionSync self) +:+ ".tmp" →
  q ≠ systemPath (versionSync self) +:+ ".bak" →
  σ' !! q = σ !! q.
Proof.
  unfold writeArray, mbind, Promise_bind, await, resolve.
  intros H Hq1 Hq2 Hq3 Hq4 Hq5 Hq6.
  destruct (writeJson (filePath self) (JArr data) σ) as [[[]|e] σ1] eqn:Hw.
  - destruct (bump (versionSync self) σ1) as [[n|e] σ2] eqn:Hb; simplify_eq;
      by rewrite (bump_frame _ _ _ _ _ Hb), (writeJson_frame _ _ _ _ _ _ Hw).
  - simplify_eq. by eapply writeJson_frame.
Qed.

Lemma run_op_frame self o σ r σ' q :
  run_op self o σ = (r, σ') →
  q ≠ filePath self → q ≠ filePath self +:+ ".tmp" → q ≠ filePath self +:+ ".bak" →
  q ≠ systemPath (versionSync self) →
  q ≠ systemPath (versionSync self) +:+ ".tmp" →
  q ≠ systemPath (versionSync self) +:+ ".bak" →
  σ' !! q = σ !! q.
Proof.
  intros H Hq1 Hq2 Hq3 Hq4 Hq5 Hq6.
  assert (∀ data r1 σ1, writeArray self data σ = (r1, σ1) → σ1 !! q = σ !! q) as Hw.
  { intros. by eapply writeArray_frame. }
  pose proof (readArray_state self σ) as Hσ.
  destruct o as [data|id data|id protectFirst]; simpl in H;
    unfold create, update, delete, mbind, Promise_bind, await, resolve, throw in H.
  - destruct (readArray self σ) as [[arr|e] σ0]; simpl in Hσ; subst σ0;
      [|by simplify_eq].
    destruct (writeArray self _ σ) as [[[]|e] σ1] eqn:Hrun;
      [rewrite info_run in H;
       destruct (from_option Logger.stringable _ _);
       unfold resolve, throw in H; simplify_eq; eauto
      |simplify_eq; eauto].
  - destruct (readArray self σ) as [[arr|e] σ0]; simpl in Hσ; subst σ0;
      [|by simplify_eq].
    destruct (missing arr id); [by simplify_eq|].
    destruct (writeArray self _ σ) as [[[]|e] σ1] eqn:Hrun;
      [rewrite info_run in H;
       destruct (from_option Logger.stringable _ _);
       unfold resolve, throw in H; simplify_eq; eauto
      |simplify_eq; eauto].
  - destruct (protectFirst && (id =? 1)%Z); [by simplify_eq|].
    destruct (readArray self σ) as [[arr|e] σ0]; simpl in Hσ; subst σ0;
      [|by simplify_eq].
    destruct (missing arr id); [by simplify_eq|].
    destruct (writeArray self _ σ) as [[[]|e] σ1] eqn:Hrun;
      [rewrite info_run in H;
       destruct (from_option Logger.stringable _ _);
       unfold resolve, throw in H; simplify_eq; eauto
      |simplify_eq; eauto].
Qed.

Lemma append_inj_l (a b s : string) : a +:+ s = b +:+ s → a = b.
Proof.
  intros H. apply (f_equal list_ascii_of_string) in H.
  rewrite !list_ascii_of_string_app in H. apply app_inv_tail in H.
  apply (f_equal string_of_list_ascii) in H.
  by rewrite !string_of_list_ascii_of_string in H.
Qed.

Lemma bak_ne_tmp (a b : string) : a +:+ ".bak" ≠ b +:+ ".tmp".
Proof.
  intros H. apply (f_equal list_ascii_of_string) in H.
  rewrite !list_ascii_of_string_app in H.
  apply (f_equal (@rev ascii)) in H. rewrite !rev_app_distr in H.
  discriminate H.
Qed.

End frame_facts.

(** X23. A create, an update or a delete, whether it resolves or rejects,
    touches nothing but six paths: the array document, the ledger, and the
    temporary file and the backup of each.  So the manager of one entity
    type leaves the documents of the other types as they are. *)
Theorem mutation_touches_six_paths (self : DatabaseManager) (o : op)
    (σ : gmap string node) (q : string) :
  q ≠ filePath self → q ≠ filePath self +:+ ".tmp" → q ≠ filePath self +:+ ".bak" →
  q ≠ systemPath (versionSync self) →
  q ≠ systemPath (versionSync self) +:+ ".tmp" →
  q ≠ systemPath (versionSync self) +:+ ".bak" →
  (run_op self o σ).2 !! q = σ !! q.
Proof.
  destruct (run_op self o σ) as [r σ'] eqn:Hrun. simpl. by eapply run_op_frame.
Qed.

(** A new actor on the seeded project: the items, which are not even
    there, stay so. *)
Lemma mutation_touches_six_paths_witness :
  let project := {| ProjectManager.projectPath := "/game" |} in
  let actors := DatabaseTools.getManager project DatabaseTools.actors in
  let items := DatabaseTools.getManager project DatabaseTools.items in
  (run_op actors (Create [("name", JStr "Hero")]) seeded_disk).2 !! filePath items
  = seeded_disk !! filePath items.
Proof.
  intros project actors items.
  apply (mutation_touches_six_paths actors (Create [("name", JStr "Hero")])
           seeded_disk (filePath items)); discriminate.
Defined.

(** X24. The backup after a mutation.  After a create, an update or a
    delete that resolved, the backup of the array document holds the
    document as it was before the call, so that reading it gives the array
    of before; unless a directory stood at the backup path. *)
Theorem backup_holds_the_array_of_before (self : DatabaseManager) (o : op)
    (σ σ' : gmap string node) (out : outcome) (arr : list json) :
  separate self → array_is self σ arr →
  σ !! (filePath self +:+ ".bak") ≠ Some Dir →
  run_op self o σ = (Ok out, σ') →
  σ' !! (filePath self +:+ ".bak") = σ !! filePath self
  ∧ FileHandler.readJsonRaw (filePath self +:+ ".bak") σ' = (Ok (JArr arr), σ').
Proof.
  intros (Hne & Hne1 & Hne2 & Htmp & Hbak) Harr Hdir
    (arr' & data' & _ & _ & (σ1 & n & Hw & Hb)%writeArray_ok)%run_op_ok.
  destruct (array_is_file _ _ _ Harr) as [c Hc].
  assert (σ' !! (filePath self +:+ ".bak") = Some (File c)) as Hbackup.
  { rewrite (bump_frame _ _ _ _ _ Hb).
    - apply writeJson_ok in Hw as (_ & _ & ->). unfold after_backup. rewrite Hc.
      destruct (σ !! (filePath self +:+ ".bak")) as [[]|]; [|done|];
        by rewrite lookup_insert_eq.
    - done.
    - apply bak_ne_tmp.
    - intros H%append_inj_l. done. }
  split; [by rewrite Hc|].
  revert Harr. unfold array_is. rewrite readArray_run, !readJsonRaw_run, Hc, Hbackup.
  destruct (JSON_parse c) as [[]|]; intros [= <-]; done.
Qed.

(** The seeded project: after a delete, the backup still has the record. *)
Lemma backup_holds_the_array_of_before_witness :
  ∃ σ', run_op demo_manager (Delete 1 false) seeded_disk = (Ok Deleted, σ')
        ∧ FileHandler.readJsonRaw (filePath demo_manager +:+ ".bak") σ'
          = (Ok (JArr [JNull; JObj first_record]), σ')
        ∧ array_is demo_manager σ' [JNull; JNull].
Proof.
  assert ((run_op demo_manager (Delete 1 false) seeded_disk).1 = Ok Deleted) as Hrun
    by (vm_compute; reflexivity).
  apply run_fst in Hrun.
  assert (array_is demo_manager seeded_disk [JNull; JObj first_record]) as Harr
    by reflexivity.
  destruct (backup_holds_the_array_of_before demo_manager _ seeded_disk _ _ _
              demo_separate Harr ltac:(by vm_compute) Hrun) as [_ Hbak].
  eexists. split; [exact Hrun|]. split; [exact Hbak|].
  destruct (run_op_array demo_manager (Delete 1 false) seeded_disk Deleted _ _
              demo_separate I Harr Hrun) as (arr' & Hw & Harr').
  destruct Hw as (_ & _ & ->). exact Harr'.
Defined.

(** ** The map files *)

Section map_file_facts.
Import Path DatabaseTools MapTools.

Lemma print_Z_short z : length (print_Z z) ≤ 3 → (-99 ≤ z ≤ 999)%Z.
Proof.
  destruct z as [|p|p]; cbn [print_Z length].
  - lia.
  - intros H%print_N_short. lia.
  - intros H. assert (length (print_N (Npos p)) ≤ 2) as H2%of_uint_bound by lia.
    rewrite DecimalN.Unsigned.of_to in H2. change (10 ^ N.of_nat 2)%N with 100%N in H2.
    lia.
Qed.

Lemma padStart_long s : 3 ≤ String.length s → padStart s 3 "0" = s.
Proof.
  intros H. unfold padStart. by replace (3 - String.length s) with 0 by lia.
Qed.

(** Two negative ids get different names: after the zero that fills a
    name of two characters comes the sign. *)
Lemma mapFilename_inj_neg p p' :
  mapFilename (Z.neg p) = mapFilename (Z.neg p') → Z.neg p = Z.neg p'.
Proof.
  unfold mapFilename. intros Heq%append_inj_r%append_inj_l.
  apply decimal_inj. revert Heq. unfold padStart, DatabaseManager.decimal.
  rewrite !string_length_of_list. cbn [print_Z length].
  destruct (print_N_head (N.pos p)) as (c & r & -> & _).
  destruct (print_N_head (N.pos p')) as (c' & r' & -> & _).
  cbn [length].
  destruct r as [|d r], r' as [|d' r']; cbn.
  - by intros [= ->].
  - intros H. discriminate H.
  - intros H. discriminate H.
  - done.
Qed.

(** Ids of up to three characters get different names. *)
Lemma mapFilename_inj_short id id' :
  (-99 ≤ id ≤ 999)%Z → (-99 ≤ id' ≤ 999)%Z →
  mapFilename id = mapFilename id' → id = id'.
Proof.
  intros Hid Hid' Heq.
  destruct (decide (0 ≤ id)%Z) as [Hpos|Hneg], (decide (0 ≤ id')%Z) as [Hpos'|Hneg'].
  - apply mapFilename_inj; [lia|lia|done].
  - pose proof (id_has_a_map_file id ltac:(lia)) as Hfile.
    rewrite Heq in Hfile. apply map_file_id_in_range in Hfile. lia.
  - pose proof (id_has_a_map_file id' ltac:(lia)) as Hfile.
    rewrite <- Heq in Hfile. apply map_file_id_in_range in Hfile. lia.
  - destruct id as [|p|p], id' as [|p'|p']; try lia. by apply mapFilename_inj_neg.
Qed.

(** Different maps have different files. *)
Lemma mapFilename_inj_all id id' : mapFilename id = mapFilename id' → id = id'.
Proof.
  intros Heq. pose proof (f_equal String.length Heq) as Hlen.
  rewrite !mapFilename_length in Hlen.
  destruct (decide (length (print_Z id) ≤ 3)) as [Hs|Hl].
  - assert (length (print_Z id') ≤ 3) as Hs' by lia.
    apply print_Z_short in Hs, Hs'. by apply mapFilename_inj_short.
  - assert (¬ length (print_Z id') ≤ 3) as Hl' by lia.
    unfold mapFilename in Heq. apply append_inj_r in Heq.
    apply append_inj_l in Heq.
    rewrite !padStart_long in Heq
      by (unfold DatabaseManager.decimal; rewrite string_length_of_list; lia).
    by apply decimal_inj.
Qed.

Lemma json_ne_tmp (a b : string) : a +:+ ".json" ≠ b +:+ ".tmp".
Proof.
  intros H. apply (f_equal list_ascii_of_string) in H.
  rewrite !list_ascii_of_string_app in H.
  apply (f_equal (@rev ascii)) in H. rewrite !rev_app_distr in H.
  discriminate H.
Qed.

Lemma json_ne_bak (a b : string) : a +:+ ".json" ≠ b +:+ ".bak".
Proof.
  intros H. apply (f_equal list_ascii_of_string) in H.
  rewrite !list_ascii_of_string_app in H.
  apply (f_equal (@rev ascii)) in H. rewrite !rev_app_distr in H.
  discriminate H.
Qed.

Lemma mapFilename_json id : ∃ stem, mapFilename id = stem +:+ ".json".
Proof.
  exists ("Map" +:+ padStart (DatabaseManager.decimal id) 3 "0").
  unfold mapFilename. by rewrite append_assoc.
Qed.

(** No map file is [MapInfos.json]: after [Map] comes a digit or a sign. *)
Lemma mapFilename_not_infos id : mapFilename id ≠ "MapInfos.json".
Proof.
  unfold mapFilename. change "MapInfos.json" with ("Map" +:+ "Infos" +:+ ".json").
  intros H%append_inj_r%append_inj_l. revert H.
  unfold padStart, DatabaseManager.decimal.
  destruct (print_Z_head id) as (c & r & -> & Hc).
  destruct (3 - String.length (string_of_list_ascii (c :: r))) as [|k].
  - cbn. intros [= -> _]. cbn in Hc. intuition discriminate.
  - cbn. discriminate.
Qed.

End map_file_facts.

(** X25. The maps are kept apart.  Different map ids have different file
    names.  After [writeMap] of a JavaScript value resolves, [readMap] of
    the same id resolves with that value; [readMap] of every other id and
    [readMapInfos] return what they returned before; and the default map
    of any size is such a value, with six layers of tiles and the sentinel
    as its only event. *)
Theorem maps_are_kept_apart :
  (∀ id id', DatabaseTools.mapFilename id = DatabaseTools.mapFilename id' → id = id')
  ∧ (∀ dataPath id mapData σ σ',
       wf_json mapData = true →
       MapTools.writeMap dataPath id mapData σ = (Ok (), σ') →
       MapTools.readMap dataPath id σ' = (Ok mapData, σ')
       ∧ (∀ id', id' ≠ id →
            MapTools.readMap dataPath id' σ' = ((MapTools.readMap dataPath id' σ).1, σ'))
       ∧ MapTools.readMapInfos dataPath σ' = ((MapTools.readMapInfos dataPath σ).1, σ'))
  ∧ ∀ width height tilesetId,
      let map := MapTools.defaultMap width height tilesetId in
      wf_json (JObj map) = true
      ∧ obj_get "data" map = Some (JArr (replicate (width * height * 6) (JNum 0)))
      ∧ obj_get "events" map = Some (JArr [JNull]).
Proof.
  split_and!.
  - apply mapFilename_inj_all.
  - intros dataPath id mapData σ σ' Hwf Hw. unfold MapTools.writeMap in Hw.
    assert (∀ q, q ≠ path_join [dataPath; DatabaseTools.mapFilename id] →
              q ≠ path_join [dataPath; DatabaseTools.mapFilename id] +:+ ".tmp" →
              q ≠ path_join [dataPath; DatabaseTools.mapFilename id] +:+ ".bak" →
              FileHandler.readJsonRaw q σ' = ((FileHandler.readJsonRaw q σ).1, σ'))
      as Hother.
    { intros q H1 H2 H3.
      pose proof (readJsonRaw_state q σ') as Hst.
      pose proof (readJsonRaw_ext q σ σ'
                    (writeJson_frame _ _ _ _ _ _ Hw H1 H2 H3)) as Hext.
      destruct (FileHandler.readJsonRaw q σ') as [r σ1]. simpl in *. by subst. }
    split_and!.
    + apply writeJson_ok in Hw as (Hfile & _). by apply readJsonRaw_written.
    + intros id' Hne. apply Hother; cbn [path_join foldl].
      * intros H%append_inj_r%append_inj_r. by apply Hne, mapFilename_inj_all.
      * destruct (mapFilename_json id') as [stem ->].
        rewrite <- !append_assoc. apply json_ne_tmp.
      * destruct (mapFilename_json id') as [stem ->].
        rewrite <- !append_assoc. apply json_ne_bak.
    + apply Hother; cbn [path_join foldl].
      * intros H%append_inj_r%append_inj_r. by apply (mapFilename_not_infos id).
      * change "MapInfos.json" with ("MapInfos" +:+ ".json").
        rewrite <- !append_assoc. apply json_ne_tmp.
      * change "MapInfos.json" with ("MapInfos" +:+ ".json").
        rewrite <- !append_assoc. apply json_ne_bak.
  - intros width height tilesetId map. split_and!; [|done..].
    apply wf_json_obj. split.
    + apply (bool_decide_unpack (NoDup (keys map))). vm_compute. exact I.
    + repeat (apply Forall_cons; split; [done|]); try apply Forall_nil.
      apply Forall_cons. split; [|by repeat constructor].
      apply wf_json_arr, Forall_replicate. done.
Qed.

(** The default map of two by two tiles, written as map 1 and read back. *)
Lemma maps_are_kept_apart_witness :
  let map := JObj (MapTools.defaultMap 2 2 1) in
  ∃ σ', MapTools.writeMap "/game/data" 1 map ∅ = (Ok (), σ')
        ∧ MapTools.readMap "/game/data" 1 σ' = (Ok map, σ')
        ∧ (MapTools.readMap "/game/data" 2 σ').1
          = Throw (ENOENT "/game/data/Map002.json").
Proof.
  intros map.
  assert ((MapTools.writeMap "/game/data" 1 map ∅).1 = Ok ()) as Hrun
    by (vm_compute; reflexivity).
  apply run_fst in Hrun.
  destruct maps_are_kept_apart as (_ & Hwrite & _).
  destruct (Hwrite "/game/data" 1%Z map ∅ _ eq_refl Hrun) as (Hread & Hother & _).
  eexists. split; [exact Hrun|]. split; [exact Hread|].
  rewrite (Hother 2%Z) by done. reflexivity.
Defined.

(** ** Event commands *)

(** What the case of a type does, for each of the types in turn. *)
Ltac each_case Hcase :=
  unfold EventCommands.CASES in Hcase; cbn [EventCommands.case_of] in Hcase;
  repeat
    (match type of Hcase with
     | (if String.eqb ?t ?k then _ else _) = _ =>
         destruct (String.eqb_spec t k) as [->|_]; [injection Hcase as <-|]
     end);
  [..|discriminate Hcase].

Section command_facts.
Import EventCommands.

Lemma command_indent k ps : indent (command k ps) = 0%Z.
Proof. done. Qed.

Lemma body_commands_indent k (lines : list string) :
  Forall (λ c, indent c = 0%Z) (map (λ line, command k [JStr line]) lines).
Proof. induction lines; by constructor. Qed.

Lemma more_goods_indent goods commands :
  more_goods goods = inr commands → Forall (λ c, indent c = 0%Z) commands.
Proof.
  revert commands. induction goods as [|good goods IH]; intros commands.
  - intros [= <-]. constructor.
  - cbn [more_goods]. destruct (more_goods goods) as [e|cs].
    + by destruct good.
    + destruct good; intros [= <-]; constructor; auto.
Qed.

Lemma split_lines_cons text : ∃ line lines, split_lines text = line :: lines.
Proof.
  destruct text as [|c text]; cbn [split_lines]; [by eexists _, _|].
  destruct (Ascii.eqb c LF); [by eexists _, _|].
  destruct (split_lines text); by eexists _, _.
Qed.

Lemma join_split text : join_lines (split_lines text) = text.
Proof.
  induction text as [|c text IH]; [done|]. cbn [split_lines].
  destruct (split_lines_cons text) as (line & lines & Hs). rewrite Hs in *.
  destruct (Ascii.eqb_spec c LF) as [->|Hc].
  - change (join_lines (EmptyString :: line :: lines))
      with (String LF (join_lines (line :: lines))). by rewrite IH.
  - assert (join_lines (String c line :: lines)
            = String c (join_lines (line :: lines))) as -> by by destruct lines.
    by rewrite IH.
Qed.

Lemma or_truthy v d : falsy d = false → falsy (or_ v d) = false.
Proof.
  intros Hd. unfold or_. destruct v as [x|]; [|done].
  by destruct (falsy x) eqn:Hx.
Qed.

Lemma case_commands type body cmd commands :
  case_of type CASES = Some body → body cmd = Converted commands →
  ∃ first rest,
    commands = first :: rest
    ∧ code_of type COMMAND_CODES = Some (code first)
    ∧ Forall (λ c, indent c = 0%Z) commands.
Proof.
  intros Hcase. each_case Hcase.
  all: try (intros [= <-]; eexists _, _; split_and!; [done|done|by repeat constructor]).
  - unfold show_text. destruct (or_ (obj_get "text" cmd) _); try done.
    intros [= <-]. eexists _, _. split_and!; [done|done|].
    constructor; [done|apply body_commands_indent].
  - unfold shop_processing.
    destruct (or_ (obj_get "goods" cmd) _) as [|b|n|s|goods|o]; try done;
      try (intros [= <-]; eexists _, _; split_and!; [done|done|by repeat constructor]).
    destruct (existsb is_string goods); [done|].
    destruct (more_goods (tail goods)) as [e|cs] eqn:Hmore; [done|].
    intros [= <-]. eexists _, _. split_and!; [done|done|].
    constructor; [done|]. by eapply more_goods_indent.
  - unfold comment. destruct (or_ (obj_get "text" cmd) _); try done.
    intros [= <-]. eexists _, _. split_and!; [done|done|].
    constructor; [done|apply body_commands_indent].
Qed.

Lemma case_throws type body cmd e :
  case_of type CASES = Some body → body cmd = Thrown e → e = TypeError.
Proof.
  intros Hcase. each_case Hcase.
  all: try done.
  - unfold show_text. destruct (or_ (obj_get "text" cmd) _); try done;
      by intros [= <-].
  - unfold shop_processing.
    destruct (or_ (obj_get "goods" cmd) _) as [|b|n|s|goods|o]; try done.
    destruct (existsb is_string goods); [done|].
    destruct (more_goods (tail goods)) as [e'|cs] eqn:Hmore; [|done].
    intros [= <-]. clear -Hmore. revert Hmore.
    induction (tail goods) as [|good gs IH]; [done|]. cbn [more_goods].
    destruct (more_goods gs) as [e''|cs].
    + destruct good; intros [= <-]; auto.
    + by destruct good; intros [= <-].
  - unfold comment. destruct (or_ (obj_get "text" cmd) _); try done;
      by intros [= <-].
Qed.

Lemma case_of_Some type :
  is_Some (case_of type CASES) ↔ type ∈ CASES.*1.
Proof.
  induction CASES as [|[k b] cases IH]; cbn [case_of].
  - split; [by intros [? ?]|by intros ?%elem_of_nil].
  - rewrite fmap_cons, elem_of_cons. cbn [fst].
    destruct (String.eqb_spec type k) as [->|Hne].
    + split; [by left|by eexists].
    + rewrite IH. split; [by right|]. by intros [?|?].
Qed.

End command_facts.

(** X26. What [convertCommand] returns follows the table of codes.  When
    it returns, the command had a string for its type, the result is not
    empty, the code of its first command is the one that [COMMAND_CODES]
    gives for the type, and every command of the result has indent 0. *)
Theorem converted_commands_follow_the_table (cmd : obj)
    (commands : list EventCommands.EventCommand) :
  EventCommands.convertCommand cmd = EventCommands.Converted commands →
  ∃ type first rest,
    obj_get "type" cmd = Some (JStr type)
    ∧ commands = first :: rest
    ∧ EventCommands.code_of type EventCommands.COMMAND_CODES
      = Some (EventCommands.code first)
    ∧ Forall (λ c, EventCommands.indent c = 0%Z) commands.
Proof.
  unfold EventCommands.convertCommand.
  destruct (obj_get "type" cmd) as [[| | |type| |]|]; try done.
  destruct (EventCommands.case_of type EventCommands.CASES) as [body|] eqn:Hcase;
    [|done].
  intros (first & rest & -> & Hcode & Hindent)%(case_commands type body); [|done].
  by exists type, first, rest.
Qed.

(** The test of the repository: a text of two lines. *)
Lemma converted_commands_follow_the_table_witness :
  let cmd := [("type", JStr "show_text"); ("face", JStr "Actor1");
              ("faceIndex", JNum 2);
              ("text", JStr ("Hello!" +:+ String LF "How are you?"))] in
  EventCommands.convertCommand cmd
  = EventCommands.Converted
      [EventCommands.command 101 [JStr "Actor1"; JNum 2; JNum 0; JNum 2];
       EventCommands.command 401 [JStr "Hello!"];
       EventCommands.command 401 [JStr "How are you?"]]
  ∧ EventCommands.code_of "show_text" EventCommands.COMMAND_CODES = Some 101%Z.
Proof.
  intros cmd.
  assert (EventCommands.convertCommand cmd
          = EventCommands.Converted
              [EventCommands.command 101 [JStr "Actor1"; JNum 2; JNum 0; JNum 2];
               EventCommands.command 401 [JStr "Hello!"];
               EventCommands.command 401 [JStr "How are you?"]]) as Hrun
    by reflexivity.
  split; [exact Hrun|].
  destruct (converted_commands_follow_the_table cmd _ Hrun)
    as (type & first & rest & Htype & Hcmds & Hcode & _).
  injection Htype as <-. injection Hcmds as <- _. exact Hcode.
Defined.

(** X27. The types that [convertCommand] does not take.  For a command
    whose type is a string, it throws "Unknown command type: <type>"
    exactly when the type is not one of the 38 labels of its [switch].
    Every label is a name of [COMMAND_CODES], but 52 of the 90 names of
    that table are not labels, [change_mp], [play_bgs] and
    [plugin_command] among them: the table lists them and the conversion
    rejects them. *)
Theorem unsupported_commands_are_rejected :
  (∀ cmd type,
     obj_get "type" cmd = Some (JStr type) →
     EventCommands.convertCommand cmd
     = EventCommands.Thrown (Error ("Unknown command type: " +:+ type))
     ↔ type ∉ EventCommands.CASES.*1)
  ∧ EventCommands.CASES.*1 ⊆ EventCommands.COMMAND_CODES.*1
  ∧ length EventCommands.CASES = 38
  ∧ length EventCommands.COMMAND_CODES = 90
  ∧ length (filter (λ name, name ∉ EventCommands.CASES.*1)
              EventCommands.COMMAND_CODES.*1) = 52
  ∧ Forall (λ name, name ∈ EventCommands.COMMAND_CODES.*1
                    ∧ name ∉ EventCommands.CASES.*1)
      ["change_mp"; "play_bgs"; "plugin_command"].
Proof.
  split_and!.
  - intros cmd type Htype. unfold EventCommands.convertCommand. rewrite Htype.
    rewrite <- case_of_Some.
    destruct (EventCommands.case_of type EventCommands.CASES) as [body|] eqn:Hcase.
    + split; [|by intros []].
      intros H. apply (case_throws type body) in H; [done|done].
    + split; [by intros _ [? ?]|done].
  - apply (bool_decide_unpack _). vm_compute. exact I.
  - reflexivity.
  - reflexivity.
  - vm_compute. reflexivity.
  - apply (bool_decide_unpack _). vm_compute. exact I.
Qed.

(** [change_mp] has the code 312 in the table, and is rejected. *)
Lemma unsupported_commands_are_rejected_witness :
  EventCommands.code_of "change_mp" EventCommands.COMMAND_CODES = Some 312%Z
  ∧ EventCommands.convertCommand [("type", JStr "change_mp"); ("value", JNum 10)]
    = EventCommands.Thrown (Error "Unknown command type: change_mp").
Proof.
  split; [reflexivity|].
  destruct unsupported_commands_are_rejected as (Hunknown & _).
  apply (Hunknown _ "change_mp"); [reflexivity|].
  apply (bool_decide_unpack _). vm_compute. exact I.
Defined.

Section default_facts.
Import EventCommands.

Lemma case_defaults type body cmd commands c :
  case_of type CASES = Some body → body cmd = Converted commands → c ∈ commands →
  (code c = 101%Z →
   ∃ face faceIndex background positionType,
     parameters c = [Some face; Some faceIndex; Some background; Some positionType]
     ∧ falsy positionType = false)
  ∧ (code c = 230%Z → ∃ duration, parameters c = [Some duration] ∧ falsy duration = false)
  ∧ (code c = 126%Z →
     ∃ itemId operation operandType value,
       parameters c = [Some itemId; Some operation; Some operandType; Some value]
       ∧ falsy itemId = false ∧ falsy value = false).
Proof.
  intros Hcase. each_case Hcase.
  all: try solve [intros [= <-] ->%list_elem_of_singleton; split_and!; intros [=]].
  - unfold show_text. destruct (or_ (obj_get "text" cmd) _); try done.
    intros [= <-] [->|Hin]%elem_of_cons.
    + split_and!; intros [=]. eexists _, _, _, _. split; [done|]. by apply or_truthy.
    + apply list_elem_of_In, in_map_iff in Hin as (line & <- & _).
      split_and!; intros [=].
  - intros [= <-] ->%list_elem_of_singleton. split_and!; intros [=].
    eexists _, _, _, _. split; [done|]. split; by apply or_truthy.
  - intros [= <-] ->%list_elem_of_singleton. split_and!; intros [=].
    eexists. split; [done|]. by apply or_truthy.
  - unfold shop_processing.
    destruct (or_ (obj_get "goods" cmd) _) as [|b|n|s|goods|o]; try done;
      try solve [intros [= <-] ->%list_elem_of_singleton; split_and!; intros [=]].
    destruct (existsb is_string goods); [done|].
    destruct (more_goods (tail goods)) as [e|cs] eqn:Hmore; [done|].
    intros [= <-] [->|Hin]%elem_of_cons; [split_and!; intros [=]|].
    assert (code c = 605%Z) as ->; [|split_and!; intros [=]].
    clear -Hmore Hin. revert cs Hmore Hin.
    induction (tail goods) as [|good gs IH]; intros cs.
    + intros [= <-] ?%elem_of_nil. done.
    + cbn [more_goods]. destruct (more_goods gs) as [e|cs'].
      * by destruct good.
      * destruct good; intros [= <-] [->|Hin]%elem_of_cons; eauto.
  - unfold comment. destruct (or_ (obj_get "text" cmd) _); try done.
    intros [= <-] [->|Hin]%elem_of_cons.
    + split_and!; intros [=].
    + apply list_elem_of_In, in_map_iff in Hin as (line & <- & _).
      split_and!; intros [=].
Qed.

End default_facts.

(** X28. A zero that the caller passes is replaced where the code defaults
    with [||].  In whatever [convertCommand] returns, a Show Text command
    never has the window position 0 (the top of the screen): a position 0
    is taken for a missing one and becomes 2.  Likewise a Wait never has
    the duration 0, and a Change Items never has the item 0 or the
    quantity 0. *)
Theorem a_zero_is_taken_for_missing (cmd : obj)
    (commands : list EventCommands.EventCommand) (c : EventCommands.EventCommand) :
  EventCommands.convertCommand cmd = EventCommands.Converted commands →
  c ∈ commands →
  (EventCommands.code c = 101%Z →
   ∃ face faceIndex background positionType,
     EventCommands.parameters c
     = [Some face; Some faceIndex; Some background; Some positionType]
     ∧ positionType ≠ JNum 0
     ∧ (obj_get "positionType" cmd = Some (JNum 0) → positionType = JNum 2))
  ∧ (EventCommands.code c = 230%Z →
     ∃ duration, EventCommands.parameters c = [Some duration] ∧ duration ≠ JNum 0)
  ∧ (EventCommands.code c = 126%Z →
     ∃ itemId operation operandType value,
       EventCommands.parameters c
       = [Some itemId; Some operation; Some operandType; Some value]
       ∧ itemId ≠ JNum 0 ∧ value ≠ JNum 0).
Proof.
  unfold EventCommands.convertCommand.
  destruct (obj_get "type" cmd) as [[| | |type| |]|]; try done.
  destruct (EventCommands.case_of type EventCommands.CASES) as [body|] eqn:Hcase;
    [|done].
  intros Hbody Hin.
  destruct (case_defaults type body cmd commands c Hcase Hbody Hin)
    as (H101 & H230 & H126).
  split_and!.
  - intros Hc. destruct (H101 Hc) as (face & faceIndex & background & positionType
                                       & Hp & Hpos).
    exists face, faceIndex, background, positionType.
    split_and!; [done|by intros ->|].
    intros Hzero. revert Hcase Hbody Hin Hc Hp. clear H101 H230 H126 Hpos.
    intros Hcase. each_case Hcase.
    all: try solve [intros [= <-] ->%list_elem_of_singleton; by intros [=]].
    + unfold EventCommands.show_text. rewrite Hzero.
      destruct (EventCommands.or_ (obj_get "text" cmd) _); try done.
      intros [= <-] [->|Hin]%elem_of_cons.
      * intros _ Hp. cbn in Hp. by injection Hp as _ _ _ <-.
      * apply list_elem_of_In, in_map_iff in Hin as (line & <- & _). by intros [=].
    + unfold EventCommands.shop_processing.
      destruct (EventCommands.or_ (obj_get "goods" cmd) _) as [|b|n|s|goods|o];
        try done;
        try solve [intros [= <-] ->%list_elem_of_singleton; by intros [=]].
      destruct (existsb EventCommands.is_string goods); [done|].
      destruct (EventCommands.more_goods (tail goods)) as [e|cs] eqn:Hmore; [done|].
      intros [= <-] [->|Hin]%elem_of_cons; [by intros [=]|].
      intros Hc _. exfalso. clear -Hmore Hin Hc. revert cs Hmore Hin.
      induction (tail goods) as [|good gs IH]; intros cs.
      * intros [= <-] ?%elem_of_nil. done.
      * cbn [EventCommands.more_goods].
        destruct (EventCommands.more_goods gs) as [e|cs'].
        -- by destruct good.
        -- destruct good; intros [= <-] [->|Hin]%elem_of_cons; eauto;
             discriminate Hc.
    + unfold EventCommands.comment.
      destruct (EventCommands.or_ (obj_get "text" cmd) _); try done.
      intros [= <-] [->|Hin]%elem_of_cons; [by intros [=]|].
      apply list_elem_of_In, in_map_iff in Hin as (line & <- & _). by intros [=].
  - intros Hc. destruct (H230 Hc) as (duration & Hp & Hd).
    exists duration. split; [done|]. by intros ->.
  - intros Hc. destruct (H126 Hc) as (itemId & operation & operandType & value
                                       & Hp & Hi & Hv).
    exists itemId, operation, operandType, value.
    split_and!; [done|by intros ->|by intros ->].
Qed.

(** A text for the top of the screen comes out at the bottom. *)
Lemma a_zero_is_taken_for_missing_witness :
  let cmd := [("type", JStr "show_text"); ("positionType", JNum 0);
              ("text", JStr "Hi")] in
  ∃ c rest,
    EventCommands.convertCommand cmd = EventCommands.Converted (c :: rest)
    ∧ EventCommands.parameters c
      = [Some (JStr EmptyString); Some (JNum 0); Some (JNum 0); Some (JNum 2)].
Proof.
  intros cmd. eexists _, _.
  assert (EventCommands.convertCommand cmd
          = EventCommands.Converted
              [EventCommands.command 101 [JStr EmptyString; JNum 0; JNum 0; JNum 2];
               EventCommands.command 401 [JStr "Hi"]]) as Hrun by reflexivity.
  split; [exact Hrun|].
  destruct (a_zero_is_taken_for_missing cmd _ (EventCommands.command 101
              [JStr EmptyString; JNum 0; JNum 0; JNum 2]) Hrun ltac:(left))
    as (H101 & _).
  destruct (H101 eq_refl) as (face & faceIndex & background & positionType & Hp & _).
  exact eq_refl.
Defined.

(** X29. No line of a text is lost.  For a Show Text whose text is a
    string, [convertCommand] returns the command 101 and then one command
    401 for each line of the text, in order: the lines joined by line
    feeds are the text again, and there is one line more than there are
    line feeds, so that an empty text still gives one empty line. *)
Theorem show_text_keeps_every_line (cmd : obj) (text : string) :
  obj_get "type" cmd = Some (JStr "show_text") →
  obj_get "text" cmd = Some (JStr text) →
  ∃ head lines,
    EventCommands.convertCommand cmd
    = EventCommands.Converted
        (head :: map (λ line, EventCommands.command 401 [JStr line]) lines)
    ∧ EventCommands.code head = 101%Z
    ∧ EventCommands.join_lines lines = text
    ∧ length lines = S (length (filter (λ c, c = LF) (list_ascii_of_string text)))
    ∧ Forall (λ line, LF ∉ list_ascii_of_string line) lines.
Proof.
  intros Htype Htext. unfold EventCommands.convertCommand. rewrite Htype.
  cbn [EventCommands.case_of EventCommands.CASES String.eqb Ascii.eqb Bool.eqb andb].
  unfold EventCommands.show_text. rewrite Htext.
  assert (EventCommands.or_ (Some (JStr text)) (JStr EmptyString) = JStr text) as ->.
  { by destruct text. }
  eexists _, (EventCommands.split_lines text). split; [done|]. split; [done|].
  split; [apply join_split|]. clear. split.
  - induction text as [|c text IH]; [done|]. cbn [EventCommands.split_lines].
    change (list_ascii_of_string (String c text)) with (c :: list_ascii_of_string text).
    rewrite filter_cons.
    destruct (split_lines_cons text) as (line & lines & Hs). rewrite Hs in *.
    destruct (Ascii.eqb_spec c LF) as [->|Hc].
    + rewrite decide_True by done. simpl in *. by rewrite IH.
    + rewrite decide_False by done. simpl in *. by rewrite <- IH.
  - induction text as [|c text IH].
    + repeat constructor. by intros ?%elem_of_nil.
    + cbn [EventCommands.split_lines].
      destruct (split_lines_cons text) as (line & lines & Hs). rewrite Hs in *.
      apply Forall_cons in IH as [Hline Hlines].
      destruct (Ascii.eqb_spec c LF) as [->|Hc].
      * constructor; [by intros ?%elem_of_nil|by constructor].
      * constructor; [|done]. cbn. intros [?|?]%elem_of_cons; by subst.
Qed.

(** The empty text: one command 401, with the empty line. *)
Lemma show_text_keeps_every_line_witness :
  let cmd := [("type", JStr "show_text"); ("text", JStr EmptyString)] in
  ∃ head lines,
    EventCommands.convertCommand cmd
    = EventCommands.Converted
        (head :: map (λ line, EventCommands.command 401 [JStr line]) lines)
    ∧ length lines = 1.
Proof.
  intros cmd.
  destruct (show_text_keeps_every_line cmd EmptyString eq_refl eq_refl)
    as (head & lines & Hrun & _ & _ & Hlen & _).
  exists head, lines. split; [exact Hrun|exact Hlen].
Defined.

(** ** The counts of the summary follow the mutations *)

Section count_op_facts.
Import DatabaseManager.

Lemma countEntities_array project filename manager σ arr :
  filePath manager = path_join [ProjectManager.dataPath project; filename] →
  array_is manager σ arr →
  ProjectManagerMore.countEntities project filename σ
  = (Ok (length (filter (λ e, is_null e = false) arr)), σ).
Proof.
  intros Hpath Harr. rewrite countEntities_run, <- Hpath.
  revert Harr. unfold array_is. rewrite readArray_run.
  by destruct (FileHandler.readJsonRaw (filePath manager) σ) as [[[]|e] σ'];
    intros [= <-].
Qed.

End count_op_facts.

(** X30. The counts of the summary follow the mutations.  For the manager
    that the tools build for an entity type, after a create that resolved
    [countEntities] of the type's document returns one more than before,
    after an update the same, and after a delete one less. *)
Theorem counts_follow_the_mutations (project : ProjectManager.ProjectManager)
    (entityType : DatabaseTools.EntityType) (o : op) (σ σ' : gmap string node)
    (out : outcome) (arr : list json) :
  let manager := DatabaseTools.getManager project entityType in
  let file := DatabaseTools.filename entityType in
  js_op manager o → array_is manager σ arr →
  run_op manager o σ = (Ok out, σ') →
  ∃ before after,
    ProjectManagerMore.countEntities project file σ = (Ok before, σ)
    ∧ ProjectManagerMore.countEntities project file σ' = (Ok after, σ')
    ∧ match out with
      | Created _ _ => after = S before
      | Updated _ => after = before
      | Deleted => before = S after
      end.
Proof.
  intros manager file Hop Harr Hrun.
  assert (separate manager) as Hsep.
  { apply tool_managers_separate. unfold ENTITY_FILENAMES.
    destruct entityType; repeat constructor. }
  destruct (run_op_array _ _ _ _ _ _ Hsep Hop Harr Hrun) as (arr' & Hw & Harr').
  eexists _, _.
  split; [by apply (countEntities_array project file manager)|].
  split; [by apply (countEntities_array project file manager)|].
  destruct o as [data|id data|id protectFirst], out as [id' entity|entity|];
    simpl in Hw; try done.
  - destruct Hw as (_ & _ & ->). rewrite filter_app, length_app. simpl. lia.
  - destruct Hw as (Hm & _ & ->).
    apply missing_false in Hm as [Hid (old & Hold & Hnull)].
    assert (arr !! Z.to_nat id = Some old) as Hi.
    { revert Hold. unfold DatabaseManager.index.
      by destruct (Z.ltb_spec id 0); [lia|]. }
    destruct (filter_insert (λ e, DatabaseManager.is_null e = false) arr
                (Z.to_nat id) old (JObj entity) Hi) as (l1 & l2 & -> & ->).
    { by destruct old. }
    rewrite !length_app. simpl. lia.
  - destruct Hw as (_ & Hm & ->).
    apply missing_false in Hm as [Hid (old & Hold & Hnull)].
    assert (arr !! Z.to_nat id = Some old) as Hi.
    { revert Hold. unfold DatabaseManager.index.
      by destruct (Z.ltb_spec id 0); [lia|]. }
    destruct (filter_insert (λ e, DatabaseManager.is_null e = false) arr
                (Z.to_nat id) old JNull Hi) as (l1 & l2 & -> & ->).
    { by destruct old. }
    rewrite !length_app. simpl. lia.
Qed.

(** A new actor on the seeded project: two actors where there was one. *)
Lemma counts_follow_the_mutations_witness :
  let project := {| ProjectManager.projectPath := "/game" |} in
  let manager := DatabaseTools.getManager project DatabaseTools.actors in
  ∃ out σ',
    run_op manager (Create [("name", JStr "Hero")]) seeded_disk = (Ok out, σ')
    ∧ ProjectManagerMore.countEntities project "Actors.json" seeded_disk
      = (Ok 1, seeded_disk)
    ∧ ProjectManagerMore.countEntities project "Actors.json" σ' = (Ok 2, σ').
Proof.
  intros project manager.
  assert (∃ out, (run_op manager (Create [("name", JStr "Hero")]) seeded_disk).1
                 = Ok out ∧ ∃ id entity, out = Created id entity)
    as (out & Hrun & id & entity & ->)
    by (eexists; split; [vm_compute; reflexivity|by eexists _, _]).
  apply run_fst in Hrun.
  assert (array_is manager seeded_disk [JNull; JObj first_record]) as Harr
    by reflexivity.
  assert (js_op manager (Create [("name", JStr "Hero")])) as Hop.
  { split; [by repeat constructor|]. intros i. by repeat constructor. }
  destruct (counts_follow_the_mutations project DatabaseTools.actors _ seeded_disk _ _ _
              Hop Harr Hrun) as (before & after & Hb & Ha & ->).
  assert (before = 1) as ->.
  { assert ((ProjectManagerMore.countEntities project "Actors.json" seeded_disk).1
            = Ok 1) as H by reflexivity.
    cbn [DatabaseTools.filename] in Hb. rewrite Hb in H. by injection H. }
  eexists _, _. split; [exact Hrun|]. split; [exact Hb|exact Ha].
Defined.
